(** * transform_plugin_data/run.py: the plugin-catalog refresh job

    A shallow embedding of [scripts/transform_plugin_data/run.py] and the
    properties of its enrichment and merge pipeline.

    The script is dynamically typed Python over decoded JSON.  The embedding
    keeps that: every value read from the network or from a file is a [json]
    value, a Python [dict] is an association list in insertion order, and the
    builtins the script calls ([bool], [int], [dict.get], [isinstance], the
    [or] operator) are functions on [json], raising the exceptions Python
    raises.  Effects (HTTP requests, sleeps, files) are threaded through an
    explicit [World]; what the outside answers is read from an [Env].

    What the embedding leaves out or idealises:
    - console output, request headers and timeouts, and the git steps of
      [main] (external collaborators); [sys.stdout], whose encoding belongs
      to the environment, is taken to accept every text;
    - the summary lists and counters, which only feed the console output
      (the exception they can raise is kept);
    - delays are exact rationals, not binary64 floats; the [OverflowError]
      of the conversion on line 169 is kept;
    - the worker pool of [get_repo_info]: every task runs and keeps what it
      returned or raised, and the results are collected in the order in which
      the tasks complete, which the environment decides; of the ways the pool
      can interleave the requests of its tasks, the one where the tasks run
      one after the other, in submission order, is taken;
    - a [str] is kept as its UTF-8 bytes; the decimal digits beyond ASCII
      that [int] reads are those of Unicode 14.0;
    - [save_json] raises on a text that cannot be encoded; the two writes of
      the merge are taken not to fail, because what they write has been
      written before (see [transform_loop_encodable]). *)

From Stdlib Require Import List String Ascii ZArith QArith Qminmax Bool Lia Lqa.
From Stdlib Require Import SpecFloat Permutation.
Import ListNotations.

Set Warnings "-register-all".
Local Open Scope string_scope.
Local Open Scope Z_scope.

(** ** Decoded JSON, as [json.loads] returns it *)

Inductive json : Type :=
| JNull                               (* None *)
| JBool (b : bool)
| JInt (n : Z)                        (* int: unbounded *)
| JFloat (f : spec_float)             (* float: binary64, NaN and Infinity included *)
| JStr (s : string)
| JArr (items : list json)
| JObj (fields : list (string * json)).

(** A Python [dict] with string keys, in insertion order. *)
Definition dict : Type := list (string * json).

(** ** Exceptions and the two computation types *)

Inductive exn : Type :=
| TypeError
| ValueError
| OverflowError
| AttributeError
| JSONDecodeError                     (* a subclass of ValueError, caught by its own name *)
| RecursionError
| UnicodeEncodeError.

Inductive res (A : Type) : Type :=
| Ok (a : A)
| Err (e : exn).
Arguments Ok {A} a.
Arguments Err {A} e.

Definition res_bind {A B} (r : res A) (k : A -> res B) : res B :=
  match r with
  | Ok a => k a
  | Err e => Err e
  end.

Notation "'let?' x ':=' e 'in' k" := (res_bind e (fun x => k))
  (at level 10, x name, e at level 100, k at level 200).

(** ** Python builtins on decoded JSON *)

(** [bool(v)]: the truth value the [if], [not], [and] and [or] of the script test. *)
Definition py_truthy (v : json) : bool :=
  match v with
  | JNull => false
  | JBool b => b
  | JInt n => negb (n =? 0)
  | JFloat (S754_zero _) => false
  | JFloat _ => true
  | JStr s => negb (s =? "")%string
  | JArr items => match items with [] => false | _ => true end
  | JObj fields => match fields with [] => false | _ => true end
  end.

(** [a or b] *)
Definition py_or (a b : json) : json := if py_truthy a then a else b.

(** [isinstance(v, dict)] *)
Definition is_dict (v : json) : bool :=
  match v with JObj _ => true | _ => false end.

(** [v is None] *)
Definition is_none (v : json) : bool :=
  match v with JNull => true | _ => false end.

(** [v == "literal"] *)
Definition py_eq_str (v : json) (s : string) : bool :=
  match v with JStr t => (t =? s)%string | _ => false end.

(** [v == 0] (Python compares numbers across int, bool and float). *)
Definition py_eq_zero (v : json) : bool :=
  match v with
  | JInt n => n =? 0
  | JBool b => negb b
  | JFloat (S754_zero _) => true
  | _ => false
  end.

(** *** Text *)

(** A [str] is kept as its UTF-8 bytes, a lone surrogate taking three bytes
    like the code points around it.  The code points of a text: [pending]
    bytes of the current one are still to come, [acc] holds its bits so far. *)
Fixpoint code_points (cs : list ascii) (pending : nat) (acc : Z) : list Z :=
  match cs with
  | [] => []
  | c :: rest =>
      let b := Z.of_nat (nat_of_ascii c) in
      match pending with
      | O =>
          if b <? 128 then b :: code_points rest 0 0
          else if b <? 224 then code_points rest 1 (b - 192)
          else if b <? 240 then code_points rest 2 (b - 224)
          else code_points rest 3 (b - 240)
      | S O => (acc * 64 + (b - 128)) :: code_points rest 0 0
      | S p => code_points rest p (acc * 64 + (b - 128))
      end
  end.

Definition text_code_points (s : string) : list Z :=
  code_points (list_ascii_of_string s) 0 0.

(** A surrogate: [json.loads] makes a lone one of an escape such as [\ud800],
    and no encoder to UTF-8 accepts it. *)
Definition is_surrogate (cp : Z) : bool := (55296 <=? cp) && (cp <=? 57343).

(** [s.encode("utf-8")] does not raise. *)
Definition str_encodable (s : string) : bool :=
  negb (existsb is_surrogate (text_code_points s)).

(** The whitespace of Unicode beyond ASCII. *)
Definition is_unicode_space (cp : Z) : bool :=
  (cp =? 133) || (cp =? 160) || (cp =? 5760) || ((8192 <=? cp) && (cp <=? 8202))
  || (cp =? 8232) || (cp =? 8233) || (cp =? 8239) || (cp =? 8287) || (cp =? 12288).

(** [c.isspace()]: what [str.strip()] removes; among the ASCII characters
    the separators 28 to 31 are included. *)
Definition is_space (cp : Z) : bool :=
  ((9 <=? cp) && (cp <=? 13)) || ((28 <=? cp) && (cp <=? 32)) || is_unicode_space cp.

Fixpoint lstrip (cps : list Z) : list Z :=
  match cps with
  | cp :: rest => if is_space cp then lstrip rest else cps
  | [] => []
  end.

(** [s.strip()] on the code points of [s]. *)
Definition strip (cps : list Z) : list Z :=
  rev (lstrip (rev (lstrip cps))).

(** *** [int(v)] *)

(** The code points of the digit zero in the decimal digit sets of Unicode
    14.0 beyond ASCII; the nine code points after each are its digits 1 to
    9. *)
Definition decimal_zeros : list Z :=
  [1632; 1776; 1984; 2406; 2534; 2662; 2790; 2918; 3046; 3174;
   3302; 3430; 3558; 3664; 3792; 3872; 4160; 4240; 6112; 6160;
   6470; 6608; 6784; 6800; 6992; 7088; 7232; 7248; 42528; 43216;
   43264; 43472; 43504; 43600; 44016; 65296; 66720; 68912; 69734; 69872;
   69942; 70096; 70384; 70736; 70864; 71248; 71360; 71472; 71904; 72016;
   72784; 73040; 73120; 92768; 92864; 93008; 120782; 120792; 120802; 120812;
   120822; 123200; 123632; 125264; 130032].

Definition decimal_value (cp : Z) : option Z :=
  match find (fun zero => (zero <=? cp) && (cp <? zero + 10)) decimal_zeros with
  | Some zero => Some (cp - zero)
  | None => None
  end.

(** What [int] makes of a character before it reads the text: an ASCII
    character stays, another space becomes a space, another decimal digit
    its ASCII digit, and anything else a character no number has. *)
Definition int_char (cp : Z) : ascii :=
  if cp <? 128 then ascii_of_nat (Z.to_nat cp)
  else if is_unicode_space cp then " "%char
  else match decimal_value cp with
       | Some d => ascii_of_nat (Z.to_nat (48 + d))
       | None => "?"%char
       end.

(** What [int] then skips around the digits: tab to carriage return and the
    space, but not the separators 28 to 31. *)
Definition is_int_space (c : ascii) : bool :=
  let n := nat_of_ascii c in
  (((9 <=? n) && (n <=? 13)) || (n =? 32))%nat.

Definition is_digit (c : ascii) : bool :=
  let n := nat_of_ascii c in ((48 <=? n) && (n <=? 57))%nat.

Definition digit_value (c : ascii) : Z := Z.of_nat (nat_of_ascii c) - 48.

Fixpoint int_lstrip (cs : list ascii) : list ascii :=
  match cs with
  | c :: rest => if is_int_space c then int_lstrip rest else cs
  | [] => []
  end.

Definition int_strip (cs : list ascii) : list ascii :=
  rev (int_lstrip (rev (int_lstrip cs))).

(** Decimal digits, a single underscore allowed between two digits. *)
Fixpoint parse_digits (cs : list ascii) (acc : Z) (after_digit : bool) : option Z :=
  match cs with
  | [] => if after_digit then Some acc else None
  | c :: rest =>
      if is_digit c then parse_digits rest (10 * acc + digit_value c) true
      else if (c =? "_")%char then
        if after_digit then parse_digits rest acc false else None
      else None
  end.

(** [sys.int_max_str_digits], at its default: [int] refuses a text with more
    digits. *)
Definition MAX_STR_DIGITS : nat := 4300.

(** [int(s)] for a string, base 10: surrounding whitespace, an optional sign,
    digits, at most [MAX_STR_DIGITS] of them. *)
Definition int_of_str (s : string) : option Z :=
  let cs := int_strip (map int_char (text_code_points s)) in
  if (MAX_STR_DIGITS <? List.length (filter is_digit cs))%nat then None
  else
    match cs with
    | c :: rest =>
        if (c =? "-")%char then option_map Z.opp (parse_digits rest 0 false)
        else if (c =? "+")%char then parse_digits rest 0 false
        else parse_digits (c :: rest) 0 false
    | [] => None
    end.

(** [int(x)] for a float: truncation towards zero. *)
Definition int_of_float (f : spec_float) : res Z :=
  match f with
  | S754_zero _ => Ok 0
  | S754_infinity _ => Err OverflowError
  | S754_nan => Err ValueError
  | S754_finite sign m e =>
      let magnitude :=
        if 0 <=? e then Z.shiftl (Z.pos m) e else Z.shiftr (Z.pos m) (- e) in
      Ok (if sign then - magnitude else magnitude)
  end.

Definition py_int (v : json) : res Z :=
  match v with
  | JInt n => Ok n
  | JBool b => Ok (if b then 1 else 0)
  | JFloat f => int_of_float f
  | JStr s => match int_of_str s with Some n => Ok n | None => Err ValueError end
  | JNull | JArr _ | JObj _ => Err TypeError
  end.

(** *** Dictionaries *)

Fixpoint dict_lookup (d : dict) (k : string) : option json :=
  match d with
  | [] => None
  | (k', v) :: rest => if (k' =? k)%string then Some v else dict_lookup rest k
  end.

(** [k in d] *)
Definition dict_has (d : dict) (k : string) : bool :=
  match dict_lookup d k with Some _ => true | None => false end.

(** [d[k] = v]: an existing key keeps its place, a new one goes last. *)
Fixpoint dict_set (d : dict) (k : string) (v : json) : dict :=
  match d with
  | [] => [(k, v)]
  | (k', v') :: rest =>
      if (k' =? k)%string then (k', v) :: rest else (k', v') :: dict_set rest k v
  end.

(** [d.pop(k, None)] *)
Fixpoint dict_pop (d : dict) (k : string) : dict :=
  match d with
  | [] => []
  | (k', v') :: rest =>
      if (k' =? k)%string then dict_pop rest k else (k', v') :: dict_pop rest k
  end.

(** [d.get(k, default)] and [d.get(k)] *)
Definition py_get_def (d : dict) (k : string) (default : json) : json :=
  match dict_lookup d k with Some v => v | None => default end.

Definition py_get (d : dict) (k : string) : json := py_get_def d k JNull.

(** [d.get(k)] where the key is any decoded value: a list or a dict is
    unhashable; a key that is no string equals no string key. *)
Definition py_get_any (d : dict) (k : json) : res json :=
  match k with
  | JStr s => Ok (py_get d s)
  | JArr _ | JObj _ => Err TypeError
  | _ => Ok JNull
  end.

(** The keys of a Python dict are pairwise distinct. *)
Fixpoint keys_distinct (d : dict) : bool :=
  match d with
  | [] => true
  | (k, _) :: rest => negb (dict_has rest k) && keys_distinct rest
  end.

(** ** Cache loading helpers (pure part) *)

(** [normalize_cache]: a nested [data] object is unwrapped; anything that is
    not an object is the empty cache. *)
Definition normalize_cache (cache_raw : json) : dict :=
  match cache_raw with
  | JObj d =>
      match py_get d "data" with
      | JObj inner => inner
      | _ => d
      end
  | _ => []
  end.

(** The record [build_cache_by_repo] stores per repository URL. *)
Definition cache_record (stars : Z) (updated_at version logo : json) : json :=
  JObj [("stars", JInt stars); ("updated_at", updated_at);
        ("version", version); ("logo", logo)].

(** The loop of [build_cache_by_repo] over [cache_data.values()]. *)
Fixpoint build_cache_by_repo_loop (values : list json) (result : dict) : res dict :=
  match values with
  | [] => Ok result
  | value :: rest =>
      match value with
      | JObj v =>
          match py_get v "repo" with
          | JStr repo_url =>
              if (repo_url =? "")%string then build_cache_by_repo_loop rest result
              else
                let? stars := py_int (py_or (py_get v "stars") (JInt 0)) in
                build_cache_by_repo_loop rest
                  (dict_set result repo_url
                     (cache_record stars
                        (py_or (py_get v "updated_at") (JStr ""))
                        (py_or (py_get v "version") (JStr ""))
                        (py_or (py_get v "logo") (JStr ""))))
          | _ => build_cache_by_repo_loop rest result
          end
      | _ => build_cache_by_repo_loop rest result
      end
  end.

Definition build_cache_by_repo (cache_data : dict) : res dict :=
  build_cache_by_repo_loop (map snd cache_data) [].

(** ** The merge: [transform_plugin_data] *)

(** [x.get(k) if isinstance(x, dict) else default] *)
Definition get_if_dict (x : json) (k : string) (default : json) : json :=
  match x with
  | JObj r => py_get r k
  | _ => default
  end.

(** Lines 371-387: the copy of the entry and its rewritten fields. *)
Definition build_new_plugin (plugin : dict) (final_stars : Z)
    (final_version final_updated final_logo : json) : dict :=
  let new_plugin := plugin in
  let new_plugin := dict_set new_plugin "desc" (py_get plugin "desc") in
  let new_plugin := dict_set new_plugin "author" (py_get plugin "author") in
  let new_plugin := dict_set new_plugin "repo" (py_get plugin "repo") in
  let new_plugin := dict_set new_plugin "tags" (py_get_def plugin "tags" (JArr [])) in
  let new_plugin := dict_set new_plugin "stars" (JInt final_stars) in
  let new_plugin := dict_set new_plugin "version" final_version in
  let new_plugin :=
    if dict_has plugin "social_link"
    then dict_set new_plugin "social_link" (py_get plugin "social_link")
    else new_plugin in
  let new_plugin :=
    if py_truthy final_updated
    then dict_set new_plugin "updated_at" final_updated
    else dict_pop new_plugin "updated_at" in
  let new_plugin :=
    if py_truthy final_logo
    then dict_set new_plugin "logo" final_logo
    else dict_pop new_plugin "logo" in
  new_plugin.

(** Line 345: the cache entry of a key, [{}] when there is none or it is no dict. *)
Definition cache_entry_of (cache : dict) (key : string) : dict :=
  match py_get_def cache key (JObj []) with
  | JObj c => c
  | _ => []
  end.

(** Lines 346-389, for the [repo_entry] and [cache_entry] of an entry: [None]
    when the iteration ends in [continue], the new entry when it reaches
    [result[key] = new_plugin]. *)
Definition merge_entry (repo_entry : json) (cache_entry plugin : dict) : res (option dict) :=
  let repo_status :=
    match repo_entry with
    | JObj r => py_get_def r "status" (JStr "")
    | _ => JStr ""
    end in
  if py_truthy repo_entry
     && (py_eq_str repo_status "deleted"
         || (negb (py_eq_str repo_status "success")
             && negb (py_truthy (JObj cache_entry))))
  then Ok None
  else
    let repo_version := py_or (get_if_dict repo_entry "version" (JStr "")) (JStr "") in
    let cache_version := py_or (py_get_def cache_entry "version" (JStr "")) (JStr "") in
    let repo_stars := get_if_dict repo_entry "stars" JNull in
    let cache_stars := py_or (py_get_def cache_entry "stars" (JInt 0)) (JInt 0) in
    let repo_updated := py_or (get_if_dict repo_entry "updated_at" (JStr "")) (JStr "") in
    let cache_updated := py_or (py_get_def cache_entry "updated_at" (JStr "")) (JStr "") in
    let repo_logo := py_or (get_if_dict repo_entry "logo" (JStr "")) (JStr "") in
    let cache_logo := py_or (py_get_def cache_entry "logo" (JStr "")) (JStr "") in
    let final_version := py_or repo_version (py_or cache_version (JStr "1.0.0")) in
    let? final_stars :=
      if py_eq_str repo_status "success" && negb (is_none repo_stars)
      then py_int repo_stars
      else py_int cache_stars in
    let final_updated := py_or repo_updated (py_or cache_updated (JStr "")) in
    let final_logo := py_or repo_logo (py_or cache_logo (JStr "")) in
    Ok (Some (build_new_plugin plugin final_stars final_version final_updated final_logo)).

(** One iteration of the loop over [original_plugins.items()] (lines 341-389). *)
Definition transform_entry (repo_info cache : dict) (key : string) (plugin : json)
  : res (option dict) :=
  match plugin with
  | JObj plugin =>
      let repo_url := py_get_def plugin "repo" (JStr "") in
      let? repo_entry := py_get_any repo_info repo_url in
      merge_entry repo_entry (cache_entry_of cache key) plugin
  | _ => Ok None
  end.

(** The loop itself, building [result]. *)
Fixpoint transform_loop (repo_info cache : dict) (items : list (string * json))
    (result : dict) : res dict :=
  match items with
  | [] => Ok result
  | (key, plugin) :: rest =>
      let? entry := transform_entry repo_info cache key plugin in
      transform_loop repo_info cache rest
        match entry with
        | Some new_plugin => dict_set result key (JObj new_plugin)
        | None => result
        end
  end.

(** ** The outside world *)

(** What [urllib.request.urlopen] does with a request. *)
Inductive raw_response : Type :=
| Resp (status : Z) (body : string)          (* a response; [body] is the decoded text *)
| HTTPError (code : Z) (body : option string) (* urllib.error.HTTPError; reading it may fail *)
| Failure.                                    (* any other exception *)

(** A file holds text that [json.load] decodes, or text it rejects. *)
Inductive file : Type :=
| FileJson (v : json)
| FileGarbage.

(** The state the script changes: the requests sent (oldest first), the
    durations slept, the number of random draws taken, and the files of the
    working directory. *)
Record World : Type := mkWorld {
  requests : list string;
  sleeps : list Q;
  draws : nat;
  files : string -> option file
}.

(** Configuration and everything the script only reads: the environment
    variables, the answers of the network (a function of the requests sent
    before), the draws of [random.random()], the library calls that are kept
    abstract ([json.loads], and the exception it raises on a text it does not
    decode; [repr] of a value that is no string; base64 decoding plus the
    [VERSION_RE] search of [extract_version]), and the order in which the
    tasks of the worker pool complete (a rank for the task of each URL). *)
Record Env : Type := mkEnv {
  MAX_RETRIES : Z;
  BASE_DELAY : Q;
  MAX_DELAY : Q;
  MAX_WORKERS : Z;
  urlopen : list string -> string -> raw_response;
  random_unit : nat -> Q;
  json_loads : string -> option json;
  loads_error : string -> exn;
  py_repr : json -> string;
  search_version : string -> option string;
  completion_rank : string -> nat
}.

(** Computations that change the world and may raise. *)
Definition M (A : Type) : Type := World -> res A * World.

Definition ret {A} (a : A) : M A := fun w => (Ok a, w).

Definition bind {A B} (m : M A) (k : A -> M B) : M B :=
  fun w =>
    match m w with
    | (Ok a, w') => k a w'
    | (Err e, w') => (Err e, w')
    end.

Definition lift {A} (r : res A) : M A := fun w => (r, w).

Declare Scope m_scope.
Delimit Scope m_scope with M.
Notation "x <- e ;; k" := (bind e (fun x => k))
  (at level 61, e at next level, right associativity) : m_scope.
Notation "' p <- e ;; k" := (bind e (fun x => match x with p => k end))
  (at level 61, p pattern, e at next level, right associativity) : m_scope.
Notation "e ;; k" := (bind e (fun _ => k))
  (at level 61, right associativity) : m_scope.
Local Open Scope m_scope.

Definition fs_write (fs : string -> option file) (path : string) (f : file)
  : string -> option file :=
  fun p => if (p =? path)%string then Some f else fs p.

(** What [json.dump(data, f, ensure_ascii=False)] can write to a file opened
    with [encoding="utf-8"]: every key and every string of [data] must be
    encodable. *)
Fixpoint json_encodable (v : json) : bool :=
  match v with
  | JStr s => str_encodable s
  | JArr items => forallb json_encodable items
  | JObj fields =>
      forallb (fun kv => match kv with
                         | (k, x) => str_encodable k && json_encodable x
                         end) fields
  | JNull | JBool _ | JInt _ | JFloat _ => true
  end.

(** The file at [path] holds the text of [data] (the two layouts of
    [save_json] hold the same value). *)
Definition write_json (path : string) (data : json) : M unit :=
  fun w => (Ok tt, mkWorld (requests w) (sleeps w) (draws w)
                           (fs_write (files w) path (FileJson data))).

(** [save_json(path, data)]: [open] empties the file and [json.dump] writes
    the text piece by piece; a string that cannot be encoded raises
    [UnicodeEncodeError] and leaves a text that is no JSON. *)
Definition save_json (path : string) (data : json) : M unit :=
  fun w =>
    if json_encodable data then write_json path data w
    else (Err UnicodeEncodeError,
          mkWorld (requests w) (sleeps w) (draws w)
                  (fs_write (files w) path FileGarbage)).

(** [load_json(path, fallback)]: any failure gives the fallback. *)
Definition load_json (path : string) (fallback : json) : M json :=
  fun w =>
    match files w path with
    | Some (FileJson v) => (Ok v, w)
    | _ => (Ok fallback, w)
    end.

(** [os.path.exists(path)] *)
Definition path_exists (path : string) : M bool :=
  fun w => (Ok (match files w path with Some _ => true | None => false end), w).

(** [time.sleep(delay)]: a negative duration raises [ValueError]. *)
Definition sleep (delay : Q) : M unit :=
  fun w =>
    if Qle_bool 0 delay
    then (Ok tt, mkWorld (requests w) (sleeps w ++ [delay])%list (draws w) (files w))
    else (Err ValueError, w).

(** ** [REPO_URL_RE] *)

Definition newline : ascii := ascii_of_nat 10.

(** What [(?:\.git)?/?$] accepts: [$] also matches before a final newline. *)
Definition url_tails : list (list ascii) :=
  let git := list_ascii_of_string ".git" in
  let slash := list_ascii_of_string "/" in
  ([ []; [newline]; slash; slash ++ [newline];
     git; git ++ [newline]; git ++ slash; git ++ slash ++ [newline] ])%list.

Definition ascii_list_eqb (a b : list ascii) : bool :=
  (string_of_list_ascii a =? string_of_list_ascii b)%string.

Definition is_url_tail (cs : list ascii) : bool :=
  existsb (ascii_list_eqb cs) url_tails.

(** [[^/]+/]: the characters before the first slash, and what follows it. *)
Fixpoint split_at_slash (cs : list ascii) : option (list ascii * list ascii) :=
  match cs with
  | [] => None
  | c :: rest =>
      if (c =? "/")%char then Some ([], rest)
      else match split_at_slash rest with
           | Some (before, after) => Some (c :: before, after)
           | None => None
           end
  end.

(** [([^/]+?)(?:\.git)?/?$]: the shortest non-empty run without a slash that
    leaves an accepted tail ([taken] is the run so far, reversed). *)
Fixpoint repo_scan (taken rest : list ascii) : option (list ascii) :=
  if match taken with [] => false | _ => is_url_tail rest end
  then Some (rev taken)
  else match rest with
       | [] => None
       | c :: rest' => if (c =? "/")%char then None else repo_scan (c :: taken) rest'
       end.

Fixpoint strip_prefix (prefix cs : list ascii) : option (list ascii) :=
  match prefix, cs with
  | [], _ => Some cs
  | p :: prefix', c :: cs' => if (p =? c)%char then strip_prefix prefix' cs' else None
  | _ :: _, [] => None
  end.

(** [REPO_URL_RE.match(repo_url)]: the groups (owner, repo), or no match. *)
Definition REPO_URL_RE_match (repo_url : string) : option (string * string) :=
  match strip_prefix (list_ascii_of_string "https://github.com/")
                     (list_ascii_of_string repo_url) with
  | None => None
  | Some rest =>
      match split_at_slash rest with
      | None => None
      | Some ([], _) => None
      | Some (owner, after) =>
          match repo_scan [] after with
          | Some repo => Some (string_of_list_ascii owner, string_of_list_ascii repo)
          | None => None
          end
      end
  end.

(** ** The enricher and the run, over a fixed environment *)

Section Pipeline.

Variable E : Env.

(** [urllib.request.urlopen]: the request is recorded, the environment answers. *)
Definition urlopen_call (url : string) : M raw_response :=
  fun w => (Ok (urlopen E (requests w) url),
            mkWorld (requests w ++ [url])%list (sleeps w) (draws w) (files w)).

(** [random.uniform(a, b)], that is [a + (b - a) * random.random()]. *)
Definition uniform (a b : Q) : M Q :=
  fun w => (Ok (a + (b - a) * random_unit E (draws w))%Q,
            mkWorld (requests w) (sleeps w) (S (draws w)) (files w)).

(** [str(v)] *)
Definition py_str (v : json) : string :=
  match v with
  | JStr s => s
  | _ => py_repr E v
  end.

(** The three [return]s of [http_get_json], by what [urlopen] did: the decoded
    payload and the status; [(None, -1)] when the request failed or the body
    of a response does not decode. *)
Definition decode_response (r : raw_response) : json * Z :=
  match r with
  | Resp status body =>
      if (body =? "")%string then (JObj [], status)
      else match json_loads E body with
           | Some v => (v, status)
           | None => (JNull, -1)
           end
  | HTTPError code (Some body) =>
      if (body =? "")%string then (JObj [], code)
      else match json_loads E body with
           | Some v => (v, code)
           | None => (JObj [], code)
           end
  | HTTPError code None => (JObj [], code)
  | Failure => (JNull, -1)
  end.

Definition http_get_json (url : string) : M (json * Z) :=
  r <- urlopen_call url ;;
  ret (decode_response r).

Definition GITHUB_URL : string :=
  "https://raw.githubusercontent.com/MrSnake0208/AstrBot_Plugins_Collection/refs/heads/main/plugins.json".

(** [not body.strip()] *)
Definition is_blank (body : string) : bool :=
  match strip (text_code_points body) with [] => true | _ => false end.

(** [data in ({}, [], None)] *)
Definition is_empty_data (data : json) : bool :=
  match data with
  | JObj [] | JArr [] | JNull => true
  | _ => false
  end.

Definition fetch_original_plugin_data : M (bool * dict) :=
  r <- urlopen_call GITHUB_URL ;;
  match r with
  | Resp status body =>
      if negb (status =? 200) then ret (false, [])
      else if is_blank body then ret (false, [])
      else if (String.length body <? 50)%nat then ret (false, [])
      else match json_loads E body with
           | None =>
               (* line 114 catches [json.JSONDecodeError] and nothing else *)
               match loads_error E body with
               | JSONDecodeError => ret (false, [])
               | e => lift (Err e)
               end
           | Some data =>
               if is_empty_data data then ret (false, [])
               else match data with
                    | JObj d => save_json "original_plugins.json" data ;; ret (true, d)
                    | _ => ret (false, [])
                    end
           end
  | HTTPError _ _ | Failure => ret (false, [])
  end.

Definition load_existing_cache : M (bool * json) :=
  present <- path_exists "plugin_cache_original.json" ;;
  if present : bool then
    cache <- load_json "plugin_cache_original.json" (JObj []) ;;
    save_json "existing_cache.json" cache ;;
    ret (true, cache)
  else ret (false, JObj []).

(** *** [fetch_repo] *)

(** Line 169: [min(BASE_DELAY * (2 ** (attempt - 2)), MAX_DELAY)].  The power
    is an [int]; to multiply it with the float [BASE_DELAY] Python converts it
    to a float, and that conversion raises [OverflowError] from [2 ** 1024]
    on, that is from attempt 1026 on. *)
Definition backoff_delay (attempt : Z) : res Q :=
  let power := 2 ^ (attempt - 2) in
  if 2 ^ 1024 <=? power then Err OverflowError
  else Ok (Qmin (BASE_DELAY E * inject_Z power) (MAX_DELAY E)).

(** Lines 169-172: the delay, its jitter, the sleep. *)
Definition backoff_sleep (attempt : Z) : M unit :=
  delay <- lift (backoff_delay attempt) ;;
  jitter <- uniform 0 (delay * (1 # 2)) ;;
  sleep (delay + jitter)%Q.

(** Lines 168-172: nothing before the first attempt, the backoff before the others. *)
Definition pause (attempt : Z) : M unit :=
  if 1 <? attempt then backoff_sleep attempt else ret tt.

(** [payload if isinstance(payload, dict) else {}] *)
Definition dict_or_empty (payload : json) : json :=
  if is_dict payload then payload else JObj [].

(** ["stargazers_count" in payload], for a payload that is a dict. *)
Definition has_key (payload : json) (k : string) : bool :=
  match payload with
  | JObj d => dict_has d k
  | _ => false
  end.

(** The loop over [range(1, MAX_RETRIES + 1)]: [remaining] attempts are left,
    the next one is number [attempt]. *)
Fixpoint fetch_repo_loop (url : string) (remaining : nat) (attempt : Z)
  : M (json * string) :=
  match remaining with
  | O => ret (JNull, "network_error")
  | S remaining' =>
      pause attempt ;;
      ' (payload, status) <- http_get_json url ;;
      if is_none payload && (status =? -1) then
        fetch_repo_loop url remaining' (attempt + 1)
      else if (status =? 200) && is_dict payload && has_key payload "stargazers_count" then
        ret (payload, "success")
      else if (status =? 301) || (status =? 302) then
        ret (dict_or_empty payload, "redirected")
      else if status =? 404 then
        ret (dict_or_empty payload, "deleted")
      else if status =? 403 then
        ret (dict_or_empty payload, "api_limit")
      else if (status =? 429) || (status =? 502) || (status =? 503) || (status =? 504) then
        fetch_repo_loop url remaining' (attempt + 1)
      else
        fetch_repo_loop url remaining' (attempt + 1)
  end.

Definition repo_api_url (owner repo : string) : string :=
  "https://api.github.com/repos/" ++ owner ++ "/" ++ repo.

Definition fetch_repo (owner repo : string) : M (json * string) :=
  fetch_repo_loop (repo_api_url owner repo) (Z.to_nat (MAX_RETRIES E)) 1.

(** *** [extract_version] and [extract_logo] *)

Fixpoint extract_version_loop (owner repo : string) (metadata_files : list string)
  : M string :=
  match metadata_files with
  | [] => ret ""
  | metadata_file :: rest =>
      ' (payload, status) <-
        http_get_json (repo_api_url owner repo ++ "/contents/" ++ metadata_file) ;;
      if negb (status =? 200) || negb (is_dict payload) then
        extract_version_loop owner repo rest
      else
        match get_if_dict payload "content" JNull with
        | JStr content =>
            if (content =? "")%string then extract_version_loop owner repo rest
            else match search_version E content with
                 | Some version => ret version
                 | None => extract_version_loop owner repo rest
                 end
        | _ => extract_version_loop owner repo rest
        end
  end.

Definition extract_version (owner repo : string) : M string :=
  extract_version_loop owner repo ["metadata.yml"; "metadata.yaml"].

Definition extract_logo (owner repo : string) (default_branch : json) : M string :=
  ' (payload, status) <- http_get_json (repo_api_url owner repo ++ "/contents/logo.png") ;;
  if (status =? 200) && is_dict payload
     && py_eq_str (get_if_dict payload "name" JNull) "logo.png"
  then ret ("https://raw.githubusercontent.com/" ++ owner ++ "/" ++ repo ++ "/"
            ++ py_str default_branch ++ "/logo.png")
  else ret "".

(** *** [process_repo] *)

(** The dict both [return]s of [process_repo] build. *)
Definition repo_info_record (stars updated_at version logo status : json) : json :=
  JObj [("stars", stars); ("updated_at", updated_at); ("version", version);
        ("logo", logo); ("status", status)].

(** [x.get(k, default)] on any value: only a dict has [get]. *)
Definition attr_get (x : json) (k : string) (default : json) : res json :=
  match x with
  | JObj d => Ok (py_get_def d k default)
  | _ => Err AttributeError
  end.

Definition process_repo (repo_url : string) (cache_by_repo : dict)
    (has_existing_cache : bool) : M (string * json) :=
  match REPO_URL_RE_match repo_url with
  | None =>
      ret (repo_url,
           repo_info_record (JInt 0) (JStr "") (JStr "") (JStr "") (JStr "invalid_repo_url"))
  | Some (owner, repo) =>
      ' (repo_payload, status) <- fetch_repo owner repo ;;
      if (status =? "success")%string && is_dict repo_payload then
        stars <- lift (py_int (py_or (get_if_dict repo_payload "stargazers_count" JNull)
                                     (JInt 0))) ;;
        let updated_at := py_or (get_if_dict repo_payload "updated_at" JNull) (JStr "") in
        let default_branch :=
          py_or (get_if_dict repo_payload "default_branch" JNull) (JStr "main") in
        version <- extract_version owner repo ;;
        logo <- extract_logo owner repo default_branch ;;
        ret (repo_url,
             repo_info_record (JInt stars) updated_at (JStr version) (JStr logo) (JStr status))
      else
        let unchanged :=
          ret (repo_url,
               repo_info_record (JInt 0) (JStr "") (JStr "") (JStr "") (JStr status)) in
        if has_existing_cache then
          let cached := py_get cache_by_repo repo_url in
          if py_truthy cached then
            cached_stars <- lift (attr_get cached "stars" (JInt 0)) ;;
            cached_updated <- lift (attr_get cached "updated_at" (JStr "")) ;;
            if negb (py_eq_zero cached_stars) || negb (py_eq_str cached_updated "") then
              stars <- lift (py_int cached_stars) ;;
              cached_version <- lift (attr_get cached "version" (JStr "")) ;;
              cached_logo <- lift (attr_get cached "logo" (JStr "")) ;;
              ret (repo_url,
                   repo_info_record (JInt stars) (JStr (py_str cached_updated))
                     (JStr (py_str cached_version)) (JStr (py_str cached_logo))
                     (JStr "cached"))
            else unchanged
          else unchanged
        else unchanged
  end.

(** *** [get_repo_info] *)

(** The distinct repository URLs, in first-seen order. *)
Fixpoint collect_repo_urls (plugins : list json) (repo_urls : list string) : list string :=
  match plugins with
  | [] => repo_urls
  | plugin :: rest =>
      match get_if_dict plugin "repo" JNull with
      | JStr repo_url =>
          if negb (repo_url =? "")%string
             && negb (existsb (String.eqb repo_url) repo_urls)
          then collect_repo_urls rest (repo_urls ++ [repo_url])%list
          else collect_repo_urls rest repo_urls
      | _ => collect_repo_urls rest repo_urls
      end
  end.

(** A future: the URL its task was submitted for, and what the task returned
    or raised. *)
Definition future : Type := (string * res (string * json))%type.

(** [executor.submit(task)]: the task runs, and what it returns or raises is
    kept for [future.result()]. *)
Definition submit {A} (task : M A) : M (res A) :=
  fun w => let (r, w') := task w in (Ok r, w').

(** Line 311 and the tasks it submits.  Every task runs, also after one of
    them has raised: leaving the [with] block waits for all of them.  The
    tasks share read-only data only; of the ways the pool can interleave
    their requests, the one where they run one after the other in submission
    order is taken. *)
Fixpoint run_tasks (repo_urls : list string) (cache_by_repo : dict)
    (has_existing_cache : bool) : M (list future) :=
  match repo_urls with
  | [] => ret []
  | url :: rest =>
      outcome <- submit (process_repo url cache_by_repo has_existing_cache) ;;
      futures <- run_tasks rest cache_by_repo has_existing_cache ;;
      ret ((url, outcome) :: futures)
  end.

(** [as_completed(futures)]: the futures in the order in which their tasks
    complete (by rank; tasks of the same rank in submission order). *)
Fixpoint insert_completed (f : future) (completed : list future) : list future :=
  match completed with
  | [] => [f]
  | g :: rest =>
      if (completion_rank E (fst f) <=? completion_rank E (fst g))%nat
      then f :: completed
      else g :: insert_completed f rest
  end.

Definition as_completed (futures : list future) : list future :=
  fold_right insert_completed [] futures.

(** Lines 312-316: [future.result()] returns what the task returned, or raises
    what it raised; the counters only feed the console output. *)
Fixpoint collect_results (futures : list future) (repo_info : dict) : res dict :=
  match futures with
  | [] => Ok repo_info
  | (_, Ok (repo_url, info)) :: rest =>
      collect_results rest (dict_set repo_info repo_url info)
  | (_, Err e) :: _ => Err e
  end.

(** Line 310: [ThreadPoolExecutor(max_workers=worker_count)] raises
    [ValueError] unless [worker_count], the smaller of [MAX_WORKERS] and
    [max(1, len(repo_urls))], is positive. *)
Definition ThreadPoolExecutor (repo_urls : list string) : res unit :=
  let worker_count := Z.min (MAX_WORKERS E) (Z.max 1 (Z.of_nat (List.length repo_urls))) in
  if worker_count <=? 0 then Err ValueError else Ok tt.

Definition get_repo_info (original_plugins : dict) (existing_cache : json)
    (has_existing_cache : bool) : M dict :=
  let repo_urls := collect_repo_urls (map snd original_plugins) [] in
  cache_by_repo <- lift (build_cache_by_repo (normalize_cache existing_cache)) ;;
  lift (ThreadPoolExecutor repo_urls) ;;
  futures <- run_tasks repo_urls cache_by_repo has_existing_cache ;;
  repo_info <- lift (collect_results (as_completed futures) []) ;;
  save_json "repo_info.json" (JObj repo_info) ;;
  ret repo_info.

(** *** [transform_plugin_data] and the update block of [main] *)

(** Lines 403-411: the summary counts call [v.get("status")] on every value
    of [repo_info]; only the exception they can raise is kept. *)
Definition summary_counts (repo_info : dict) : res unit :=
  if forallb (fun kv => is_dict (snd kv)) repo_info then Ok tt else Err AttributeError.

(** Lines 396-397 write the result twice.  Its keys and strings are those of
    the catalog, of the RepoInfo records and of the cache, which [main] has
    already written with the same encoder (lines 124, 326 and 133), and the
    literals of the merge: see [transform_loop_encodable].  The writes are
    taken not to fail. *)
Definition transform_plugin_data (original_plugins repo_info : dict)
    (existing_cache_raw : json) : M dict :=
  let cache := normalize_cache existing_cache_raw in
  result <- lift (transform_loop repo_info cache original_plugins []) ;;
  write_json "temp_plugin_cache_original.json" (JObj result) ;;
  write_json "plugin_cache_original.json" (JObj result) ;;
  lift (summary_counts repo_info) ;;
  ret result.

(** Lines 568-575 of [main]: the fetch, and behind [if should_update] the
    cache load, the enrichment and the merge.  The git steps around them are
    external and not part of the model. *)
Definition main_update : M bool :=
  ' (should_update, original_plugins) <- fetch_original_plugin_data ;;
  if should_update : bool then
    ' (has_existing_cache, existing_cache) <- load_existing_cache ;;
    repo_info <- get_repo_info original_plugins existing_cache has_existing_cache ;;
    transform_plugin_data original_plugins repo_info existing_cache ;;
    ret true
  else ret false.

End Pipeline.

(** ** The data model of the specification, as predicates on decoded JSON *)

(** A RepoInfo record: an object with an integer [stars] and a string
    [status] (what both [return]s of [process_repo] build). *)
Definition is_repo_info (v : json) : bool :=
  match v with
  | JObj r =>
      match dict_lookup r "stars", dict_lookup r "status" with
      | Some (JInt _), Some (JStr _) => true
      | _, _ => false
      end
  | _ => false
  end.

Definition repo_info_ok (repo_info : dict) : bool :=
  forallb (fun kv => is_repo_info (snd kv)) repo_info.

(** A future of [process_repo]: a task that returned has returned the URL it
    was given, with a RepoInfo record. *)
Definition future_ok (f : future) : Prop :=
  match snd f with
  | Ok (repo_url, info) => repo_url = fst f /\ is_repo_info info = true
  | Err _ => True
  end.

(** A cache value: anything, but the [stars] of an object, when present, is
    an integer (or null), as a CacheEntry has it. *)
Definition stars_field_ok (c : dict) : bool :=
  match dict_lookup c "stars" with
  | None | Some JNull | Some (JInt _) => true
  | Some _ => false
  end.

Definition is_cache_value (v : json) : bool :=
  match v with
  | JObj c => stars_field_ok c
  | _ => true
  end.

Definition cache_ok (cache : dict) : bool :=
  forallb (fun kv => is_cache_value (snd kv)) cache.

(** An entry as the merge persists it: an object with an integer [stars]. *)
Definition is_persisted_entry (v : json) : bool :=
  match v with
  | JObj c => match dict_lookup c "stars" with Some (JInt _) => true | _ => false end
  | _ => false
  end.

(** The cache holds a usable entry for a key: an object with at least one field. *)
Definition has_cache_entry (cache : dict) (key : string) : bool :=
  match dict_lookup cache key with
  | Some (JObj (_ :: _)) => true
  | _ => false
  end.

(** A catalog value: anything, but the [repo] of an object is no list and no
    object (a PluginDescriptor has a string there). *)
Definition is_catalog_value (v : json) : bool :=
  match v with
  | JObj p =>
      match py_get_def p "repo" (JStr "") with
      | JArr _ | JObj _ => false
      | _ => true
      end
  | _ => true
  end.

Definition catalog_ok (original_plugins : dict) : bool :=
  forallb (fun kv => is_catalog_value (snd kv)) original_plugins.

(** "Resolve its RepoInfo by its repository URL (absent if the URL had no match)". *)
Definition repo_info_for (repo_info plugin : dict) : option json :=
  match py_get_def plugin "repo" (JStr "") with
  | JStr url => dict_lookup repo_info url
  | _ => None
  end.

(** The status of a RepoInfo record. *)
Definition status_of (info : json) : string :=
  match get_if_dict info "status" JNull with
  | JStr s => s
  | _ => ""
  end.

(** A field of the RepoInfo resolved for an entry, and of the CacheEntry
    resolved by plugin key; null when there is no such record or field. *)
Definition info_field (info : option json) (k : string) : json :=
  match info with
  | Some v => get_if_dict v k JNull
  | None => JNull
  end.

Definition cache_field (cache : dict) (key k : string) : json :=
  match dict_lookup cache key with
  | Some v => get_if_dict v k JNull
  | None => JNull
  end.

(** "X (if non-empty) else Y (if non-empty) else nothing". *)
Definition first_nonempty (fresh cached : json) : option json :=
  if py_truthy fresh then Some fresh
  else if py_truthy cached then Some cached
  else None.

(** An integer field, 0 when it is missing or null. *)
Definition int_or_zero (v : json) : Z :=
  match v with
  | JInt n => n
  | _ => 0
  end.

(** *** The merge policy in the words of the specification (section 4.4) *)

(** "Drop the entry when: RepoInfo exists AND (its status is deleted OR (its
    status is not success AND no CacheEntry exists))", a CacheEntry being a
    usable one. *)
Definition spec_dropped (info : option json) (cache : dict) (key : string) : bool :=
  match info with
  | Some i =>
      (status_of i =? "deleted")%string
      || (negb (status_of i =? "success")%string && negb (has_cache_entry cache key))
  | None => false
  end.

(** "version = RepoInfo.version (if non-empty) else CacheEntry.version (if
    non-empty) else literal 1.0.0". *)
Definition spec_version (info : option json) (cache : dict) (key : string) : json :=
  match first_nonempty (info_field info "version") (cache_field cache key "version") with
  | Some v => v
  | None => JStr "1.0.0"
  end.

(** "stars = RepoInfo.stars if RepoInfo.status == success, else
    CacheEntry.stars (default 0)". *)
Definition spec_stars (info : option json) (cache : dict) (key : string) : Z :=
  match info with
  | Some i =>
      if (status_of i =? "success")%string
      then int_or_zero (get_if_dict i "stars" JNull)
      else int_or_zero (cache_field cache key "stars")
  | None => int_or_zero (cache_field cache key "stars")
  end.

(** "updated_at / logo = RepoInfo's (if non-empty) else CacheEntry's (if
    non-empty) else omitted from the entry". *)
Definition spec_optional (info : option json) (cache : dict) (key k : string)
  : option json :=
  first_nonempty (info_field info k) (cache_field cache key k).

(** The world after [transform_plugin_data]: the two files hold the result. *)
Definition after_transform (result : dict) (w : World) : World :=
  mkWorld (requests w) (sleeps w) (draws w)
    (fs_write (fs_write (files w) "temp_plugin_cache_original.json" (FileJson (JObj result)))
       "plugin_cache_original.json" (FileJson (JObj result))).

(** The eight keys the merge writes (and [social_link], which it copies). *)
Definition written_keys : list string :=
  ["desc"; "author"; "repo"; "tags"; "stars"; "version"; "updated_at"; "logo"].

(** ** The conditions of the catalog fetch in the words of the specification *)

(** "The HTTP status is 200, the response body is non-empty, the body's byte
    length is at least 50, the body parses as structured data, and the parsed
    value is a non-empty object": the answer to the catalog request meets
    these conditions, with [catalog] as the parsed value. *)
Definition catalog_accepted (E : Env) (answer : raw_response) (catalog : dict) : Prop :=
  exists body,
    answer = Resp 200 body /\
    is_blank body = false /\
    (50 <= String.length body)%nat /\
    json_loads E body = Some (JObj catalog) /\
    catalog <> [].

(** ** The retry loop in the words of the specification (section 4.3, step 2) *)

(** What one attempt leads to: a terminal status, or another attempt. *)
Inductive attempt_outcome : Type :=
| Stop (status : string)
| Retry.

(** "HTTP 200 with a field proving it is a repository object => success;
    301/302 => redirected; 404 => deleted; 403 => api_limit; 429/502/503/504
    => transient, retry; any other status, or transport failure => retry". *)
Definition spec_outcome (r : json * Z) : attempt_outcome :=
  let (payload, status) := r in
  if (status =? 200) && has_key payload "stargazers_count" then Stop "success"
  else if (status =? 301) || (status =? 302) then Stop "redirected"
  else if status =? 404 then Stop "deleted"
  else if status =? 403 then Stop "api_limit"
  else if (status =? 429) || (status =? 502) || (status =? 503) || (status =? 504) then Retry
  else Retry.

(** "... retry until attempts exhausted, then network_error": the final status
    and the number of requests made, when [made] requests were made so far
    and [remaining] attempts are left. *)
Fixpoint spec_fetch (outcomes : nat -> attempt_outcome) (remaining made : nat)
  : string * nat :=
  match remaining with
  | O => ("network_error", made)
  | S remaining' =>
      match outcomes made with
      | Stop status => (status, S made)
      | Retry => spec_fetch outcomes remaining' (S made)
      end
  end.

(** The world after a request. *)
Definition with_request (url : string) (w : World) : World :=
  mkWorld (requests w ++ [url])%list (sleeps w) (draws w) (files w).

(** What the [k]-th request in a row to [url] is answered, from world [w] on. *)
Definition attempt_result (E : Env) (w : World) (url : string) (k : nat) : json * Z :=
  decode_response E (urlopen E (requests w ++ repeat url k)%list url).

(** The delays make sense: the configured ones are not negative, and
    [random.random()] draws from the unit interval. *)
Definition delays_ok (E : Env) : Prop :=
  (0 <= BASE_DELAY E)%Q /\ (0 <= MAX_DELAY E)%Q /\
  forall n, (0 <= random_unit E n <= 1)%Q.

(** "The backoff delay before attempt [a] is min(baseDelay * 2^(a-2),
    maxDelay)": the delay in the words of the specification. *)
Definition spec_delay (E : Env) (a : Z) : Q :=
  Qmin (BASE_DELAY E * inject_Z (2 ^ (a - 2))) (MAX_DELAY E).

(** "... plus up to 50% random jitter": the durations [slept] are those of
    the pauses before attempts [a], [a + 1], ..., one after the other. *)
Fixpoint on_schedule (E : Env) (a : Z) (slept : list Q) : Prop :=
  match slept with
  | [] => True
  | d :: rest =>
      (spec_delay E a <= d <= spec_delay E a * (3 # 2))%Q /\ on_schedule E (a + 1) rest
  end.

(** The last attempt whose pause can be computed. *)
Definition LAST_ATTEMPT : Z := 1025.

(** The statuses [fetch_repo] can return, and the ones a RepoInfo can carry. *)
Definition fetch_statuses : list string :=
  ["success"; "redirected"; "deleted"; "api_limit"; "network_error"].

Definition repo_info_statuses : list string :=
  ["success"; "cached"; "redirected"; "deleted"; "api_limit"; "network_error";
   "invalid_repo_url"].

(** ** Sample data *)

Definition empty_world : World := mkWorld [] [] 0 (fun _ => None).

Definition sample_info (stars : Z) (updated_at version logo status : string) : json :=
  JObj [("stars", JInt stars); ("updated_at", JStr updated_at);
        ("version", JStr version); ("logo", JStr logo); ("status", JStr status)].

Definition sample_p1 : dict :=
  [("desc", JStr "first"); ("author", JStr "ann"); ("repo", JStr "https://github.com/acme/foo");
   ("tags", JArr [JStr "tool"]); ("homepage", JStr "https://acme.example")].

Definition sample_p2 : dict := [("repo", JStr "https://github.com/acme/gone")].

Definition sample_p3 : dict :=
  [("repo", JStr "https://github.com/acme/flaky"); ("social_link", JStr "https://social.example/acme");
   ("logo", JStr "stale.png")].

Definition sample_p5 : dict := [("repo", JStr "https://github.com/acme/limited")].

Definition sample_catalog : dict :=
  [("p1", JObj sample_p1); ("p2", JObj sample_p2); ("p3", JObj sample_p3); ("p4", JInt 7);
   ("p5", JObj sample_p5)].

Definition sample_repo_info : dict :=
  [("https://github.com/acme/foo", sample_info 42 "2024-01-01T00:00:00Z" "2.0.0" "" "success");
   ("https://github.com/acme/gone", sample_info 0 "" "" "" "deleted");
   ("https://github.com/acme/flaky", sample_info 0 "" "" "" "network_error");
   ("https://github.com/acme/limited", sample_info 0 "" "" "" "api_limit")].

Definition sample_cache : json :=
  JObj [("p2", JObj [("stars", JInt 3)]);
        ("p3", JObj [("stars", JInt 10); ("updated_at", JStr "2023-05-05T00:00:00Z");
                     ("version", JStr "1.2.0")])].

(** ** A sample environment *)

(** The double quote of JSON text. *)
Definition dq : string := String (ascii_of_nat 34) "".

Definition sample_repo_body : string :=
  "{" ++ dq ++ "stargazers_count" ++ dq ++ ": 42, "
      ++ dq ++ "updated_at" ++ dq ++ ": " ++ dq ++ "2024-01-01T00:00:00Z" ++ dq ++ "}".

Definition sample_repo_payload : json :=
  JObj [("stargazers_count", JInt 42); ("updated_at", JStr "2024-01-01T00:00:00Z")].

Definition sample_catalog_body : string :=
  "{" ++ dq ++ "astrbot_plugin_foo" ++ dq ++ ": {" ++ dq ++ "repo" ++ dq ++ ": "
      ++ dq ++ "https://github.com/acme/foo" ++ dq ++ "}}".

Definition sample_fetched_catalog : dict :=
  [("astrbot_plugin_foo", JObj [("repo", JStr "https://github.com/acme/foo")])].

(** [json.loads] on the two bodies the sample network serves; every other
    text is taken as undecodable. *)
Definition sample_loads (body : string) : option json :=
  if (body =? sample_repo_body)%string then Some sample_repo_payload
  else if (body =? sample_catalog_body)%string then Some (JObj sample_fetched_catalog)
  else None.

(** The sample network: the catalog is served; [acme/foo] fails once, then
    answers; [acme/flaky] always answers 503; everything else is a 404. *)
Definition sample_urlopen (history : list string) (url : string) : raw_response :=
  if (url =? GITHUB_URL)%string then Resp 200 sample_catalog_body
  else if (url =? "https://api.github.com/repos/acme/foo")%string then
    if (count_occ string_dec history url =? 0)%nat then Failure
    else Resp 200 sample_repo_body
  else if (url =? "https://api.github.com/repos/acme/flaky")%string then
    HTTPError 503 None
  else HTTPError 404 (Some "").

Definition sample_env : Env :=
  mkEnv 5 2 30 12 sample_urlopen (fun _ => 1 # 2) sample_loads (fun _ => JSONDecodeError)
    (fun _ => "") (fun _ => None) (fun _ => 0%nat).

(** A network on which every request fails, and a configuration that allows
    1026 attempts. *)
Definition patient_env : Env :=
  mkEnv 1026 2 30 12 (fun _ _ => Failure) (fun _ => 1 # 2) (fun _ => None)
    (fun _ => JSONDecodeError) (fun _ => "") (fun _ => None) (fun _ => 0%nat).

(** A catalog body that is one integer of 4301 digits: [json.loads] refuses it
    with the [ValueError] of [int], which is no [JSONDecodeError]. *)
Definition long_integer_body : string := string_of_list_ascii (repeat "1"%char 4301).

Definition long_integer_env : Env :=
  mkEnv 5 2 30 12 (fun _ _ => Resp 200 long_integer_body) (fun _ => 1 # 2) (fun _ => None)
    (fun body => if (body =? long_integer_body)%string then ValueError else JSONDecodeError)
    (fun _ => "") (fun _ => None) (fun _ => 0%nat).

(** A lone surrogate, and a catalog of one plugin whose description is one:
    the JSON text spells it with an escape. *)
Definition lone_surrogate : string :=
  String (ascii_of_nat 237) (String (ascii_of_nat 160) (String (ascii_of_nat 128) "")).

Definition surrogate_catalog : dict :=
  [("astrbot_plugin_foo",
    JObj [("repo", JStr "https://github.com/acme/foo"); ("desc", JStr lone_surrogate)])].

Definition surrogate_catalog_body : string :=
  "{" ++ dq ++ "astrbot_plugin_foo" ++ dq ++ ": {" ++ dq ++ "repo" ++ dq ++ ": "
      ++ dq ++ "https://github.com/acme/foo" ++ dq ++ ", " ++ dq ++ "desc" ++ dq ++ ": "
      ++ dq ++ "\ud800" ++ dq ++ "}}".

Definition surrogate_env : Env :=
  mkEnv 5 2 30 12 (fun _ _ => Resp 200 surrogate_catalog_body) (fun _ => 1 # 2)
    (fun body => if (body =? surrogate_catalog_body)%string
                 then Some (JObj surrogate_catalog) else None)
    (fun _ => JSONDecodeError) (fun _ => "") (fun _ => None) (fun _ => 0%nat).

(** The sample network with a pool in which the task of [acme/foo] completes
    after the others. *)
Definition late_foo_env : Env :=
  mkEnv 5 2 30 12 sample_urlopen (fun _ => 1 # 2) sample_loads (fun _ => JSONDecodeError)
    (fun _ => "") (fun _ => None)
    (fun url => if (url =? "https://github.com/acme/foo")%string then 1%nat else 0%nat).

(** A persisted catalog as a previous run leaves it, and its index by repository. *)
Definition sample_cache_file : json :=
  JObj [("p3", JObj [("repo", JStr "https://github.com/acme/flaky"); ("stars", JInt 10);
                     ("version", JStr "1.2.0");
                     ("updated_at", JStr "2023-05-05T00:00:00Z")]);
        ("p9", JStr "not an entry")].

Definition sample_cache_by_repo : dict :=
  [("https://github.com/acme/flaky",
    cache_record 10 (JStr "2023-05-05T00:00:00Z") (JStr "1.2.0") (JStr ""))].

(** ** Malformed inputs *)

(** A cache whose one entry has a repository URL and a [stars] that is text. *)
Definition text_stars_cache : json :=
  JObj [("p1", JObj [("repo", JStr "https://github.com/acme/foo"); ("stars", JStr "abc")])].

(** A one-plugin catalog whose repository could not be fetched, and a cache
    that holds the empty object under the plugin key. *)
Definition flaky_catalog : dict :=
  [("p1", JObj [("repo", JStr "https://github.com/acme/flaky")])].

Definition flaky_repo_info : dict :=
  [("https://github.com/acme/flaky", sample_info 0 "" "" "" "network_error")].

Definition empty_entry_cache : json := JObj [("p1", JObj [])].

(** A catalog entry whose [repo] is a list. *)
Definition list_repo_catalog : dict :=
  [("p1", JObj [("repo", JArr [JStr "https://github.com/acme/foo"])])].

(** The sample world: nothing sent yet, the persisted catalog on disk. *)
Definition sample_world : World :=
  mkWorld [] [] 0
    (fs_write (fun _ => None) "plugin_cache_original.json" (FileJson sample_cache_file)).

(** ** The shape of what the merge writes *)

(** The six keys the merge sets in every entry it keeps. *)
Definition merged_keys : list string :=
  ["desc"; "author"; "repo"; "tags"; "stars"; "version"].

(** A field that is missing, or present with a value that is not empty. *)
Definition absent_or_nonempty (c : dict) (k : string) : bool :=
  match dict_lookup c k with
  | Some v => py_truthy v
  | None => true
  end.

(** An entry as lines 371-387 leave it. *)
Definition is_merged_entry (v : json) : bool :=
  match v with
  | JObj c =>
      forallb (dict_has c) merged_keys
      && is_persisted_entry v
      && py_truthy (py_get c "version")
      && absent_or_nonempty c "updated_at"
      && absent_or_nonempty c "logo"
  | _ => false
  end.

(** The iteration for an item reaches [result[key] = new_plugin]. *)
Definition entry_kept (repo_info cache : dict) (item : string * json) : bool :=
  match transform_entry repo_info cache (fst item) (snd item) with
  | Ok (Some _) => true
  | _ => false
  end.

(** What the sample merge leaves. *)
Definition sample_merged : dict :=
  [("p1", JObj [("desc", JStr "first"); ("author", JStr "ann");
                ("repo", JStr "https://github.com/acme/foo");
                ("tags", JArr [JStr "tool"]); ("homepage", JStr "https://acme.example");
                ("stars", JInt 42); ("version", JStr "2.0.0");
                ("updated_at", JStr "2024-01-01T00:00:00Z")]);
   ("p3", JObj [("repo", JStr "https://github.com/acme/flaky");
                ("social_link", JStr "https://social.example/acme");
                ("desc", JNull); ("author", JNull); ("tags", JArr []);
                ("stars", JInt 10); ("version", JStr "1.2.0");
                ("updated_at", JStr "2023-05-05T00:00:00Z")])].

(** ** [clean_up] *)

Definition fs_remove (fs : string -> option file) (path : string)
  : string -> option file :=
  fun p => if (p =? path)%string then None else fs p.

(** [os.remove(path)] on an existing file. *)
Definition os_remove (path : string) : M unit :=
  fun w => (Ok tt, mkWorld (requests w) (sleeps w) (draws w) (fs_remove (files w) path)).

(** The first loop of [clean_up]: [if os.path.exists(path): os.remove(path)]. *)
Fixpoint remove_existing (paths : list string) : M unit :=
  match paths with
  | [] => ret tt
  | path :: rest =>
      present <- path_exists path ;;
      (if present : bool then os_remove path else ret tt) ;;
      remove_existing rest
  end.

(** The names [glob.glob("temp_api_headers_*.txt")] lists: the entries of the
    working directory (so no slash) that start with [temp_api_headers_] and,
    after it, end with [.txt]. *)
Definition ends_with (suffix cs : list ascii) : bool :=
  match strip_prefix (rev suffix) (rev cs) with Some _ => true | None => false end.

Definition glob_temp_api_headers (name : string) : bool :=
  match strip_prefix (list_ascii_of_string "temp_api_headers_") (list_ascii_of_string name) with
  | Some rest =>
      ends_with (list_ascii_of_string ".txt") rest
      && negb (existsb (Ascii.eqb "/") rest)
  | None => false
  end.

(** The second loop of [clean_up], over the names the glob lists. *)
Definition remove_globbed (listed : string -> bool) : M unit :=
  fun w => (Ok tt, mkWorld (requests w) (sleeps w) (draws w)
                           (fun p => if listed p then None else files w p)).

Definition temp_files : list string :=
  ["temp_plugin_cache_original.json"; "temp_response.txt"; "temp_headers.txt";
   "original_plugins.json"; "repo_info.json"; "temp_repo_info.json";
   "existing_cache.json"].

Definition clean_up : M unit :=
  remove_existing temp_files ;;
  remove_globbed glob_temp_api_headers.

(** What [clean_up] removes. *)
Definition is_temp_file (path : string) : bool :=
  existsb (String.eqb path) temp_files || glob_temp_api_headers path.

(** ** Relations between the world before and the world after *)

(** The files of [w'] are those of [w], except perhaps under [paths]. *)
Definition files_agree_except (paths : list string) (w w' : World) : Prop :=
  forall p, ~ In p paths -> files w' p = files w p.

(** A request to the GitHub REST API, under [/repos/]. *)
Definition to_repos_api (url : string) : bool :=
  match strip_prefix (list_ascii_of_string "https://api.github.com/repos/")
                     (list_ascii_of_string url) with
  | Some _ => true
  | None => false
  end.

(** Every run of a computation, returning or raising, relates the world
    before to the world after. *)
Definition respects {A} (R : World -> World -> Prop) (m : M A) : Prop :=
  forall w r w', m w = (r, w') -> R w w'.

(** The files the update block of [main] writes. *)
Definition update_files : list string :=
  ["original_plugins.json"; "existing_cache.json"; "repo_info.json";
   "temp_plugin_cache_original.json"; "plugin_cache_original.json"].

(** A world whose persisted catalog has an entry with a text [stars]. *)
Definition text_stars_world : World :=
  mkWorld [] [] 0
    (fs_write (fun _ => None) "plugin_cache_original.json" (FileJson text_stars_cache)).

(** ** The cache index, looked at from the cache *)

(** The value is an object whose [repo] is the string [url]. *)
Definition has_repo (url : string) (value : json) : bool :=
  py_eq_str (get_if_dict value "repo" JNull) url.

(** The last of the values that has the repository [url]. *)
Definition latest_with_repo (values : list json) (url : string) : option json :=
  find (has_repo url) (rev values).

(** ** The fallback of [process_repo] on its own *)

(** Lines 255-264 of [process_repo], for the status the fetch returned: the
    cached record when there is a usable one, the blank record otherwise. *)
Definition cached_or_blank (E : Env) (repo_url status : string) (cache_by_repo : dict)
    (has_existing_cache : bool) : M (string * json) :=
  let unchanged :=
    ret (repo_url,
         repo_info_record (JInt 0) (JStr "") (JStr "") (JStr "") (JStr status)) in
  if has_existing_cache then
    let cached := py_get cache_by_repo repo_url in
    if py_truthy cached then
      cached_stars <- lift (attr_get cached "stars" (JInt 0)) ;;
      cached_updated <- lift (attr_get cached "updated_at" (JStr "")) ;;
      if negb (py_eq_zero cached_stars) || negb (py_eq_str cached_updated "") then
        stars <- lift (py_int cached_stars) ;;
        cached_version <- lift (attr_get cached "version" (JStr "")) ;;
        cached_logo <- lift (attr_get cached "logo" (JStr "")) ;;
        ret (repo_url,
             repo_info_record (JInt stars) (JStr (py_str E cached_updated))
               (JStr (py_str E cached_version)) (JStr (py_str E cached_logo))
               (JStr "cached"))
      else unchanged
    else unchanged
  else unchanged.

(** A network whose every answer is a repository object with a text
    [stargazers_count]. *)
Definition text_count_env : Env :=
  mkEnv 5 2 30 12 (fun _ _ => Resp 200 "{}") (fun _ => 1 # 2)
    (fun _ => Some (JObj [("stargazers_count", JStr "many")]))
    (fun _ => JSONDecodeError) (fun _ => "") (fun _ => None) (fun _ => 0%nat).

(** ** The usual spellings of a repository URL *)

(** Neither a slash nor a newline. *)
Definition is_name_char (c : ascii) : bool :=
  negb (c =? "/")%char && negb (c =? newline)%char.

(** A repository name as the usual spellings carry it: not empty, without
    slash and newline, and not ending in [.git]. *)
Definition is_plain_name (name : string) : bool :=
  let cs := list_ascii_of_string name in
  match cs with [] => false | _ :: _ => true end
  && forallb is_name_char cs
  && negb (ends_with (list_ascii_of_string ".git") cs).

(** An owner: not empty, without slash. *)
Definition is_owner_name (name : string) : bool :=
  let cs := list_ascii_of_string name in
  match cs with [] => false | _ :: _ => true end
  && forallb (fun c => negb (c =? "/")%char) cs.

(** The page of a repository, with or without a final slash, and its clone
    URL, with or without one. *)
Definition url_spellings (owner repo : string) : list string :=
  let base := "https://github.com/" ++ owner ++ "/" ++ repo in
  [base; base ++ "/"; base ++ ".git"; base ++ ".git/"].

(** * Properties *)

(** ** The model at work *)

Example int_examples :
  py_int (JStr " +1_000 ") = Ok 1000 /\
  py_int (JStr "abc") = Err ValueError /\
  py_int (JStr "1__0") = Err ValueError /\
  py_int (JStr (String (ascii_of_nat 28) "8")) = Err ValueError /\
  py_int (JBool true) = Ok 1 /\
  py_int (JFloat (S754_finite true 5 (-1))) = Ok (-2) /\
  py_int (JFloat S754_nan) = Err ValueError /\
  py_int (JArr []) = Err TypeError.
Proof. repeat split; reflexivity. Qed.

(** The limit on the digits of a text: 4300 are read, 4301 are refused. *)
Example int_digit_limit :
  (exists n, py_int (JStr (string_of_list_ascii (repeat "1"%char 4300))) = Ok n) /\
  py_int (JStr (string_of_list_ascii (repeat "1"%char 4301))) = Err ValueError.
Proof. split; [eexists|]; vm_compute; reflexivity. Qed.

(** [strip] and [int] disagree on the separators 28 to 31. *)
Example separators_are_blank_but_no_int_space :
  is_blank (String (ascii_of_nat 28) "") = true /\
  int_of_str (String (ascii_of_nat 28) "8") = None /\
  int_of_str (String (ascii_of_nat 9) "8") = Some 8.
Proof. repeat split; reflexivity. Qed.

(** Text beyond ASCII: the Arabic-Indic digits for 42 between two
    no-break spaces; a fullwidth 7; a letter; a lone surrogate. *)
Example int_beyond_ascii :
  text_code_points (string_of_list_ascii (map ascii_of_nat [194; 160; 217; 164; 217; 162]%nat))
  = [160; 1636; 1634] /\
  int_of_str (string_of_list_ascii
                (map ascii_of_nat [194; 160; 217; 164; 217; 162; 194; 160]%nat)) = Some 42 /\
  int_of_str (string_of_list_ascii (map ascii_of_nat [239; 188; 151]%nat)) = Some 7 /\
  int_of_str (string_of_list_ascii (map ascii_of_nat [195; 169]%nat)) = None /\
  text_code_points lone_surrogate = [55296] /\
  int_of_str lone_surrogate = None /\
  str_encodable lone_surrogate = false /\
  str_encodable (string_of_list_ascii (map ascii_of_nat [239; 188; 151]%nat)) = true /\
  is_blank (string_of_list_ascii (map ascii_of_nat [194; 160; 227; 128; 128]%nat)) = true.
Proof. repeat split; reflexivity. Qed.

Example REPO_URL_RE_examples :
  REPO_URL_RE_match "https://github.com/acme/foo" = Some ("acme", "foo") /\
  REPO_URL_RE_match "https://github.com/acme/foo.git/" = Some ("acme", "foo") /\
  REPO_URL_RE_match "https://github.com/acme/a.git.git" = Some ("acme", "a.git") /\
  REPO_URL_RE_match "https://github.com/acme/foo/tree/main" = None /\
  REPO_URL_RE_match "https://github.com//foo" = None /\
  REPO_URL_RE_match "http://github.com/acme/foo" = None /\
  REPO_URL_RE_match "https://gitlab.com/acme/foo" = None.
Proof. repeat split; reflexivity. Qed.

Example spec_outcome_examples :
  spec_outcome (sample_repo_payload, 200) = Stop "success" /\
  spec_outcome (JObj [], 200) = Retry /\
  spec_outcome (JObj [], 301) = Stop "redirected" /\
  spec_outcome (JObj [], 302) = Stop "redirected" /\
  spec_outcome (JObj [], 404) = Stop "deleted" /\
  spec_outcome (JObj [], 403) = Stop "api_limit" /\
  spec_outcome (JObj [], 429) = Retry /\
  spec_outcome (JObj [], 500) = Retry /\
  spec_outcome (JNull, -1) = Retry.
Proof. repeat split; reflexivity. Qed.

Example build_cache_by_repo_example :
  build_cache_by_repo (normalize_cache sample_cache_file) = Ok sample_cache_by_repo.
Proof. reflexivity. Qed.

(** A whole update on the sample network: one plugin, fetched on the second
    attempt, merged and persisted. *)
Example main_update_example :
  fst (main_update sample_env sample_world) = Ok true /\
  files (snd (main_update sample_env sample_world)) "plugin_cache_original.json" =
  Some (FileJson
          (JObj [("astrbot_plugin_foo",
                  JObj [("repo", JStr "https://github.com/acme/foo");
                        ("desc", JNull); ("author", JNull); ("tags", JArr []);
                        ("stars", JInt 42); ("version", JStr "1.0.0");
                        ("updated_at", JStr "2024-01-01T00:00:00Z")])])).
Proof. vm_compute. split; reflexivity. Qed.

(** ** Dictionaries *)

Lemma dict_lookup_set (d : dict) (k k' : string) (v : json) :
  dict_lookup (dict_set d k v) k' =
  if (k =? k')%string then Some v else dict_lookup d k'.
Proof.
  induction d as [|[k0 v0] d IH]; simpl.
  - reflexivity.
  - destruct (k0 =? k)%string eqn:Hk0; simpl.
    + apply String.eqb_eq in Hk0. subst k0.
      destruct (k =? k')%string; reflexivity.
    + rewrite IH. destruct (k0 =? k')%string eqn:Hk0'; [|reflexivity].
      apply String.eqb_eq in Hk0'. subst k0. rewrite String.eqb_sym, Hk0. reflexivity.
Qed.

Lemma dict_lookup_pop (d : dict) (k k' : string) :
  dict_lookup (dict_pop d k) k' =
  if (k =? k')%string then None else dict_lookup d k'.
Proof.
  induction d as [|[k0 v0] d IH]; simpl.
  - destruct (k =? k')%string; reflexivity.
  - destruct (k0 =? k)%string eqn:Hk0; simpl.
    + rewrite IH. apply String.eqb_eq in Hk0. subst k0.
      destruct (k =? k')%string; reflexivity.
    + rewrite IH. destruct (k0 =? k')%string eqn:Hk0'; [|reflexivity].
      apply String.eqb_eq in Hk0'. subst k0. rewrite String.eqb_sym, Hk0. reflexivity.
Qed.

Lemma dict_lookup_in (d : dict) (k : string) (v : json) :
  dict_lookup d k = Some v -> In (k, v) d.
Proof.
  induction d as [|[k0 v0] d IH]; simpl; [discriminate|].
  destruct (k0 =? k)%string eqn:Hk0.
  - intros [= ->]. apply String.eqb_eq in Hk0. subst. now left.
  - intros H. right. now apply IH.
Qed.

Lemma in_dict_has (d : dict) (k : string) (v : json) :
  In (k, v) d -> dict_has d k = true.
Proof.
  unfold dict_has. induction d as [|[k0 v0] d IH]; simpl; [contradiction|].
  intros [[= -> ->]|Hin].
  - now rewrite String.eqb_refl.
  - destruct (k0 =? k)%string; [reflexivity|]. now apply IH.
Qed.

Lemma in_dict_lookup (d : dict) (k : string) (v : json) :
  keys_distinct d = true -> In (k, v) d -> dict_lookup d k = Some v.
Proof.
  induction d as [|[k0 v0] d IH]; simpl; [contradiction|].
  intros Hd [[= -> ->]|Hin].
  - now rewrite String.eqb_refl.
  - apply andb_true_iff in Hd as [Hk0 Hd].
    destruct (k0 =? k)%string eqn:Heq.
    + apply String.eqb_eq in Heq. subst k0.
      rewrite (in_dict_has _ _ _ Hin) in Hk0. discriminate.
    + now apply IH.
Qed.

Lemma forallb_lookup (P : json -> bool) (d : dict) (k : string) (v : json) :
  forallb (fun kv => P (snd kv)) d = true -> dict_lookup d k = Some v -> P v = true.
Proof.
  intros Hall Hk. apply dict_lookup_in in Hk.
  rewrite forallb_forall in Hall. exact (Hall _ Hk).
Qed.

(** ** The builtins *)

(** [(x or "") or y] is [x or y]. *)
Lemma py_or_empty_or (x y : json) : py_or (py_or x (JStr "")) y = py_or x y.
Proof.
  unfold py_or. destruct (py_truthy x) eqn:Hx.
  - now rewrite Hx.
  - reflexivity.
Qed.

Lemma py_truthy_str (s : string) : py_truthy (JStr s) = true <-> s <> "".
Proof.
  simpl. rewrite negb_true_iff. split.
  - intros H ->. discriminate.
  - intros H. apply String.eqb_neq. exact H.
Qed.

(** ** The merge *)

Lemma cache_field_entry (cache : dict) (key k : string) :
  cache_field cache key k = py_get (cache_entry_of cache key) k.
Proof.
  unfold cache_field, cache_entry_of, py_get_def.
  destruct (dict_lookup cache key) as [[]|]; reflexivity.
Qed.

Lemma py_or_get_def (d : dict) (k : string) (y : json) :
  py_or (py_or (py_get_def d k (JStr "")) (JStr "")) y = py_or (py_get d k) y.
Proof.
  rewrite py_or_empty_or. unfold py_get, py_get_def.
  destruct (dict_lookup d k); reflexivity.
Qed.

Lemma py_or_get_if_dict (x : json) (k : string) (y : json) :
  py_or (py_or (get_if_dict x k (JStr "")) (JStr "")) y = py_or (get_if_dict x k JNull) y.
Proof.
  rewrite py_or_empty_or. destruct x; reflexivity.
Qed.

Lemma first_nonempty_or (a b d : json) :
  py_or a (py_or b d) =
  match first_nonempty a b with Some v => v | None => d end.
Proof.
  unfold first_nonempty, py_or.
  destruct (py_truthy a); [reflexivity|]. destruct (py_truthy b); reflexivity.
Qed.


Lemma cache_entry_truthy (cache : dict) (key : string) :
  py_truthy (JObj (cache_entry_of cache key)) = has_cache_entry cache key.
Proof.
  unfold cache_entry_of, py_get_def, has_cache_entry.
  destruct (dict_lookup cache key) as [[| | | | | |[|f c]]|]; reflexivity.
Qed.

Lemma cache_entry_stars (cache : dict) (key : string) :
  cache_ok cache = true ->
  py_int (py_or (py_get_def (cache_entry_of cache key) "stars" (JInt 0)) (JInt 0)) =
  Ok (int_or_zero (cache_field cache key "stars")).
Proof.
  intros Hok. rewrite cache_field_entry.
  assert (Hs : stars_field_ok (cache_entry_of cache key) = true).
  { unfold cache_entry_of, py_get_def.
    destruct (dict_lookup cache key) as [v|] eqn:Hk; [|reflexivity].
    pose proof (forallb_lookup is_cache_value _ _ _ Hok Hk) as Hv.
    destruct v; try reflexivity. exact Hv. }
  unfold stars_field_ok in Hs. unfold py_get, py_get_def.
  destruct (dict_lookup (cache_entry_of cache key) "stars") as [[]|];
    try discriminate; try reflexivity.
  unfold py_or. simpl. destruct (n =? 0) eqn:Hn; simpl; [|reflexivity].
  apply Z.eqb_eq in Hn. now subst.
Qed.

(** The loop body computes the policy of the specification. *)
Lemma merge_entry_refines (info : option json) (cache : dict) (key : string)
    (plugin : dict) :
  (forall i, info = Some i -> is_repo_info i = true) ->
  cache_ok cache = true ->
  merge_entry (match info with Some i => i | None => JNull end)
              (cache_entry_of cache key) plugin =
  if spec_dropped info cache key then Ok None
  else Ok (Some (build_new_plugin plugin
                   (spec_stars info cache key)
                   (spec_version info cache key)
                   (match spec_optional info cache key "updated_at" with
                    | Some v => v | None => JStr "" end)
                   (match spec_optional info cache key "logo" with
                    | Some v => v | None => JStr "" end))).
Proof.
  intros Hinfo Hcache. unfold merge_entry.
  rewrite !py_or_get_def, !py_or_get_if_dict, cache_entry_truthy,
    (cache_entry_stars _ _ Hcache).
  rewrite !first_nonempty_or.
  rewrite <- !cache_field_entry.
  destruct info as [i|].
  - specialize (Hinfo i eq_refl). destruct i as [| | | | | |r]; try discriminate.
    simpl in Hinfo.
    destruct (dict_lookup r "stars") as [[]|] eqn:Hstars; try discriminate.
    destruct (dict_lookup r "status") as [[]|] eqn:Hstatus; try discriminate.
    assert (Htruthy : py_truthy (JObj r) = true).
    { destruct r; [discriminate|reflexivity]. }
    rewrite Htruthy.
    unfold spec_dropped, spec_stars, spec_version, spec_optional, status_of, info_field.
    cbn [get_if_dict]. unfold py_get, py_get_def. rewrite Hstars, Hstatus.
    cbn [py_eq_str andb is_none negb int_or_zero].
    destruct ((s =? "deleted")%string
              || negb (s =? "success")%string && negb (has_cache_entry cache key));
      [reflexivity|].
    destruct (s =? "success")%string; reflexivity.
  - unfold spec_dropped, spec_stars, spec_version, spec_optional, info_field.
    reflexivity.
Qed.

Lemma transform_entry_refines (repo_info cache : dict) (key : string) (plugin : dict) :
  is_catalog_value (JObj plugin) = true ->
  repo_info_ok repo_info = true ->
  cache_ok cache = true ->
  transform_entry repo_info cache key (JObj plugin) =
  let info := repo_info_for repo_info plugin in
  if spec_dropped info cache key then Ok None
  else Ok (Some (build_new_plugin plugin
                   (spec_stars info cache key)
                   (spec_version info cache key)
                   (match spec_optional info cache key "updated_at" with
                    | Some v => v | None => JStr "" end)
                   (match spec_optional info cache key "logo" with
                    | Some v => v | None => JStr "" end))).
Proof.
  intros Hplugin Hinfo Hcache. unfold transform_entry, repo_info_for.
  simpl in Hplugin.
  destruct (py_get_def plugin "repo" (JStr "")) as [| | | |url| |] eqn:Hrepo;
    try discriminate; cbn [py_get_any res_bind];
    try (apply (merge_entry_refines None); [discriminate|exact Hcache]).
  unfold py_get, py_get_def.
  destruct (dict_lookup repo_info url) as [i|] eqn:Hurl.
  - apply (merge_entry_refines (Some i)); [|exact Hcache].
    intros i' [= <-]. exact (forallb_lookup is_repo_info _ _ _ Hinfo Hurl).
  - apply (merge_entry_refines None); [discriminate|exact Hcache].
Qed.

Lemma summary_counts_ok (repo_info : dict) :
  repo_info_ok repo_info = true -> summary_counts repo_info = Ok tt.
Proof.
  intros Hok. unfold summary_counts.
  replace (forallb (fun kv => is_dict (snd kv)) repo_info) with true; [reflexivity|].
  symmetry. unfold repo_info_ok in Hok. rewrite forallb_forall in *.
  intros kv Hin. specialize (Hok kv Hin). now destruct (snd kv).
Qed.

(** What the loop leaves under each key, for a catalog with distinct keys. *)
Lemma transform_loop_lookup (repo_info cache : dict) (items : list (string * json)) :
  keys_distinct items = true ->
  (forall k v, In (k, v) items -> exists e, transform_entry repo_info cache k v = Ok e) ->
  forall result, exists out,
    transform_loop repo_info cache items result = Ok out /\
    forall k,
      dict_lookup out k =
      match dict_lookup items k with
      | Some v =>
          match transform_entry repo_info cache k v with
          | Ok (Some new_plugin) => Some (JObj new_plugin)
          | _ => dict_lookup result k
          end
      | None => dict_lookup result k
      end.
Proof.
  induction items as [|[k0 v0] rest IH]; intros Hdistinct Hok result.
  - exists result. split; reflexivity.
  - simpl in Hdistinct. apply andb_true_iff in Hdistinct as [Hfresh Hdistinct].
    apply negb_true_iff in Hfresh.
    destruct (Hok k0 v0 (or_introl eq_refl)) as [e He].
    assert (Hrest : forall k v, In (k, v) rest ->
                      exists e', transform_entry repo_info cache k v = Ok e').
    { intros k v Hin. apply Hok. now right. }
    destruct (IH Hdistinct Hrest
                match e with
                | Some new_plugin => dict_set result k0 (JObj new_plugin)
                | None => result
                end) as [out [Hout Hlookup]].
    exists out. split.
    + simpl. rewrite He. exact Hout.
    + intros k. rewrite Hlookup. simpl.
      destruct (k0 =? k)%string eqn:Hk.
      * apply String.eqb_eq in Hk. subst k0.
        unfold dict_has in Hfresh.
        destruct (dict_lookup rest k); [discriminate|].
        rewrite He. destruct e as [new_plugin|]; [|reflexivity].
        now rewrite dict_lookup_set, String.eqb_refl.
      * assert (Hsame : dict_lookup
                          match e with
                          | Some new_plugin => dict_set result k0 (JObj new_plugin)
                          | None => result
                          end k = dict_lookup result k).
        { destruct e; [|reflexivity]. now rewrite dict_lookup_set, Hk. }
        rewrite Hsame. reflexivity.
Qed.

(** On well-formed inputs the merge returns, and each object entry of the
    catalog is dropped or rewritten as the policy says. *)
Lemma transform_plugin_data_entries (original_plugins repo_info : dict)
    (existing_cache_raw : json) (w : World) :
  keys_distinct original_plugins = true ->
  catalog_ok original_plugins = true ->
  repo_info_ok repo_info = true ->
  cache_ok (normalize_cache existing_cache_raw) = true ->
  exists result,
    transform_plugin_data original_plugins repo_info existing_cache_raw w =
    (Ok result, after_transform result w) /\
    forall key plugin, In (key, JObj plugin) original_plugins ->
      let cache := normalize_cache existing_cache_raw in
      let info := repo_info_for repo_info plugin in
      dict_lookup result key =
      if spec_dropped info cache key then None
      else Some (JObj (build_new_plugin plugin
                         (spec_stars info cache key)
                         (spec_version info cache key)
                         (match spec_optional info cache key "updated_at" with
                          | Some v => v | None => JStr "" end)
                         (match spec_optional info cache key "logo" with
                          | Some v => v | None => JStr "" end))).
Proof.
  intros Hdistinct Hcatalog Hinfo Hcache.
  set (cache := normalize_cache existing_cache_raw) in *.
  assert (Hok : forall k v, In (k, v) original_plugins ->
                  exists e, transform_entry repo_info cache k v = Ok e).
  { intros k v Hin.
    assert (Hv : is_catalog_value v = true).
    { unfold catalog_ok in Hcatalog. rewrite forallb_forall in Hcatalog.
      exact (Hcatalog _ Hin). }
    destruct v as [| | | | | |p]; try (eexists; reflexivity).
    rewrite (transform_entry_refines _ _ _ _ Hv Hinfo Hcache). cbv zeta.
    destruct (spec_dropped _ _ _); eexists; reflexivity. }
  destruct (transform_loop_lookup repo_info cache original_plugins Hdistinct Hok [])
    as [result [Hresult Hlookup]].
  exists result. split.
  - unfold transform_plugin_data, bind, lift. fold cache.
    rewrite Hresult, (summary_counts_ok _ Hinfo). reflexivity.
  - intros key plugin Hin. cbv zeta. rewrite Hlookup.
    rewrite (in_dict_lookup _ _ _ Hdistinct Hin).
    assert (Hv : is_catalog_value (JObj plugin) = true).
    { unfold catalog_ok in Hcatalog. rewrite forallb_forall in Hcatalog.
      exact (Hcatalog _ Hin). }
    rewrite (transform_entry_refines _ _ _ _ Hv Hinfo Hcache). cbv zeta.
    destruct (spec_dropped _ _ _); reflexivity.
Qed.

(** *** The fields of a rewritten entry *)

Ltac lookup_new_plugin :=
  unfold build_new_plugin; cbv zeta;
  repeat match goal with
         | |- context [if ?b then _ else _] => destruct b eqn:?
         end;
  repeat (rewrite dict_lookup_set || rewrite dict_lookup_pop);
  cbn [String.eqb Ascii.eqb Bool.eqb andb].

Lemma new_plugin_stars (plugin : dict) (stars : Z) (version updated logo : json) :
  dict_lookup (build_new_plugin plugin stars version updated logo) "stars" =
  Some (JInt stars).
Proof. lookup_new_plugin; reflexivity. Qed.

Lemma new_plugin_version (plugin : dict) (stars : Z) (version updated logo : json) :
  dict_lookup (build_new_plugin plugin stars version updated logo) "version" =
  Some version.
Proof. lookup_new_plugin; reflexivity. Qed.

Lemma new_plugin_updated_at (plugin : dict) (stars : Z) (version updated logo : json) :
  dict_lookup (build_new_plugin plugin stars version updated logo) "updated_at" =
  if py_truthy updated then Some updated else None.
Proof.
  destruct (py_truthy updated) eqn:Hu; unfold build_new_plugin; cbv zeta; rewrite Hu;
    destruct (dict_has plugin "social_link"), (py_truthy logo);
    repeat (rewrite dict_lookup_set || rewrite dict_lookup_pop); reflexivity.
Qed.

Lemma new_plugin_logo (plugin : dict) (stars : Z) (version updated logo : json) :
  dict_lookup (build_new_plugin plugin stars version updated logo) "logo" =
  if py_truthy logo then Some logo else None.
Proof.
  destruct (py_truthy logo) eqn:Hl; unfold build_new_plugin; cbv zeta; rewrite Hl;
    repeat (rewrite dict_lookup_set || rewrite dict_lookup_pop); reflexivity.
Qed.

Lemma new_plugin_desc (plugin : dict) (stars : Z) (version updated logo : json) :
  dict_lookup (build_new_plugin plugin stars version updated logo) "desc" =
  Some (py_get plugin "desc").
Proof. lookup_new_plugin; reflexivity. Qed.

Lemma new_plugin_author (plugin : dict) (stars : Z) (version updated logo : json) :
  dict_lookup (build_new_plugin plugin stars version updated logo) "author" =
  Some (py_get plugin "author").
Proof. lookup_new_plugin; reflexivity. Qed.

Lemma new_plugin_repo (plugin : dict) (stars : Z) (version updated logo : json) :
  dict_lookup (build_new_plugin plugin stars version updated logo) "repo" =
  Some (py_get plugin "repo").
Proof. lookup_new_plugin; reflexivity. Qed.

Lemma new_plugin_tags (plugin : dict) (stars : Z) (version updated logo : json) :
  dict_lookup (build_new_plugin plugin stars version updated logo) "tags" =
  Some (py_get_def plugin "tags" (JArr [])).
Proof. lookup_new_plugin; reflexivity. Qed.

Lemma new_plugin_social_link (plugin : dict) (stars : Z) (version updated logo : json) :
  dict_lookup (build_new_plugin plugin stars version updated logo) "social_link" =
  dict_lookup plugin "social_link".
Proof.
  unfold build_new_plugin; cbv zeta.
  destruct (py_truthy updated), (py_truthy logo);
    repeat (rewrite dict_lookup_set || rewrite dict_lookup_pop);
    cbn [String.eqb Ascii.eqb Bool.eqb andb];
    unfold dict_has, py_get, py_get_def;
    destruct (dict_lookup plugin "social_link") eqn:Hs;
    repeat (rewrite dict_lookup_set || rewrite dict_lookup_pop);
    cbn [String.eqb Ascii.eqb Bool.eqb andb]; try rewrite Hs; reflexivity.
Qed.

Lemma new_plugin_other (plugin : dict) (stars : Z) (version updated logo : json)
    (k : string) :
  ~ In k written_keys ->
  dict_lookup (build_new_plugin plugin stars version updated logo) k =
  dict_lookup plugin k.
Proof.
  intros Hk.
  assert (Hne : forall k', In k' written_keys -> (k' =? k)%string = false).
  { intros k' Hin. apply String.eqb_neq. intros ->. exact (Hk Hin). }
  unfold build_new_plugin; cbv zeta.
  destruct (py_truthy updated), (py_truthy logo), (dict_has plugin "social_link") eqn:Hs;
    repeat (rewrite dict_lookup_set || rewrite dict_lookup_pop);
    repeat match goal with
           | |- context [(?s =? k)%string] => rewrite (Hne s) by (simpl; tauto)
           end;
    try reflexivity;
    (destruct ("social_link" =? k)%string eqn:Hsk; [|reflexivity]);
    apply String.eqb_eq in Hsk; subst k;
    unfold dict_has in Hs; unfold py_get, py_get_def;
    destruct (dict_lookup plugin "social_link"); (reflexivity || discriminate).
Qed.

(** *** What the merge persists *)

Lemma forallb_dict_set (P : json -> bool) (d : dict) (k : string) (v : json) :
  forallb (fun kv => P (snd kv)) d = true -> P v = true ->
  forallb (fun kv => P (snd kv)) (dict_set d k v) = true.
Proof.
  intros Hd Hv. induction d as [|[k0 v0] d IH]; simpl in *.
  - now rewrite Hv.
  - apply andb_true_iff in Hd as [H0 Hd].
    destruct (k0 =? k)%string; simpl.
    + now rewrite Hv, Hd.
    + now rewrite H0, IH.
Qed.

Lemma merge_entry_persisted (repo_entry : json) (cache_entry plugin new_plugin : dict) :
  merge_entry repo_entry cache_entry plugin = Ok (Some new_plugin) ->
  is_persisted_entry (JObj new_plugin) = true.
Proof.
  unfold merge_entry. destruct (_ && _); [discriminate|].
  destruct (if _ && _ then _ else _) as [stars|e]; cbn [res_bind]; [|discriminate].
  intros [= <-]. unfold is_persisted_entry. now rewrite new_plugin_stars.
Qed.

(** Every entry of a merged catalog is an object with an integer [stars]. *)
Lemma transform_loop_persisted (repo_info cache : dict) (items : list (string * json)) :
  forall result out,
    forallb (fun kv => is_persisted_entry (snd kv)) result = true ->
    transform_loop repo_info cache items result = Ok out ->
    forallb (fun kv => is_persisted_entry (snd kv)) out = true.
Proof.
  induction items as [|[key plugin] rest IH]; intros result out Hresult; simpl.
  - now intros [= <-].
  - destruct (transform_entry repo_info cache key plugin) as [entry|e] eqn:Hentry;
      cbn [res_bind]; [|discriminate].
    apply IH. destruct entry as [new_plugin|]; [|exact Hresult].
    apply forallb_dict_set; [exact Hresult|].
    destruct plugin as [| | | | | |p]; try discriminate.
    unfold transform_entry in Hentry.
    destruct (py_get_any repo_info (py_get_def p "repo" (JStr ""))) as [repo_entry|e];
      cbn [res_bind] in Hentry; [|discriminate].
    exact (merge_entry_persisted _ _ _ _ Hentry).
Qed.

(** So the catalog a run persists is, as the cache of the next run, well
    formed, and each of its entries is a usable cache entry. *)
Lemma merged_catalog_is_cache (original_plugins repo_info : dict)
    (existing_cache_raw : json) (w w' : World) (result : dict) :
  transform_plugin_data original_plugins repo_info existing_cache_raw w = (Ok result, w') ->
  cache_ok result = true /\
  forall key entry, dict_lookup result key = Some entry ->
                    has_cache_entry result key = true.
Proof.
  unfold transform_plugin_data, bind, lift.
  destruct (transform_loop repo_info (normalize_cache existing_cache_raw) original_plugins [])
    as [out|e] eqn:Hloop; [|discriminate].
  cbv [write_json ret]. destruct (summary_counts repo_info); [|discriminate].
  intros [= <- _].
  pose proof (transform_loop_persisted _ _ _ [] _ eq_refl Hloop) as Hall.
  split.
  - unfold cache_ok. rewrite forallb_forall in *. intros kv Hin.
    specialize (Hall kv Hin). destruct (snd kv); try discriminate.
    unfold is_cache_value, stars_field_ok. simpl in Hall.
    destruct (dict_lookup fields "stars") as [[]|]; (reflexivity || discriminate).
  - intros key entry Hkey. unfold has_cache_entry. rewrite Hkey.
    pose proof (forallb_lookup is_persisted_entry _ _ _ Hall Hkey) as Hentry.
    destruct entry as [| | | | | |[|f c]]; (discriminate || reflexivity).
Qed.

(** ** The merge: the claims *)

Section MergeClaims.

Variables (original_plugins repo_info : dict) (existing_cache_raw : json) (w : World).
Variables (key : string) (plugin : dict).

Hypothesis keys_ok : keys_distinct original_plugins = true.
Hypothesis catalog_wf : catalog_ok original_plugins = true.
Hypothesis repo_info_wf : repo_info_ok repo_info = true.
Hypothesis cache_wf : cache_ok (normalize_cache existing_cache_raw) = true.
Hypothesis entry_in_catalog : In (key, JObj plugin) original_plugins.

(** C1 (amended). On well-formed inputs the merge returns a catalog, and an
    object entry of the original catalog is absent from it if and only if a
    RepoInfo record exists for its repository URL and either that record's
    status is [deleted], or its status is not [success] and the cache holds no
    usable entry for the plugin key (no value, a value that is no object, or
    the empty object).  In every other case (no RepoInfo record at all
    included) the entry is in the output under its original key. *)
Theorem merge_drops_iff :
  exists result w',
    transform_plugin_data original_plugins repo_info existing_cache_raw w = (Ok result, w') /\
    let dropped :=
      exists info,
        repo_info_for repo_info plugin = Some info /\
        (status_of info = "deleted" \/
         (status_of info <> "success" /\
          has_cache_entry (normalize_cache existing_cache_raw) key = false)) in
    (dict_lookup result key = None <-> dropped) /\
    (~ dropped ->
     exists entry, dict_lookup result key = Some (JObj entry) /\
                   dict_lookup entry "repo" = Some (py_get plugin "repo")).
Proof.
  destruct (transform_plugin_data_entries _ _ _ w keys_ok catalog_wf repo_info_wf cache_wf)
    as [result [Hrun Hentries]].
  exists result, (after_transform result w). split; [exact Hrun|].
  specialize (Hentries key plugin entry_in_catalog). cbv zeta in Hentries.
  set (cache := normalize_cache existing_cache_raw) in *.
  assert (Hspec : spec_dropped (repo_info_for repo_info plugin) cache key = true <->
                  exists info,
                    repo_info_for repo_info plugin = Some info /\
                    (status_of info = "deleted" \/
                     (status_of info <> "success" /\ has_cache_entry cache key = false))).
  { unfold spec_dropped.
    destruct (repo_info_for repo_info plugin) as [i|].
    - rewrite orb_true_iff, andb_true_iff, !negb_true_iff, String.eqb_eq, String.eqb_neq.
      split.
      + intros H. exists i. split; [reflexivity|exact H].
      + intros [i' [[= <-] H]]. exact H.
    - split; [discriminate|]. intros [i [Hi _]]. discriminate. }
  cbv zeta. destruct (spec_dropped (repo_info_for repo_info plugin) cache key) eqn:Hd.
  - split.
    + split; [intros _; now apply Hspec|intros _; exact Hentries].
    + intros Hnot. exfalso. apply Hnot. now apply Hspec.
  - assert (Hnot : ~ exists info,
                       repo_info_for repo_info plugin = Some info /\
                       (status_of info = "deleted" \/
                        (status_of info <> "success" /\
                         has_cache_entry cache key = false))).
    { intros H. apply Hspec in H. discriminate. }
    split.
    + split; [intros H; rewrite Hentries in H; discriminate|intros H; now elim Hnot].
    + intros _. eexists. split; [exact Hentries|apply new_plugin_repo].
Qed.


(** C9. In every retained entry [desc], [author] and [repo] hold what the
    input entry holds, [tags] holds the input's tags or the empty list when the
    input has none, [social_link] is present exactly when the input has it,
    with the same value, and every field of the input other than [stars],
    [version], [updated_at] and [logo] keeps its value. *)
Theorem merge_copies_original_fields :
  exists result w',
    transform_plugin_data original_plugins repo_info existing_cache_raw w = (Ok result, w') /\
    forall entry, dict_lookup result key = Some (JObj entry) ->
      dict_lookup entry "desc" = Some (py_get plugin "desc") /\
      dict_lookup entry "author" = Some (py_get plugin "author") /\
      dict_lookup entry "repo" = Some (py_get plugin "repo") /\
      dict_lookup entry "tags" = Some (py_get_def plugin "tags" (JArr [])) /\
      dict_lookup entry "social_link" = dict_lookup plugin "social_link" /\
      forall k v,
        ~ In k ["stars"; "version"; "updated_at"; "logo"] ->
        dict_lookup plugin k = Some v -> dict_lookup entry k = Some v.
Proof.
  destruct (transform_plugin_data_entries _ _ _ w keys_ok catalog_wf repo_info_wf cache_wf)
    as [result [Hrun Hentries]].
  exists result, (after_transform result w). split; [exact Hrun|].
  specialize (Hentries key plugin entry_in_catalog). cbv zeta in Hentries.
  intros entry Hentry. rewrite Hentries in Hentry.
  destruct (spec_dropped _ _ _); [discriminate|]. injection Hentry as <-.
  rewrite new_plugin_desc, new_plugin_author, new_plugin_repo, new_plugin_tags,
    new_plugin_social_link.
  repeat (split; [reflexivity|]).
  intros k v Hk Hv.
  destruct (in_dec string_dec k ["desc"; "author"; "repo"; "tags"]) as [Hin|Hout].
  - unfold py_get, py_get_def.
    simpl in Hin. destruct Hin as [<-|[<-|[<-|[<-|[]]]]].
    + rewrite new_plugin_desc. unfold py_get, py_get_def. now rewrite Hv.
    + rewrite new_plugin_author. unfold py_get, py_get_def. now rewrite Hv.
    + rewrite new_plugin_repo. unfold py_get, py_get_def. now rewrite Hv.
    + rewrite new_plugin_tags. unfold py_get_def. now rewrite Hv.
  - rewrite new_plugin_other; [exact Hv|].
    unfold written_keys. simpl in *. tauto.
Qed.

End MergeClaims.

(** The sample catalog: [p5] has a RepoInfo with status [api_limit] and no
    cache entry, and is dropped. *)
Lemma merge_drops_iff_witness :
  (keys_distinct sample_catalog = true /\ catalog_ok sample_catalog = true /\
   repo_info_ok sample_repo_info = true /\
   cache_ok (normalize_cache sample_cache) = true /\
   In ("p5", JObj sample_p5) sample_catalog) /\
  exists result w',
    transform_plugin_data sample_catalog sample_repo_info sample_cache empty_world =
    (Ok result, w') /\
    dict_lookup result "p5" = None.
Proof.
  split.
  - repeat split; try reflexivity. simpl. tauto.
  - destruct (merge_drops_iff sample_catalog sample_repo_info sample_cache empty_world
                "p5" sample_p5 eq_refl eq_refl eq_refl eq_refl)
      as (result & w' & Hrun & Hiff & _).
    + simpl. tauto.
    + exists result, w'. split; [exact Hrun|]. apply Hiff.
      exists (sample_info 0 "" "" "" "api_limit"). split; [reflexivity|].
      right. split; [discriminate|reflexivity].
Defined.

(** C1 as stated fails on an empty cache object: the cache has an entry for
    [p1] and the status is [network_error], yet the entry is dropped. *)
Lemma empty_cache_entry_is_dropped :
  (keys_distinct flaky_catalog = true /\ catalog_ok flaky_catalog = true /\
   repo_info_ok flaky_repo_info = true /\
   cache_ok (normalize_cache empty_entry_cache) = true) /\
  fst (transform_plugin_data flaky_catalog flaky_repo_info empty_entry_cache empty_world)
  = Ok [] /\
  dict_lookup (normalize_cache empty_entry_cache) "p1" = Some (JObj []) /\
  ~ (dict_lookup [] "p1" = None <->
     exists info,
       repo_info_for flaky_repo_info [("repo", JStr "https://github.com/acme/flaky")]
       = Some info /\
       (status_of info = "deleted" \/
        (status_of info <> "success" /\
         dict_lookup (normalize_cache empty_entry_cache) "p1" = None))).
Proof.
  split; [repeat split; reflexivity|]. split; [reflexivity|]. split; [reflexivity|].
  intros [Hdrop _]. destruct (Hdrop eq_refl) as (info & Hinfo & [Hdeleted|[_ Habsent]]).
  - injection Hinfo as <-. discriminate.
  - discriminate.
Qed.


(** The sample catalog: [p1] is retained with its own fields, [homepage]
    included. *)
Lemma merge_copies_original_fields_witness :
  (keys_distinct sample_catalog = true /\ catalog_ok sample_catalog = true /\
   repo_info_ok sample_repo_info = true /\
   cache_ok (normalize_cache sample_cache) = true /\
   In ("p1", JObj sample_p1) sample_catalog) /\
  exists result w',
    transform_plugin_data sample_catalog sample_repo_info sample_cache empty_world =
    (Ok result, w') /\
    forall entry, dict_lookup result "p1" = Some (JObj entry) ->
      dict_lookup entry "desc" = Some (JStr "first") /\
      dict_lookup entry "tags" = Some (JArr [JStr "tool"]) /\
      dict_lookup entry "homepage" = Some (JStr "https://acme.example").
Proof.
  split.
  - repeat split; try reflexivity. simpl. tauto.
  - destruct (merge_copies_original_fields sample_catalog sample_repo_info sample_cache
                empty_world "p1" sample_p1 eq_refl eq_refl eq_refl eq_refl)
      as (result & w' & Hrun & Hfields).
    + simpl. tauto.
    + exists result, w'. split; [exact Hrun|].
      intros entry Hentry.
      destruct (Hfields entry Hentry) as (Hdesc & _ & _ & Htags & _ & Hother).
      repeat split; [exact Hdesc|exact Htags|].
      apply Hother; [|reflexivity].
      simpl. intros [H|[H|[H|[H|[]]]]]; discriminate.
Defined.

(** ** The enricher: the retry loop *)

Section EnricherFacts.

Variable E : Env.

Lemma http_get_json_run (url : string) (w : World) :
  http_get_json E url w =
  (Ok (decode_response E (urlopen E (requests w) url)), with_request url w).
Proof. reflexivity. Qed.

(** The pause sends no request and touches no file, whether it raises or not. *)
Lemma pause_frame (attempt : Z) (w w1 : World) (r : res unit) :
  pause E attempt w = (r, w1) -> requests w1 = requests w /\ files w1 = files w.
Proof.
  unfold pause, backoff_sleep, bind, lift, uniform, sleep, ret.
  destruct (1 <? attempt).
  - destruct (backoff_delay E attempt) as [delay|e].
    + destruct (Qle_bool _ _); intros [= <- <-]; split; reflexivity.
    + intros [= <- <-]. split; reflexivity.
  - intros [= <- <-]. split; reflexivity.
Qed.

(** Up to attempt 1025 the delay of the code is the delay of the
    specification; from attempt 1026 on there is none. *)
Lemma backoff_delay_cases (attempt : Z) :
  2 <= attempt ->
  backoff_delay E attempt =
  if attempt <=? LAST_ATTEMPT then Ok (spec_delay E attempt) else Err OverflowError.
Proof.
  intros Hattempt. unfold backoff_delay, spec_delay, LAST_ATTEMPT. cbv zeta.
  destruct (attempt <=? 1025) eqn:Hlast.
  - apply Z.leb_le in Hlast.
    replace (2 ^ 1024 <=? 2 ^ (attempt - 2)) with false; [reflexivity|].
    symmetry. apply Z.leb_gt. apply Z.pow_lt_mono_r; lia.
  - apply Z.leb_gt in Hlast.
    replace (2 ^ 1024 <=? 2 ^ (attempt - 2)) with true; [reflexivity|].
    symmetry. apply Z.leb_le. apply Z.pow_le_mono_r; lia.
Qed.

Lemma spec_delay_nonneg (a : Z) :
  (0 <= BASE_DELAY E)%Q -> (0 <= MAX_DELAY E)%Q -> (0 <= spec_delay E a)%Q.
Proof.
  intros Hbase Hmax. unfold spec_delay. apply Q.min_glb; [|exact Hmax].
  apply Qmult_le_0_compat; [exact Hbase|].
  change 0%Q with (inject_Z 0). rewrite <- Zle_Qle. apply Z.pow_nonneg. lia.
Qed.

Lemma spec_delay_cap (a : Z) : (spec_delay E a <= MAX_DELAY E)%Q.
Proof. apply Q.le_min_r. Qed.

Lemma spec_delay_mono (a b : Z) :
  (0 <= BASE_DELAY E)%Q -> 2 <= a <= b -> (spec_delay E a <= spec_delay E b)%Q.
Proof.
  intros Hbase Hab. unfold spec_delay. apply Q.min_le_compat_r.
  rewrite !(Qmult_comm (BASE_DELAY E)). apply Qmult_le_compat_r; [|exact Hbase].
  rewrite <- Zle_Qle. apply Z.pow_le_mono_r; lia.
Qed.

(** The three cases of the pause, with sensible delays: none before the first
    attempt; a sleep of the scheduled delay and its jitter before attempts 2
    to 1025; [OverflowError] before attempt 1026. *)
Lemma pause_cases (attempt : Z) (w : World) :
  delays_ok E ->
  (attempt <= 1 /\ pause E attempt w = (Ok tt, w)) \/
  (LAST_ATTEMPT < attempt /\ pause E attempt w = (Err OverflowError, w)) \/
  (2 <= attempt <= LAST_ATTEMPT /\
   exists d,
     (spec_delay E attempt <= d <= spec_delay E attempt * (3 # 2))%Q /\
     pause E attempt w =
     (Ok tt, mkWorld (requests w) (sleeps w ++ [d])%list (S (draws w)) (files w))).
Proof.
  intros (Hbase & Hmax & Hrandom). unfold pause.
  destruct (1 <? attempt) eqn:Hfirst.
  2: { left. apply Z.ltb_ge in Hfirst. split; [exact Hfirst|reflexivity]. }
  apply Z.ltb_lt in Hfirst. right.
  unfold backoff_sleep, bind, lift. rewrite backoff_delay_cases by lia.
  destruct (attempt <=? LAST_ATTEMPT) eqn:Hlast.
  - right. apply Z.leb_le in Hlast. split; [lia|].
    unfold uniform, sleep. cbv beta iota. cbn [requests sleeps draws files].
    pose proof (spec_delay_nonneg attempt Hbase Hmax) as Hdelay.
    destruct (Hrandom (draws w)) as [Hlo Hhi].
    set (d := spec_delay E attempt) in *. set (u := random_unit E (draws w)) in *.
    assert (Hsleep : Qle_bool 0 (d + (0 + (d * (1 # 2) - 0) * u)) = true).
    { apply Qle_bool_iff. nra. }
    rewrite Hsleep. eexists. split; [|reflexivity]. split; nra.
  - left. apply Z.leb_gt in Hlast. split; [exact Hlast|reflexivity].
Qed.


(** One iteration of the loop against the table of the specification. *)
Lemma fetch_repo_loop_step (url : string) (remaining : nat) (attempt : Z) (w w1 : World) :
  pause E attempt w = (Ok tt, w1) ->
  fetch_repo_loop E url (S remaining) attempt w =
  let r := decode_response E (urlopen E (requests w) url) in
  let w' := with_request url w1 in
  match spec_outcome r with
  | Stop status => (Ok (dict_or_empty (fst r), status), w')
  | Retry => fetch_repo_loop E url remaining (attempt + 1) w'
  end.
Proof.
  intros Hpause. cbv zeta.
  destruct (pause_frame _ _ _ _ Hpause) as [Hreq _].
  cbn [fetch_repo_loop]. unfold bind at 1. rewrite Hpause.
  unfold bind at 1. rewrite http_get_json_run, Hreq.
  destruct (decode_response E (urlopen E (requests w) url)) as [payload status].
  unfold spec_outcome. cbn [fst].
  destruct (is_none payload && (status =? -1)) eqn:Hfail.
  - apply andb_true_iff in Hfail as [_ Hstatus]. apply Z.eqb_eq in Hstatus. subst status.
    reflexivity.
  - destruct (status =? 200), payload as [| | | | | |d]; cbn [is_dict has_key andb];
      try (destruct (dict_has d "stargazers_count"));
      try reflexivity;
      destruct ((status =? 301) || (status =? 302)); try reflexivity;
      destruct (status =? 404); try reflexivity;
      destruct (status =? 403); try reflexivity;
      destruct ((status =? 429) || (status =? 502) || (status =? 503) || (status =? 504));
      reflexivity.
Qed.

(** An exception of the pause leaves the loop. *)
Lemma fetch_repo_loop_raises (url : string) (remaining : nat) (attempt : Z)
    (w w1 : World) (e : exn) :
  pause E attempt w = (Err e, w1) ->
  fetch_repo_loop E url (S remaining) attempt w = (Err e, w1).
Proof. intros Hpause. cbn [fetch_repo_loop]. unfold bind at 1. now rewrite Hpause. Qed.




Lemma spec_outcome_status (r : json * Z) (status : string) :
  spec_outcome r = Stop status ->
  In status ["success"; "redirected"; "deleted"; "api_limit"].
Proof.
  destruct r as [payload code]. unfold spec_outcome.
  destruct ((code =? 200) && has_key payload "stargazers_count");
    [intros [= <-]; simpl; tauto|].
  destruct ((code =? 301) || (code =? 302)); [intros [= <-]; simpl; tauto|].
  destruct (code =? 404); [intros [= <-]; simpl; tauto|].
  destruct (code =? 403); [intros [= <-]; simpl; tauto|].
  destruct ((code =? 429) || (code =? 502) || (code =? 503) || (code =? 504));
    discriminate.
Qed.

Lemma spec_outcome_dict (r : json * Z) :
  spec_outcome r = Stop "success" -> is_dict (fst r) = true.
Proof.
  destruct r as [payload code]. unfold spec_outcome. cbn [fst].
  destruct payload; try reflexivity; cbn [has_key]; rewrite andb_false_r;
    destruct ((code =? 301) || (code =? 302)); try discriminate;
    destruct (code =? 404); try discriminate;
    destruct (code =? 403); try discriminate;
    destruct ((code =? 429) || (code =? 502) || (code =? 503) || (code =? 504));
    discriminate.
Qed.


(** Whatever the delays, a status the loop returns is one of five, and comes
    with a dict when it is [success]. *)
Lemma fetch_repo_loop_status (url : string) (remaining : nat) :
  forall (attempt : Z) (w w' : World) (payload : json) (status : string),
    fetch_repo_loop E url remaining attempt w = (Ok (payload, status), w') ->
    In status fetch_statuses /\ (status = "success" -> is_dict payload = true).
Proof.
  induction remaining as [|remaining IH]; intros attempt w w' payload status.
  - cbn [fetch_repo_loop]. unfold ret. intros [= <- <- <-].
    split; [simpl; tauto|discriminate].
  - destruct (pause E attempt w) as [[[]|e] w1] eqn:Hpause.
    + rewrite (fetch_repo_loop_step _ _ _ _ _ Hpause). cbv zeta.
      destruct (spec_outcome (decode_response E (urlopen E (requests w) url)))
        as [stop|] eqn:Hout.
      * intros [= <- <- <-]. split.
        -- apply spec_outcome_status in Hout. unfold fetch_statuses. simpl in *. tauto.
        -- intros ->. apply spec_outcome_dict in Hout. unfold dict_or_empty.
           now rewrite Hout.
      * apply IH.
    + rewrite (fetch_repo_loop_raises _ _ _ _ _ _ Hpause). discriminate.
Qed.

End EnricherFacts.

(** ** The enricher: [fetch_repo] and [process_repo] *)

Section ProcessRepoFacts.

Variable E : Env.

Lemma bind_ok {A B} (m : M A) (k : A -> M B) (w w1 : World) (a : A) :
  m w = (Ok a, w1) -> bind m k w = k a w1.
Proof. unfold bind. now intros ->. Qed.

(** A status [fetch_repo] returns is one of five, with a dict for [success]. *)
Lemma fetch_repo_status (owner repo : string) (w w' : World) (payload : json)
    (status : string) :
  fetch_repo E owner repo w = (Ok (payload, status), w') ->
  In status fetch_statuses /\ (status = "success" -> is_dict payload = true).
Proof.
  intros Hrun.
  exact (fetch_repo_loop_status E (repo_api_url owner repo) (Z.to_nat (MAX_RETRIES E))
           1 w w' payload status Hrun).
Qed.

Lemma extract_version_loop_returns (owner repo : string) (metadata_files : list string) :
  forall w, exists version w',
    extract_version_loop E owner repo metadata_files w = (Ok version, w').
Proof.
  induction metadata_files as [|metadata_file rest IH]; intros w.
  - now exists "", w.
  - cbn [extract_version_loop]. unfold bind at 1. rewrite http_get_json_run.
    destruct (decode_response E _) as [payload status].
    destruct (negb (status =? 200) || negb (is_dict payload)); [apply IH|].
    destruct (get_if_dict payload "content" JNull); try apply IH.
    destruct (s =? "")%string; [apply IH|].
    destruct (search_version E s) as [version|]; [|apply IH].
    now eexists _, _.
Qed.

Lemma extract_logo_returns (owner repo : string) (default_branch : json) (w : World) :
  exists logo w', extract_logo E owner repo default_branch w = (Ok logo, w').
Proof.
  unfold extract_logo, bind. rewrite http_get_json_run.
  destruct (decode_response E _) as [payload status].
  destruct ((status =? 200) && is_dict payload
            && py_eq_str (get_if_dict payload "name" JNull) "logo.png");
    now eexists _, _.
Qed.

(** Whatever [process_repo] returns is its URL with a RepoInfo record whose
    status is one of the seven. *)
Lemma process_repo_record (repo_url : string) (cache_by_repo : dict)
    (has_existing_cache : bool) (w w' : World) (url : string) (info : json) :
  process_repo E repo_url cache_by_repo has_existing_cache w = (Ok (url, info), w') ->
  url = repo_url /\
  exists stars updated_at version logo status,
    info = repo_info_record (JInt stars) updated_at (JStr version) (JStr logo) (JStr status) /\
    In status repo_info_statuses.
Proof.
  unfold process_repo.
  destruct (REPO_URL_RE_match repo_url) as [[owner repo]|].
  - destruct (fetch_repo E owner repo w) as [[[payload status]|e] w1] eqn:Hfetch;
      [|unfold bind; rewrite Hfetch; discriminate].
    destruct (fetch_repo_status _ _ _ _ _ _ Hfetch) as [Hstatus _].
    rewrite (bind_ok _ _ _ _ _ Hfetch).
    assert (Hseven : In status repo_info_statuses).
    { unfold fetch_statuses, repo_info_statuses in *. simpl in *. tauto. }
    destruct ((status =? "success")%string && is_dict payload).
    + unfold lift, bind at 1.
      destruct (py_int _) as [stars|e]; [|discriminate].
      destruct (extract_version_loop_returns owner repo ["metadata.yml"; "metadata.yaml"] w1)
        as (version & w2 & Hversion).
      unfold extract_version. rewrite (bind_ok _ _ _ _ _ Hversion).
      destruct (extract_logo_returns owner repo
                  (py_or (get_if_dict payload "default_branch" JNull) (JStr "main")) w2)
        as (logo & w3 & Hlogo).
      rewrite (bind_ok _ _ _ _ _ Hlogo). unfold ret. intros [= <- <- <-].
      split; [reflexivity|]. now eexists _, _, _, _, _.
    + assert (Hunchanged :
                ret (repo_url,
                     repo_info_record (JInt 0) (JStr "") (JStr "") (JStr "") (JStr status)) w1
                = (Ok (url, info), w') ->
                url = repo_url /\
                exists stars updated_at version logo status0,
                  info = repo_info_record (JInt stars) updated_at (JStr version)
                           (JStr logo) (JStr status0) /\
                  In status0 repo_info_statuses).
      { unfold ret. intros [= <- <- <-]. split; [reflexivity|]. now eexists _, _, _, _, _. }
      destruct has_existing_cache; [|exact Hunchanged].
      destruct (py_truthy (py_get cache_by_repo repo_url)); [|exact Hunchanged].
      unfold lift, bind at 1.
      destruct (attr_get (py_get cache_by_repo repo_url) "stars" (JInt 0))
        as [cached_stars|e]; [|discriminate].
      unfold bind at 1.
      destruct (attr_get (py_get cache_by_repo repo_url) "updated_at" (JStr ""))
        as [cached_updated|e]; [|discriminate].
      destruct (negb (py_eq_zero cached_stars) || negb (py_eq_str cached_updated ""));
        [|exact Hunchanged].
      unfold bind at 1. destruct (py_int cached_stars) as [stars|e]; [|discriminate].
      unfold bind at 1.
      destruct (attr_get (py_get cache_by_repo repo_url) "version" (JStr ""))
        as [cached_version|e]; [|discriminate].
      unfold bind at 1.
      destruct (attr_get (py_get cache_by_repo repo_url) "logo" (JStr ""))
        as [cached_logo|e]; [|discriminate].
      unfold ret. intros [= <- <- <-]. split; [reflexivity|].
      eexists _, _, _, _, _. split; [reflexivity|]. simpl. tauto.
  - unfold ret. intros [= <- <- <-]. split; [reflexivity|].
    eexists _, _, _, _, _. split; [reflexivity|]. simpl. tauto.
Qed.

(** *** The worker pool *)

Lemma submit_run {A} (task : M A) (w : World) :
  submit task w = (Ok (fst (task w)), snd (task w)).
Proof. unfold submit. now destruct (task w). Qed.

(** The pool never raises: it returns one future for each URL, in submission
    order, and each of them is a future of [process_repo]. *)
Lemma run_tasks_futures (repo_urls : list string) (cache_by_repo : dict)
    (has_existing_cache : bool) :
  forall w, exists futures w',
    run_tasks E repo_urls cache_by_repo has_existing_cache w = (Ok futures, w') /\
    map fst futures = repo_urls /\
    Forall future_ok futures.
Proof.
  induction repo_urls as [|url rest IH]; intros w.
  - exists [], w. split; [reflexivity|]. split; [reflexivity|constructor].
  - cbn [run_tasks]. unfold bind at 1. rewrite submit_run.
    destruct (process_repo E url cache_by_repo has_existing_cache w) as [outcome w1]
      eqn:Hone. cbn [fst snd].
    destruct (IH w1) as (futures & w' & Hrest & Hurls & Hok).
    exists ((url, outcome) :: futures), w'. split; [|split].
    + unfold bind, ret. now rewrite Hrest.
    + cbn [map fst]. now rewrite Hurls.
    + constructor; [|exact Hok]. unfold future_ok. cbn [fst snd].
      destruct outcome as [[repo_url info]|e]; [|exact I].
      destruct (process_repo_record _ _ _ _ _ _ _ Hone)
        as (-> & stars & updated_at & version & logo & status & -> & _).
      split; reflexivity.
Qed.

Lemma insert_completed_perm (f : future) (completed : list future) :
  Permutation (insert_completed E f completed) (f :: completed).
Proof.
  induction completed as [|g rest IH]; cbn [insert_completed]; [reflexivity|].
  destruct (completion_rank E (fst f) <=? completion_rank E (fst g))%nat; [reflexivity|].
  rewrite IH. apply perm_swap.
Qed.

(** Whatever the order of completion, [as_completed] yields each future once. *)
Lemma as_completed_perm (futures : list future) :
  Permutation (as_completed E futures) futures.
Proof.
  induction futures as [|f rest IH]; [reflexivity|].
  unfold as_completed. cbn [fold_right]. fold (as_completed E rest).
  rewrite insert_completed_perm. now constructor.
Qed.

Lemma collect_results_records (futures : list future) :
  forall (acc repo_info : dict),
    Forall future_ok futures ->
    repo_info_ok acc = true ->
    collect_results futures acc = Ok repo_info ->
    repo_info_ok repo_info = true.
Proof.
  induction futures as [|[url [[repo_url info]|e]] rest IH]; intros acc repo_info Hok Hacc;
    cbn [collect_results].
  - now intros [= <-].
  - inversion Hok as [|? ? Hfuture Hrest]; subst.
    unfold future_ok in Hfuture. cbn [fst snd] in Hfuture. destruct Hfuture as [_ Hinfo].
    apply (IH _ _ Hrest). now apply forallb_dict_set.
  - discriminate.
Qed.

(** What [get_repo_info] has done when it returns. *)
Lemma get_repo_info_inv (original_plugins : dict) (existing_cache : json)
    (has_existing_cache : bool) (w w' : World) (repo_info : dict) :
  get_repo_info E original_plugins existing_cache has_existing_cache w = (Ok repo_info, w') ->
  exists cache_by_repo futures w1,
    build_cache_by_repo (normalize_cache existing_cache) = Ok cache_by_repo /\
    0 < MAX_WORKERS E /\
    run_tasks E (collect_repo_urls (map snd original_plugins) []) cache_by_repo
      has_existing_cache w = (Ok futures, w1) /\
    map fst futures = collect_repo_urls (map snd original_plugins) [] /\
    Forall future_ok futures /\
    collect_results (as_completed E futures) [] = Ok repo_info /\
    json_encodable (JObj repo_info) = true /\
    files w' = fs_write (files w1) "repo_info.json" (FileJson (JObj repo_info)).
Proof.
  unfold get_repo_info. cbv zeta. unfold bind at 1. unfold lift at 1.
  destruct (build_cache_by_repo (normalize_cache existing_cache)) as [cache_by_repo|e];
    [|discriminate].
  unfold bind at 1. unfold lift at 1. unfold ThreadPoolExecutor. cbv zeta.
  destruct (Z.min _ _ <=? 0) eqn:Hworkers; [discriminate|].
  apply Z.leb_gt in Hworkers.
  destruct (run_tasks_futures (collect_repo_urls (map snd original_plugins) []) cache_by_repo
              has_existing_cache w) as (futures & w1 & Hrun & Hurls & Hok).
  rewrite (bind_ok _ _ _ _ _ Hrun). unfold bind at 1. unfold lift at 1.
  destruct (collect_results (as_completed E futures) []) as [ri|e] eqn:Hcollect;
    [|discriminate].
  unfold bind, save_json, write_json, ret.
  destruct (json_encodable (JObj ri)) eqn:Henc; [|discriminate].
  intros [= <- <-]. exists cache_by_repo, futures, w1.
  repeat (split; [first [reflexivity|assumption|lia]|]). reflexivity.
Qed.

(** The map [get_repo_info] returns holds RepoInfo records only. *)
Lemma get_repo_info_records (original_plugins : dict) (existing_cache : json)
    (has_existing_cache : bool) (w w' : World) (repo_info : dict) :
  get_repo_info E original_plugins existing_cache has_existing_cache w = (Ok repo_info, w') ->
  repo_info_ok repo_info = true.
Proof.
  intros Hrun.
  destruct (get_repo_info_inv _ _ _ _ _ _ Hrun)
    as (cache_by_repo & futures & w1 & _ & _ & _ & _ & Hok & Hcollect & _).
  apply (collect_results_records (as_completed E futures) [] _); [|reflexivity|exact Hcollect].
  apply (Permutation_Forall (Permutation_sym (as_completed_perm futures))). exact Hok.
Qed.

End ProcessRepoFacts.

(** ** The enricher: the claims *)

Section EnricherClaims.

Variable E : Env.


(** C3. When the fetch of a well-formed repository URL ends with a status
    other than [success], a cache snapshot exists, and the by-repository
    record of the URL has non-zero stars or a non-empty [updated_at], the
    returned RepoInfo has status [cached] and the stars, [updated_at],
    [version] and [logo] of that record. *)
Theorem cached_fallback_applies (repo_url owner repo : string) (cache_by_repo : dict)
    (w w1 : World) (payload : json) (status : string)
    (stars : Z) (updated_at version logo : string) :
  REPO_URL_RE_match repo_url = Some (owner, repo) ->
  fetch_repo E owner repo w = (Ok (payload, status), w1) ->
  status <> "success" ->
  dict_lookup cache_by_repo repo_url =
    Some (cache_record stars (JStr updated_at) (JStr version) (JStr logo)) ->
  stars <> 0 \/ updated_at <> "" ->
  process_repo E repo_url cache_by_repo true w =
  (Ok (repo_url,
       repo_info_record (JInt stars) (JStr updated_at) (JStr version) (JStr logo)
         (JStr "cached")),
   w1).
Proof.
  intros Hmatch Hfetch Hstatus Hcached Hnontrivial.
  unfold process_repo. rewrite Hmatch, (bind_ok _ _ _ _ _ Hfetch).
  apply String.eqb_neq in Hstatus. rewrite Hstatus. cbn [andb].
  unfold py_get, py_get_def. rewrite Hcached.
  cbn [py_truthy cache_record attr_get].
  cbn [py_get_def dict_lookup String.eqb Ascii.eqb Bool.eqb andb].
  unfold bind, lift. cbv beta iota.
  assert (Htest : negb (py_eq_zero (JInt stars)) || negb (py_eq_str (JStr updated_at) "")
                  = true).
  { cbn [py_eq_zero py_eq_str]. apply orb_true_iff.
    destruct Hnontrivial as [H|H]; [left|right]; apply negb_true_iff.
    - now apply Z.eqb_neq.
    - now apply String.eqb_neq. }
  rewrite Htest. reflexivity.
Qed.

(** C5. For a repository URL that does not match [REPO_URL_RE], whatever the
    cache holds, [process_repo] returns status [invalid_repo_url] with stars 0
    and empty [updated_at], [version] and [logo], and leaves the world as it
    is: no request is sent. *)
Theorem invalid_repo_url_short_circuit (repo_url : string) (cache_by_repo : dict)
    (has_existing_cache : bool) (w : World) :
  REPO_URL_RE_match repo_url = None ->
  process_repo E repo_url cache_by_repo has_existing_cache w =
  (Ok (repo_url,
       repo_info_record (JInt 0) (JStr "") (JStr "") (JStr "") (JStr "invalid_repo_url")),
   w).
Proof.
  intros Hmatch. unfold process_repo. rewrite Hmatch. reflexivity.
Qed.

(** C10. The status of every RepoInfo that [process_repo] returns is one of
    [success], [cached], [redirected], [deleted], [api_limit],
    [network_error], [invalid_repo_url]; it is never [unknown]. *)
Theorem repo_info_status_vocabulary (repo_url : string) (cache_by_repo : dict)
    (has_existing_cache : bool) (w w' : World) (url : string) (info : json) :
  process_repo E repo_url cache_by_repo has_existing_cache w = (Ok (url, info), w') ->
  exists status,
    get_if_dict info "status" JNull = JStr status /\
    In status repo_info_statuses /\
    status <> "unknown".
Proof.
  intros Hrun.
  destruct (process_repo_record E _ _ _ _ _ _ _ Hrun)
    as (_ & stars & updated_at & version & logo & status & -> & Hstatus).
  exists status. split; [reflexivity|]. split; [exact Hstatus|].
  intros ->. simpl in Hstatus.
  repeat (destruct Hstatus as [Hstatus|Hstatus]; [discriminate|]). exact Hstatus.
Qed.

End EnricherClaims.

Lemma sample_delays_ok : delays_ok sample_env.
Proof. repeat split; simpl; lra. Qed.



(** C4 (the code departs from it).  With 1026 attempts allowed and every
    attempt failing, the attempt limit is never exhausted: the attempt table
    of the specification ends in [network_error] after 1026 requests, but
    [fetch_repo] raises [OverflowError] on line 169, when it computes the
    delay before attempt 1026: it has sent 1025 requests and returns no
    status at all. *)
Theorem fetch_repo_raises_before_attempt_1026 :
  delays_ok patient_env /\
  spec_fetch
    (fun k => spec_outcome
                (attempt_result patient_env empty_world (repo_api_url "acme" "flaky") k))
    (Z.to_nat (MAX_RETRIES patient_env)) 0 = ("network_error", 1026%nat) /\
  fst (fetch_repo patient_env "acme" "flaky" empty_world) = Err OverflowError /\
  requests (snd (fetch_repo patient_env "acme" "flaky" empty_world)) =
  repeat (repo_api_url "acme" "flaky") 1025.
Proof.
  split; [repeat split; simpl; lra|].
  split; [vm_compute; reflexivity|]. split; vm_compute; reflexivity.
Qed.

(** C7 (the code departs from it).  Before attempt 1026 there is no backoff
    delay: whatever the configuration, the pause before that attempt raises
    [OverflowError] on line 169 and sleeps nothing, where the specification
    has the delay [min(BASE_DELAY * 2^1024, MAX_DELAY)], which is at most
    [MAX_DELAY].  In the run of 1026 failing attempts the pauses before
    attempts 2 to 1025 are slept and the one before attempt 1026 raises. *)
Theorem backoff_overflows_before_attempt_1026 (E : Env) (w : World) :
  pause E 1026 w = (Err OverflowError, w) /\
  (spec_delay E 1026 <= MAX_DELAY E)%Q /\
  List.length (sleeps (snd (fetch_repo patient_env "acme" "flaky" empty_world))) = 1024%nat.
Proof.
  split; [vm_compute; reflexivity|]. split; [apply Q.le_min_r|vm_compute; reflexivity].
Qed.

(** The sample network: [acme/flaky] ends in [network_error]; with a cached
    record the RepoInfo is the record, marked [cached]. *)
Lemma cached_fallback_applies_witness :
  (REPO_URL_RE_match "https://github.com/acme/flaky" = Some ("acme", "flaky") /\
   fst (fetch_repo sample_env "acme" "flaky" empty_world) = Ok (JNull, "network_error") /\
   "network_error" <> "success" /\
   dict_lookup sample_cache_by_repo "https://github.com/acme/flaky" =
     Some (cache_record 10 (JStr "2023-05-05T00:00:00Z") (JStr "1.2.0") (JStr "")) /\
   (10 <> 0 \/ "2023-05-05T00:00:00Z" <> "")) /\
  fst (process_repo sample_env "https://github.com/acme/flaky" sample_cache_by_repo true
         empty_world) =
  Ok ("https://github.com/acme/flaky",
      repo_info_record (JInt 10) (JStr "2023-05-05T00:00:00Z") (JStr "1.2.0") (JStr "")
        (JStr "cached")).
Proof.
  split.
  - repeat split; try (vm_compute; reflexivity); [discriminate|left; discriminate].
  - rewrite (cached_fallback_applies sample_env "https://github.com/acme/flaky"
               "acme" "flaky" sample_cache_by_repo empty_world
               (snd (fetch_repo sample_env "acme" "flaky" empty_world))
               JNull "network_error" 10 "2023-05-05T00:00:00Z" "1.2.0" "").
    + reflexivity.
    + vm_compute. reflexivity.
    + vm_compute. reflexivity.
    + discriminate.
    + vm_compute. reflexivity.
    + left. discriminate.
Defined.

(** A GitLab URL does not match; the cached record under it is not used. *)
Lemma invalid_repo_url_short_circuit_witness :
  REPO_URL_RE_match "https://gitlab.com/acme/flaky" = None /\
  process_repo sample_env "https://gitlab.com/acme/flaky"
    [("https://gitlab.com/acme/flaky", cache_record 7 (JStr "2023") (JStr "1") (JStr ""))]
    true empty_world =
  (Ok ("https://gitlab.com/acme/flaky",
       repo_info_record (JInt 0) (JStr "") (JStr "") (JStr "") (JStr "invalid_repo_url")),
   empty_world).
Proof.
  split; [vm_compute; reflexivity|].
  apply (invalid_repo_url_short_circuit sample_env). vm_compute. reflexivity.
Defined.

(** The sample network: [acme/foo] answers on the second attempt. *)
Lemma repo_info_status_vocabulary_witness :
  fst (process_repo sample_env "https://github.com/acme/foo" [] false empty_world) =
  Ok ("https://github.com/acme/foo",
      repo_info_record (JInt 42) (JStr "2024-01-01T00:00:00Z") (JStr "") (JStr "")
        (JStr "success")) /\
  exists status,
    get_if_dict
      (repo_info_record (JInt 42) (JStr "2024-01-01T00:00:00Z") (JStr "") (JStr "")
         (JStr "success")) "status" JNull = JStr status /\
    In status repo_info_statuses /\
    status <> "unknown".
Proof.
  split; [vm_compute; reflexivity|].
  apply (repo_info_status_vocabulary sample_env "https://github.com/acme/foo" [] false
           empty_world
           (snd (process_repo sample_env "https://github.com/acme/foo" [] false empty_world))
           "https://github.com/acme/foo").
  vm_compute. reflexivity.
Defined.

(** ** The catalog fetch and the run *)

Section RunClaims.

Variable E : Env.

(** A fetch that returns [False] ends the update block of [main] at once. *)
Lemma main_update_skips (w w' : World) (catalog : dict) :
  fetch_original_plugin_data E w = (Ok (false, catalog), w') ->
  main_update E w = (Ok false, w').
Proof. intros Hrun. unfold main_update. now rewrite (bind_ok _ _ _ _ _ Hrun). Qed.

(** An accepted answer with status 200: what holds of its body. *)
Lemma catalog_accepted_body (body : string) (catalog : dict) :
  catalog_accepted E (Resp 200 body) catalog ->
  is_blank body = false /\ (50 <= String.length body)%nat /\
  json_loads E body = Some (JObj catalog) /\ catalog <> [].
Proof. intros (body' & [= <-] & H). exact H. Qed.

(** X21. What the catalog fetch does with the answer to its request.  It
    returns [ok = true] with the parsed catalog only when the status is 200,
    the body is not blank, has at least 50 bytes and decodes to a non-empty
    object, and that object has been written to [original_plugins.json]; it
    returns [ok = false] only when the answer fails one of these tests, and
    then the catalog is empty, nothing but the request has happened and
    [main] skips enrichment and merge; it raises only when [json.loads]
    fails with something else than [JSONDecodeError], or when the catalog
    passes them all but holds a string that cannot be written.  In every case
    the persisted catalog is as it was. *)
Theorem catalog_fetch_outcomes (w w' : World) (r : res (bool * dict)) :
  fetch_original_plugin_data E w = (r, w') ->
  match r with
  | Ok (true, catalog) =>
      catalog_accepted E (urlopen E (requests w) GITHUB_URL) catalog /\
      json_encodable (JObj catalog) = true /\
      files w' "original_plugins.json" = Some (FileJson (JObj catalog))
  | Ok (false, catalog) =>
      (forall data, ~ catalog_accepted E (urlopen E (requests w) GITHUB_URL) data) /\
      catalog = [] /\
      w' = with_request GITHUB_URL w /\
      main_update E w = (Ok false, w')
  | Err e =>
      (exists body,
          urlopen E (requests w) GITHUB_URL = Resp 200 body /\
          is_blank body = false /\
          (50 <= String.length body)%nat /\
          json_loads E body = None /\
          loads_error E body = e /\
          e <> JSONDecodeError) \/
      (exists catalog,
          catalog_accepted E (urlopen E (requests w) GITHUB_URL) catalog /\
          json_encodable (JObj catalog) = false /\
          e = UnicodeEncodeError)
  end /\
  files w' "plugin_cache_original.json" = files w "plugin_cache_original.json".
Proof.
  intros Hrun.
  assert (Hskip : forall catalog,
             r = Ok (false, catalog) ->
             catalog = [] -> w' = with_request GITHUB_URL w ->
             (forall data, ~ catalog_accepted E (urlopen E (requests w) GITHUB_URL) data) ->
             match r with
             | Ok (true, catalog) =>
                 catalog_accepted E (urlopen E (requests w) GITHUB_URL) catalog /\
                 json_encodable (JObj catalog) = true /\
                 files w' "original_plugins.json" = Some (FileJson (JObj catalog))
             | Ok (false, catalog) =>
                 (forall data,
                     ~ catalog_accepted E (urlopen E (requests w) GITHUB_URL) data) /\
                 catalog = [] /\
                 w' = with_request GITHUB_URL w /\
                 main_update E w = (Ok false, w')
             | Err e =>
                 (exists body,
                     urlopen E (requests w) GITHUB_URL = Resp 200 body /\
                     is_blank body = false /\
                     (50 <= String.length body)%nat /\
                     json_loads E body = None /\
                     loads_error E body = e /\
                     e <> JSONDecodeError) \/
                 (exists catalog,
                     catalog_accepted E (urlopen E (requests w) GITHUB_URL) catalog /\
                     json_encodable (JObj catalog) = false /\
                     e = UnicodeEncodeError)
             end /\
             files w' "plugin_cache_original.json" = files w "plugin_cache_original.json").
  { intros catalog -> -> -> Hnot. split; [|reflexivity].
    split; [exact Hnot|]. split; [reflexivity|]. split; [reflexivity|].
    now apply main_update_skips with (catalog := []). }
  revert Hrun. unfold fetch_original_plugin_data. unfold bind at 1. unfold urlopen_call.
  fold (with_request GITHUB_URL w).
  destruct (urlopen E (requests w) GITHUB_URL) as [status body|code body|] eqn:Hresp.
  2, 3: (unfold ret; intros [= <- <-]; apply (Hskip []); try reflexivity;
         intros data (b & Hb & _); discriminate).
  destruct (status =? 200) eqn:Hstatus; cbn [negb].
  2: { unfold ret. intros [= <- <-]. apply (Hskip []); try reflexivity.
       intros data (b & [= -> _] & _). discriminate. }
  apply Z.eqb_eq in Hstatus. subst status.
  destruct (is_blank body) eqn:Hblank.
  { unfold ret. intros [= <- <-]. apply (Hskip []); try reflexivity.
    intros data Hacc. apply catalog_accepted_body in Hacc as (Hb & _). congruence. }
  destruct (String.length body <? 50)%nat eqn:Hlen.
  { unfold ret. intros [= <- <-]. apply (Hskip []); try reflexivity.
    intros data Hacc. apply catalog_accepted_body in Hacc as (_ & Hge & _).
    apply Nat.ltb_lt in Hlen. lia. }
  apply Nat.ltb_ge in Hlen.
  destruct (json_loads E body) as [data|] eqn:Hloads.
  2: { destruct (loads_error E body) eqn:Herror;
         try (unfold lift; intros [= <- <-]; split; [|reflexivity];
              left; exists body; repeat (split; [first [reflexivity|assumption]|]);
              discriminate).
       unfold ret. intros [= <- <-]. apply (Hskip []); try reflexivity.
       intros data Hacc. apply catalog_accepted_body in Hacc as (_ & _ & Hl & _).
       congruence. }
  destruct (is_empty_data data) eqn:Hempty.
  { unfold ret. intros [= <- <-]. apply (Hskip []); try reflexivity.
    intros d Hacc. apply catalog_accepted_body in Hacc as (_ & _ & Hl & Hd).
    rewrite Hloads in Hl. injection Hl as ->. destruct d; [now elim Hd|discriminate]. }
  destruct data as [| | | | | |d];
    try (unfold ret; intros [= <- <-]; apply (Hskip []); try reflexivity;
         intros d' Hacc; apply catalog_accepted_body in Hacc as (_ & _ & Hl & _);
         congruence).
  assert (Hacc : catalog_accepted E (Resp 200 body) d).
  { exists body. repeat (split; [first [reflexivity|assumption]|]).
    intros ->. discriminate. }
  unfold bind, save_json, write_json, ret.
  destruct (json_encodable (JObj d)) eqn:Henc; intros [= <- <-].
  - split; [|reflexivity]. split; [exact Hacc|]. split; [exact Henc|reflexivity].
  - split; [|reflexivity]. right. exists d. split; [exact Hacc|]. split; [exact Henc|reflexivity].
Qed.

End RunClaims.

(** The sample network serves a catalog of one plugin. *)
Lemma catalog_fetch_outcomes_witness :
  fetch_original_plugin_data sample_env empty_world =
  (Ok (true, sample_fetched_catalog),
   snd (fetch_original_plugin_data sample_env empty_world)) /\
  catalog_accepted sample_env (Resp 200 sample_catalog_body) sample_fetched_catalog /\
  json_encodable (JObj sample_fetched_catalog) = true.
Proof.
  assert (Hrun : fetch_original_plugin_data sample_env empty_world =
                 (Ok (true, sample_fetched_catalog),
                  snd (fetch_original_plugin_data sample_env empty_world)))
    by (vm_compute; reflexivity).
  split; [exact Hrun|].
  destruct (catalog_fetch_outcomes sample_env _ _ _ Hrun) as [(Hacc & Henc & _) _].
  split; [exact Hacc|exact Henc].
Defined.

(** C6 (the code departs from it).  Two answers with status 200 on which the
    catalog fetch returns nothing at all.  A body that is one integer of 4301
    digits does not parse, and the fetch should return [ok = false]: but
    [json.loads] refuses it with a plain [ValueError], which line 114 does not
    catch, and the fetch raises it, and [main] with it.  A body that passes
    every test, but whose catalog holds a lone surrogate, should give
    [ok = true] with that catalog: but line 124 cannot write it, and the fetch
    raises [UnicodeEncodeError]. *)
Theorem catalog_fetch_raises :
  (urlopen long_integer_env [] GITHUB_URL = Resp 200 long_integer_body /\
   json_loads long_integer_env long_integer_body = None /\
   fetch_original_plugin_data long_integer_env empty_world =
   (Err ValueError, with_request GITHUB_URL empty_world) /\
   main_update long_integer_env empty_world =
   (Err ValueError, with_request GITHUB_URL empty_world)) /\
  (catalog_accepted surrogate_env (urlopen surrogate_env [] GITHUB_URL) surrogate_catalog /\
   fst (fetch_original_plugin_data surrogate_env empty_world) = Err UnicodeEncodeError /\
   fst (main_update surrogate_env empty_world) = Err UnicodeEncodeError).
Proof.
  split.
  - split; [reflexivity|]. split; [reflexivity|]. split; vm_compute; reflexivity.
  - split; [|split; vm_compute; reflexivity].
    exists surrogate_catalog_body. split; [reflexivity|].
    split; [vm_compute; reflexivity|]. split; [vm_compute; lia|].
    split; [vm_compute; reflexivity|discriminate].
Qed.

(** ** Malformed cache entries *)

(** C8 (the code departs from it). A cache entry whose [stars] is the text
    ["abc"] is not skipped: indexing the cache raises [ValueError] out of
    [get_repo_info], before any repository is asked, whatever the catalog. *)
Theorem text_stars_aborts_enrichment (E : Env) (original_plugins : dict)
    (has_existing_cache : bool) (w : World) :
  get_repo_info E original_plugins text_stars_cache has_existing_cache w =
  (Err ValueError, w).
Proof. reflexivity. Qed.

(** The same cache on disk ends the whole update of the sample run: the
    merge is not reached and the persisted catalog stays as it was. *)
Lemma text_stars_aborts_run :
  let w := mkWorld [] [] 0
             (fs_write (fun _ => None) "plugin_cache_original.json"
                (FileJson text_stars_cache)) in
  fst (main_update sample_env w) = Err ValueError /\
  files (snd (main_update sample_env w)) "plugin_cache_original.json" =
  Some (FileJson text_stars_cache).
Proof. vm_compute. split; reflexivity. Qed.

(** A cache entry without a repository URL is passed over by the cache index,
    but its text [stars] raises [ValueError] in the merge when the fetch of the
    plugin's repository did not succeed. *)
Lemma text_stars_aborts_merge (w : World) :
  build_cache_by_repo (normalize_cache (JObj [("p1", JObj [("stars", JStr "abc")])]))
  = Ok [] /\
  transform_plugin_data flaky_catalog flaky_repo_info
    (JObj [("p1", JObj [("stars", JStr "abc")])]) w = (Err ValueError, w).
Proof. split; reflexivity. Qed.

(** A catalog entry whose [repo] is a list is skipped by the enrichment
    ([isinstance(repo_url, str)]) but raises [TypeError] in the merge. *)
Lemma list_repo_aborts_merge (w : World) :
  collect_repo_urls (map snd list_repo_catalog) [] = [] /\
  transform_plugin_data list_repo_catalog [] (JObj []) w = (Err TypeError, w).
Proof. split; reflexivity. Qed.

(** What the loops do skip: values that are no objects, in the cache index,
    the URL collection and the merge. *)
Lemma non_object_values_skipped (v : json) (rest : list json) (result : dict)
    (urls : list string) (repo_info cache : dict) (key : string) :
  is_dict v = false ->
  build_cache_by_repo_loop (v :: rest) result = build_cache_by_repo_loop rest result /\
  collect_repo_urls (v :: rest) urls = collect_repo_urls rest urls /\
  transform_entry repo_info cache key v = Ok None.
Proof. intros Hv. destruct v; try discriminate; repeat split; reflexivity. Qed.

(** * Further properties *)

(** ** The merge: order, shape and stability of the result *)

Lemma transform_plugin_data_loop (original_plugins repo_info : dict)
    (existing_cache_raw : json) (w w' : World) (result : dict) :
  transform_plugin_data original_plugins repo_info existing_cache_raw w = (Ok result, w') ->
  transform_loop repo_info (normalize_cache existing_cache_raw) original_plugins [] = Ok result
  /\ w' = after_transform result w.
Proof.
  unfold transform_plugin_data, bind, lift.
  destruct (transform_loop _ _ _ _) as [out|e]; [|discriminate].
  cbv [write_json ret]. destruct (summary_counts repo_info); [|discriminate].
  intros [= <- Hw]. split; [reflexivity|]. symmetry. exact Hw.
Qed.

Lemma dict_has_set (d : dict) (k k' : string) (v : json) :
  dict_has (dict_set d k v) k' = (k =? k')%string || dict_has d k'.
Proof. unfold dict_has. rewrite dict_lookup_set. now destruct (k =? k')%string. Qed.

(** Setting a key the dict does not have appends it. *)
Lemma dict_set_fresh (d : dict) (k : string) (v : json) :
  dict_has d k = false -> dict_set d k v = (d ++ [(k, v)])%list.
Proof.
  unfold dict_has. induction d as [|[k0 v0] d IH]; simpl; [reflexivity|].
  destruct (k0 =? k)%string; [discriminate|]. intros H. now rewrite IH.
Qed.

Lemma filter_map_fst (P : string -> bool) (d : dict) :
  filter P (map fst d) = map fst (filter (fun kv => P (fst kv)) d).
Proof.
  induction d as [|[k v] d IH]; simpl; [reflexivity|].
  destruct (P k); simpl; now rewrite IH.
Qed.

(** A loop that returns has returned from each of its iterations. *)
Lemma transform_loop_entries (repo_info cache : dict) (items : list (string * json)) :
  forall result out,
    transform_loop repo_info cache items result = Ok out ->
    forall k v, In (k, v) items -> exists e, transform_entry repo_info cache k v = Ok e.
Proof.
  induction items as [|[k0 v0] rest IH]; intros result out Hrun k v Hin; [contradiction|].
  simpl in Hrun.
  destruct (transform_entry repo_info cache k0 v0) as [e|x] eqn:He;
    cbn [res_bind] in Hrun; [|discriminate].
  destruct Hin as [[= <- <-]|Hin]; [now exists e|]. exact (IH _ _ Hrun _ _ Hin).
Qed.

(** The keys of the result: those it had, then the keys of the kept items. *)
Lemma transform_loop_keys (repo_info cache : dict) (items : list (string * json)) :
  forall result out,
    keys_distinct items = true ->
    (forall k v, In (k, v) items -> dict_has result k = false) ->
    transform_loop repo_info cache items result = Ok out ->
    map fst out = (map fst result ++ map fst (filter (entry_kept repo_info cache) items))%list.
Proof.
  induction items as [|[k0 v0] rest IH]; intros result out Hd Hfresh Hrun.
  - injection Hrun as <-. simpl. now rewrite app_nil_r.
  - simpl in Hd. apply andb_true_iff in Hd as [Hk0 Hd]. apply negb_true_iff in Hk0.
    simpl in Hrun. cbn [filter]. unfold entry_kept at 1. cbn [fst snd].
    destruct (transform_entry repo_info cache k0 v0) as [[np|]|x] eqn:He;
      cbn [res_bind] in Hrun; [| |discriminate].
    + assert (Hfresh' : forall k v, In (k, v) rest ->
                          dict_has (dict_set result k0 (JObj np)) k = false).
      { intros k v Hin. rewrite dict_has_set.
        destruct (k0 =? k)%string eqn:Hk.
        - apply String.eqb_eq in Hk. subst k.
          rewrite (in_dict_has _ _ _ Hin) in Hk0. discriminate.
        - simpl. apply (Hfresh k v). now right. }
      rewrite (IH _ _ Hd Hfresh' Hrun).
      rewrite (dict_set_fresh result k0 (JObj np)) by (apply (Hfresh k0 v0); now left).
      rewrite map_app. simpl. rewrite <- app_assoc. reflexivity.
    + apply (IH _ _ Hd); [|exact Hrun]. intros k v Hin. apply (Hfresh k v). now right.
Qed.

(** An item is kept exactly when its key is in the result. *)
Lemma entry_kept_in_result (repo_info cache items : dict) (out : dict) :
  keys_distinct items = true ->
  transform_loop repo_info cache items [] = Ok out ->
  forall k v, In (k, v) items -> entry_kept repo_info cache (k, v) = dict_has out k.
Proof.
  intros Hd Hrun k v Hin.
  destruct (transform_loop_lookup repo_info cache items Hd
              (transform_loop_entries _ _ _ _ _ Hrun) [])
    as (out' & Hout' & Hlookup).
  rewrite Hrun in Hout'. injection Hout' as <-.
  unfold dict_has. rewrite Hlookup, (in_dict_lookup _ _ _ Hd Hin).
  unfold entry_kept. cbn [fst snd].
  destruct (transform_entry repo_info cache k v) as [[np|]|x]; reflexivity.
Qed.

(** X1. The merge keeps the order of the catalog: the keys of the result are
    the keys of the catalog that survive, in the order the catalog has them. *)
Theorem merge_keeps_catalog_order (original_plugins repo_info : dict)
    (existing_cache_raw : json) (w w' : World) (result : dict) :
  keys_distinct original_plugins = true ->
  transform_plugin_data original_plugins repo_info existing_cache_raw w = (Ok result, w') ->
  map fst result = filter (dict_has result) (map fst original_plugins).
Proof.
  intros Hd Hrun. apply transform_plugin_data_loop in Hrun as [Hloop _].
  rewrite (transform_loop_keys _ _ _ [] _ Hd (fun _ _ _ => eq_refl) Hloop).
  rewrite filter_map_fst. simpl. f_equal. apply filter_ext_in.
  intros [k v] Hin. exact (entry_kept_in_result _ _ _ _ Hd Hloop k v Hin).
Qed.

(** The sample merge: of [p1 .. p5], [p1] and [p3] survive, in that order. *)
Lemma merge_keeps_catalog_order_witness :
  keys_distinct sample_catalog = true /\
  transform_plugin_data sample_catalog sample_repo_info sample_cache empty_world =
  (Ok sample_merged, after_transform sample_merged empty_world) /\
  map fst sample_merged = ["p1"; "p3"] /\
  filter (dict_has sample_merged) (map fst sample_catalog) = ["p1"; "p3"].
Proof.
  assert (Hd : keys_distinct sample_catalog = true) by reflexivity.
  assert (Hrun : transform_plugin_data sample_catalog sample_repo_info sample_cache empty_world =
                 (Ok sample_merged, after_transform sample_merged empty_world))
    by (vm_compute; reflexivity).
  split; [exact Hd|]. split; [exact Hrun|]. split; [reflexivity|].
  rewrite <- (merge_keeps_catalog_order _ _ _ _ _ _ Hd Hrun). reflexivity.
Defined.

Lemma py_or_default_truthy (a b d : json) :
  py_truthy d = true -> py_truthy (py_or a (py_or b d)) = true.
Proof.
  intros Hd. unfold py_or.
  destruct (py_truthy a) eqn:Ha; [exact Ha|].
  destruct (py_truthy b) eqn:Hb; [exact Hb|exact Hd].
Qed.

Lemma truthy_guard (u : json) :
  match (if py_truthy u then Some u else None) with
  | Some v => py_truthy v
  | None => true
  end = true.
Proof. destruct (py_truthy u) eqn:Hu; [exact Hu|reflexivity]. Qed.

Lemma merge_entry_merged (repo_entry : json) (cache_entry plugin new_plugin : dict) :
  merge_entry repo_entry cache_entry plugin = Ok (Some new_plugin) ->
  is_merged_entry (JObj new_plugin) = true.
Proof.
  unfold merge_entry. destruct (_ && _); [discriminate|].
  destruct (if _ && _ then _ else _) as [stars|e]; cbn [res_bind]; [|discriminate].
  intros [= <-].
  unfold is_merged_entry, is_persisted_entry, absent_or_nonempty, merged_keys, py_get,
    py_get_def.
  cbn [forallb]. unfold dict_has.
  rewrite new_plugin_desc, new_plugin_author, new_plugin_repo, new_plugin_tags,
    new_plugin_stars, new_plugin_version, new_plugin_updated_at, new_plugin_logo.
  cbn [andb]. rewrite py_or_default_truthy by reflexivity. rewrite !truthy_guard.
  reflexivity.
Qed.

Lemma transform_entry_merged (repo_info cache : dict) (key : string) (plugin : json)
    (new_plugin : dict) :
  transform_entry repo_info cache key plugin = Ok (Some new_plugin) ->
  is_merged_entry (JObj new_plugin) = true.
Proof.
  destruct plugin as [| | | | | |p]; try discriminate.
  unfold transform_entry.
  destruct (py_get_any repo_info (py_get_def p "repo" (JStr ""))) as [repo_entry|e];
    cbn [res_bind]; [|discriminate].
  apply merge_entry_merged.
Qed.

Lemma transform_loop_merged (repo_info cache : dict) (items : list (string * json)) :
  forall result out,
    forallb (fun kv => is_merged_entry (snd kv)) result = true ->
    transform_loop repo_info cache items result = Ok out ->
    forallb (fun kv => is_merged_entry (snd kv)) out = true.
Proof.
  induction items as [|[key plugin] rest IH]; intros result out Hresult; simpl.
  - now intros [= <-].
  - destruct (transform_entry repo_info cache key plugin) as [entry|e] eqn:Hentry;
      cbn [res_bind]; [|discriminate].
    apply IH. destruct entry as [new_plugin|]; [|exact Hresult].
    apply forallb_dict_set; [exact Hresult|].
    exact (transform_entry_merged _ _ _ _ _ Hentry).
Qed.

(** X2. Whatever the inputs, every entry of a catalog the merge returns is an
    object that has the keys [desc], [author], [repo], [tags], [stars] and
    [version], with an integer [stars] and a [version] that is not empty; its
    [updated_at] and its [logo] are absent or not empty. *)
Theorem merged_entries_shape (original_plugins repo_info : dict)
    (existing_cache_raw : json) (w w' : World) (result : dict) (key : string)
    (entry : json) :
  transform_plugin_data original_plugins repo_info existing_cache_raw w = (Ok result, w') ->
  dict_lookup result key = Some entry ->
  exists fields stars,
    entry = JObj fields /\
    (forall k, In k merged_keys -> dict_has fields k = true) /\
    dict_lookup fields "stars" = Some (JInt stars) /\
    py_truthy (py_get fields "version") = true /\
    (forall v, dict_lookup fields "updated_at" = Some v -> py_truthy v = true) /\
    (forall v, dict_lookup fields "logo" = Some v -> py_truthy v = true).
Proof.
  intros Hrun Hkey. apply transform_plugin_data_loop in Hrun as [Hloop _].
  pose proof (transform_loop_merged _ _ _ [] _ eq_refl Hloop) as Hall.
  pose proof (forallb_lookup is_merged_entry _ _ _ Hall Hkey) as Hentry.
  destruct entry as [| | | | | |fields]; try discriminate.
  unfold is_merged_entry in Hentry.
  apply andb_true_iff in Hentry as [Hentry Hlogo].
  apply andb_true_iff in Hentry as [Hentry Hupdated].
  apply andb_true_iff in Hentry as [Hentry Hversion].
  apply andb_true_iff in Hentry as [Hkeys Hstars].
  unfold is_persisted_entry in Hstars.
  destruct (dict_lookup fields "stars") as [[| |stars| | | |]|] eqn:Hs; try discriminate.
  exists fields, stars. split; [reflexivity|].
  split; [rewrite forallb_forall in Hkeys; exact Hkeys|].
  split; [exact Hs|]. split; [exact Hversion|].
  unfold absent_or_nonempty in Hupdated, Hlogo.
  split; intros v Hv; rewrite Hv in *; assumption.
Qed.

(** The sample merge: the entry of [p3] has lost its stale [logo]. *)
Lemma merged_entries_shape_witness :
  transform_plugin_data sample_catalog sample_repo_info sample_cache empty_world =
  (Ok sample_merged, after_transform sample_merged empty_world) /\
  exists entry fields,
    dict_lookup sample_merged "p3" = Some entry /\
    entry = JObj fields /\
    dict_lookup fields "stars" = Some (JInt 10) /\
    dict_has fields "tags" = true /\
    dict_lookup fields "logo" = None.
Proof.
  assert (Hrun : transform_plugin_data sample_catalog sample_repo_info sample_cache empty_world =
                 (Ok sample_merged, after_transform sample_merged empty_world))
    by (vm_compute; reflexivity).
  split; [exact Hrun|].
  destruct (merged_entries_shape _ _ _ _ _ _ "p3" _ Hrun eq_refl)
    as (fields & stars & Hentry & Hkeys & Hstars & _).
  eexists _, fields. split; [reflexivity|]. split; [exact Hentry|].
  injection Hentry as <-.
  split; [reflexivity|]. split; reflexivity.
Defined.

(** *** Feeding the merge its own result *)

Lemma normalize_cache_plain (d : dict) :
  dict_has d "data" = false -> normalize_cache (JObj d) = d.
Proof.
  unfold dict_has, normalize_cache, py_get, py_get_def.
  destruct (dict_lookup d "data"); [discriminate|reflexivity].
Qed.

Lemma transform_loop_result_lookup (repo_info cache items : dict) (out : dict) :
  keys_distinct items = true ->
  transform_loop repo_info cache items [] = Ok out ->
  forall k,
    dict_lookup out k =
    match dict_lookup items k with
    | Some v =>
        match transform_entry repo_info cache k v with
        | Ok (Some new_plugin) => Some (JObj new_plugin)
        | _ => None
        end
    | None => None
    end.
Proof.
  intros Hd Hrun k.
  destruct (transform_loop_lookup repo_info cache items Hd
              (transform_loop_entries _ _ _ _ _ Hrun) [])
    as (out' & Hout' & Hlookup).
  rewrite Hrun in Hout'. injection Hout' as <-. exact (Hlookup k).
Qed.

Lemma transform_loop_ext (repo_info cache1 cache2 : dict) (items : list (string * json)) :
  (forall k v, In (k, v) items ->
               transform_entry repo_info cache1 k v = transform_entry repo_info cache2 k v) ->
  forall result,
    transform_loop repo_info cache1 items result = transform_loop repo_info cache2 items result.
Proof.
  induction items as [|[k0 v0] rest IH]; intros Hext result; [reflexivity|].
  simpl. rewrite (Hext k0 v0) by now left.
  destruct (transform_entry repo_info cache2 k0 v0) as [e|x]; cbn [res_bind]; [|reflexivity].
  apply IH. intros k v Hin. apply Hext. now right.
Qed.

Lemma first_nonempty_again (a b d : json) :
  py_truthy d = true ->
  match first_nonempty a (match first_nonempty a b with Some v => v | None => d end) with
  | Some v => v
  | None => d
  end = match first_nonempty a b with Some v => v | None => d end.
Proof.
  intros Hd. unfold first_nonempty.
  destruct (py_truthy a) eqn:Ha; [reflexivity|].
  destruct (py_truthy b) eqn:Hb.
  - now rewrite Hb.
  - now rewrite Hd.
Qed.

Lemma first_nonempty_kept (a b : json) :
  first_nonempty a
    match (if py_truthy (match first_nonempty a b with Some v => v | None => JStr "" end)
           then Some (match first_nonempty a b with Some v => v | None => JStr "" end)
           else None) with
    | Some v => v
    | None => JNull
    end = first_nonempty a b.
Proof.
  unfold first_nonempty.
  destruct (py_truthy a) eqn:Ha; [reflexivity|].
  destruct (py_truthy b) eqn:Hb; simpl; rewrite ?Hb; reflexivity.
Qed.

(** With the entry a merge wrote as the cache entry of the next merge, the
    policy decides and computes the same. *)
Lemma spec_merge_stable (info : option json) (cache1 cache2 : dict) (key : string)
    (plugin : dict) :
  dict_lookup cache2 key =
    (if spec_dropped info cache1 key then None
     else Some (JObj (build_new_plugin plugin
                        (spec_stars info cache1 key)
                        (spec_version info cache1 key)
                        (match spec_optional info cache1 key "updated_at" with
                         | Some v => v | None => JStr "" end)
                        (match spec_optional info cache1 key "logo" with
                         | Some v => v | None => JStr "" end)))) ->
  spec_dropped info cache2 key = spec_dropped info cache1 key /\
  (spec_dropped info cache1 key = false ->
   spec_stars info cache2 key = spec_stars info cache1 key /\
   spec_version info cache2 key = spec_version info cache1 key /\
   spec_optional info cache2 key "updated_at" = spec_optional info cache1 key "updated_at" /\
   spec_optional info cache2 key "logo" = spec_optional info cache1 key "logo").
Proof.
  destruct (spec_dropped info cache1 key) eqn:HD; intros Hk.
  - split; [|discriminate]. unfold spec_dropped in *.
    destruct info as [i|]; [|discriminate].
    unfold has_cache_entry. rewrite Hk.
    destruct (status_of i =? "deleted")%string; [reflexivity|].
    destruct (status_of i =? "success")%string; [discriminate|reflexivity].
  - set (np := build_new_plugin _ _ _ _ _) in Hk.
    assert (Hfield : forall k, cache_field cache2 key k = py_get np k).
    { intros k. unfold cache_field. now rewrite Hk. }
    assert (Hhas : has_cache_entry cache2 key = true).
    { unfold has_cache_entry. rewrite Hk.
      pose proof (new_plugin_stars plugin (spec_stars info cache1 key)
                    (spec_version info cache1 key)
                    (match spec_optional info cache1 key "updated_at" with
                     | Some v => v | None => JStr "" end)
                    (match spec_optional info cache1 key "logo" with
                     | Some v => v | None => JStr "" end)) as Hs.
      fold np in Hs. destruct np; [discriminate|reflexivity]. }
    split.
    + unfold spec_dropped in *. destruct info as [i|]; [|reflexivity].
      rewrite Hhas. apply orb_false_iff in HD as [Hdel _]. rewrite Hdel.
      cbn [negb orb]. now rewrite andb_false_r.
    + intros _. split; [|split; [|split]].
      * unfold spec_stars at 1. rewrite Hfield. unfold py_get, py_get_def.
        subst np. rewrite new_plugin_stars. cbn [int_or_zero].
        destruct info as [i|]; [|reflexivity].
        destruct (status_of i =? "success")%string eqn:Hs; [|reflexivity].
        unfold spec_stars. now rewrite Hs.
      * unfold spec_version at 1. rewrite Hfield. unfold py_get, py_get_def.
        subst np. rewrite new_plugin_version. unfold spec_version.
        now apply first_nonempty_again.
      * unfold spec_optional at 1. rewrite Hfield. unfold py_get, py_get_def.
        subst np. rewrite new_plugin_updated_at. unfold spec_optional.
        apply first_nonempty_kept.
      * unfold spec_optional at 1. rewrite Hfield. unfold py_get, py_get_def.
        subst np. rewrite new_plugin_logo. unfold spec_optional.
        apply first_nonempty_kept.
Qed.

(** X3. The merge is stable: for a well-formed catalog with no plugin keyed
    [data], well-formed RepoInfo and cache, a merge that is run again on the
    same catalog and RepoInfo, with the catalog it has just persisted as its
    cache, returns and persists that same catalog. *)
Theorem merge_is_stable (original_plugins repo_info : dict) (existing_cache_raw : json)
    (w w' : World) (result : dict) :
  keys_distinct original_plugins = true ->
  catalog_ok original_plugins = true ->
  repo_info_ok repo_info = true ->
  cache_ok (normalize_cache existing_cache_raw) = true ->
  dict_has original_plugins "data" = false ->
  transform_plugin_data original_plugins repo_info existing_cache_raw w = (Ok result, w') ->
  forall w2,
    transform_plugin_data original_plugins repo_info (JObj result) w2 =
    (Ok result, after_transform result w2).
Proof.
  intros Hd Hcatalog Hinfo Hcache Hdata Hrun w2.
  destruct (transform_plugin_data_entries original_plugins repo_info existing_cache_raw w
              Hd Hcatalog Hinfo Hcache) as (result' & Hrun' & Hentries).
  rewrite Hrun in Hrun'. injection Hrun' as <- _.
  destruct (merged_catalog_is_cache _ _ _ _ _ _ Hrun) as [Hcache2 _].
  apply transform_plugin_data_loop in Hrun as [Hloop _].
  assert (Hplain : normalize_cache (JObj result) = result).
  { apply normalize_cache_plain. unfold dict_has in *.
    rewrite (transform_loop_result_lookup _ _ _ _ Hd Hloop).
    destruct (dict_lookup original_plugins "data"); [discriminate|reflexivity]. }
  unfold transform_plugin_data. rewrite Hplain.
  rewrite (transform_loop_ext repo_info result (normalize_cache existing_cache_raw)).
  - unfold bind, lift. rewrite Hloop, (summary_counts_ok _ Hinfo). reflexivity.
  - intros k v Hin.
    assert (Hv : is_catalog_value v = true).
    { unfold catalog_ok in Hcatalog. rewrite forallb_forall in Hcatalog.
      exact (Hcatalog _ Hin). }
    destruct v as [| | | | | |p]; try reflexivity.
    rewrite (transform_entry_refines _ _ _ _ Hv Hinfo Hcache2),
      (transform_entry_refines _ _ _ _ Hv Hinfo Hcache).
    cbv zeta. specialize (Hentries k p Hin). cbv zeta in Hentries.
    destruct (spec_merge_stable _ _ _ _ _ Hentries) as [HD Hfields].
    rewrite HD. destruct (spec_dropped _ (normalize_cache existing_cache_raw) k);
      [reflexivity|].
    destruct (Hfields eq_refl) as (-> & -> & -> & ->). reflexivity.
Qed.

(** The sample merge, run again on what it wrote. *)
Lemma merge_is_stable_witness :
  (keys_distinct sample_catalog = true /\
   catalog_ok sample_catalog = true /\
   repo_info_ok sample_repo_info = true /\
   cache_ok (normalize_cache sample_cache) = true /\
   dict_has sample_catalog "data" = false /\
   transform_plugin_data sample_catalog sample_repo_info sample_cache empty_world =
   (Ok sample_merged, after_transform sample_merged empty_world)) /\
  transform_plugin_data sample_catalog sample_repo_info (JObj sample_merged) empty_world =
  (Ok sample_merged, after_transform sample_merged empty_world).
Proof.
  assert (Hrun : transform_plugin_data sample_catalog sample_repo_info sample_cache empty_world =
                 (Ok sample_merged, after_transform sample_merged empty_world))
    by (vm_compute; reflexivity).
  split.
  - repeat (split; [reflexivity|]). exact Hrun.
  - apply (merge_is_stable sample_catalog sample_repo_info sample_cache empty_world
             (after_transform sample_merged empty_world) sample_merged);
      first [exact Hrun|reflexivity].
Defined.

(** A plugin keyed [data] is the exception: when the persisted catalog is read
    back, [normalize_cache] takes the entry under [data] for the whole cache,
    and the plugin, kept by the first merge from its cache entry, is dropped
    by the second. *)
Example data_key_is_not_stable :
  let catalog := [("data", JObj [("repo", JStr "https://github.com/acme/flaky")])] in
  let cache := JObj [("data", JObj [("data", JObj [("stars", JInt 10)])])] in
  exists kept,
    fst (transform_plugin_data catalog flaky_repo_info cache empty_world) = Ok kept /\
    dict_has kept "data" = true /\
    fst (transform_plugin_data catalog flaky_repo_info (JObj kept) empty_world) = Ok [].
Proof. eexists. split; [vm_compute; reflexivity|]. split; reflexivity. Qed.

(** ** What a run does to the files *)

Section Respects.

Variable R : World -> World -> Prop.
Hypothesis R_refl : forall w, R w w.
Hypothesis R_trans : forall w1 w2 w3, R w1 w2 -> R w2 w3 -> R w1 w3.

Lemma respects_ret {A} (a : A) : respects R (ret a).
Proof. intros w r w' [= _ <-]. apply R_refl. Qed.

Lemma respects_lift {A} (x : res A) : respects R (lift x).
Proof. intros w r w' [= _ <-]. apply R_refl. Qed.

Lemma respects_bind {A B} (m : M A) (k : A -> M B) :
  respects R m -> (forall a, respects R (k a)) -> respects R (bind m k).
Proof.
  intros Hm Hk w r w'. unfold bind.
  destruct (m w) as [[a|e] w1] eqn:Hrun.
  - intros Hrest. exact (R_trans _ _ _ (Hm _ _ _ Hrun) (Hk a _ _ _ Hrest)).
  - intros [= _ <-]. exact (Hm _ _ _ Hrun).
Qed.

(** A task in the pool does to the world what it does outside. *)
Lemma respects_submit {A} (m : M A) : respects R m -> respects R (submit m).
Proof.
  intros Hm w r w'. unfold submit. destruct (m w) as [r0 w0] eqn:Hrun.
  intros [= _ <-]. exact (Hm _ _ _ Hrun).
Qed.

End Respects.

Lemma files_agree_refl (paths : list string) (w : World) : files_agree_except paths w w.
Proof. intros p _. reflexivity. Qed.

Lemma files_agree_trans (paths : list string) (w1 w2 w3 : World) :
  files_agree_except paths w1 w2 -> files_agree_except paths w2 w3 ->
  files_agree_except paths w1 w3.
Proof. intros H12 H23 p Hp. now rewrite (H23 p Hp), (H12 p Hp). Qed.

Lemma files_agree_same (paths : list string) (w w' : World) :
  files w' = files w -> files_agree_except paths w w'.
Proof. intros Heq p _. now rewrite Heq. Qed.

(** The steps of a computation are looked at one by one. *)
Ltac frame_steps refl trans :=
  repeat first
    [ apply (respects_ret _ refl)
    | apply (respects_lift _ refl)
    | assumption
    | apply (respects_bind _ trans); [|intro]
    | match goal with
      | |- respects _ (match ?x with _ => _ end) => destruct x
      end ].

Section FileFrames.

Variable E : Env.
Variable paths : list string.

Lemma write_json_frame (path : string) (data : json) :
  In path paths -> respects (files_agree_except paths) (write_json path data).
Proof.
  intros Hin w r w' [= _ <-] p Hp. cbn [files]. unfold fs_write.
  destruct (p =? path)%string eqn:Heq; [|reflexivity].
  apply String.eqb_eq in Heq. subst p. contradiction.
Qed.

(** Written or not, only the file at [path] changes. *)
Lemma save_json_frame (path : string) (data : json) :
  In path paths -> respects (files_agree_except paths) (save_json path data).
Proof.
  intros Hin w r w'. unfold save_json.
  destruct (json_encodable data); [now apply write_json_frame|].
  intros [= _ <-] p Hp. cbn [files]. unfold fs_write.
  destruct (p =? path)%string eqn:Heq; [|reflexivity].
  apply String.eqb_eq in Heq. subst p. contradiction.
Qed.

Lemma load_json_frame (path : string) (fallback : json) :
  respects (files_agree_except paths) (load_json path fallback).
Proof.
  intros w r w'. unfold load_json.
  destruct (files w path) as [[v|]|]; intros [= _ <-]; apply files_agree_refl.
Qed.

Lemma path_exists_frame (path : string) :
  respects (files_agree_except paths) (path_exists path).
Proof. intros w r w' [= _ <-]. apply files_agree_refl. Qed.

Lemma urlopen_call_frame (url : string) :
  respects (files_agree_except paths) (urlopen_call E url).
Proof. intros w r w' [= _ <-]. now apply files_agree_same. Qed.

Lemma http_get_json_frame (url : string) :
  respects (files_agree_except paths) (http_get_json E url).
Proof. intros w r w' [= _ <-]. now apply files_agree_same. Qed.

Lemma pause_files_frame (attempt : Z) :
  respects (files_agree_except paths) (pause E attempt).
Proof.
  intros w r w' Hrun. apply files_agree_same. exact (proj2 (pause_frame E _ _ _ _ Hrun)).
Qed.

Create HintDb frames.

#[local] Hint Resolve write_json_frame save_json_frame load_json_frame path_exists_frame
  urlopen_call_frame http_get_json_frame pause_files_frame : frames.

Ltac frame :=
  frame_steps (files_agree_refl paths) (files_agree_trans paths); auto with frames.

Lemma fetch_repo_loop_frame (url : string) (remaining : nat) :
  forall attempt, respects (files_agree_except paths) (fetch_repo_loop E url remaining attempt).
Proof.
  induction remaining as [|remaining IH]; intros attempt; cbn [fetch_repo_loop].
  - frame.
  - apply (respects_bind _ (files_agree_trans paths)); [apply pause_files_frame|intros _].
    apply (respects_bind _ (files_agree_trans paths)); [apply http_get_json_frame|].
    intros [payload status].
    repeat match goal with
           | |- respects _ (if ?b then _ else _) => destruct b
           end; try apply IH; apply (respects_ret _ (files_agree_refl paths)).
Qed.

Lemma extract_version_loop_frame (owner repo : string) (metadata_files : list string) :
  respects (files_agree_except paths) (extract_version_loop E owner repo metadata_files).
Proof.
  induction metadata_files as [|metadata_file rest IH]; cbn [extract_version_loop].
  - frame.
  - apply (respects_bind _ (files_agree_trans paths)); [apply http_get_json_frame|].
    intros [payload status].
    destruct (negb (status =? 200) || negb (is_dict payload)); [exact IH|].
    destruct (get_if_dict payload "content" JNull); try exact IH.
    destruct (s =? "")%string; [exact IH|].
    destruct (search_version E s); [|exact IH].
    apply (respects_ret _ (files_agree_refl paths)).
Qed.

Lemma extract_logo_frame (owner repo : string) (default_branch : json) :
  respects (files_agree_except paths) (extract_logo E owner repo default_branch).
Proof.
  unfold extract_logo.
  apply (respects_bind _ (files_agree_trans paths)); [apply http_get_json_frame|].
  intros [payload status]. frame.
Qed.

Lemma process_repo_frame (repo_url : string) (cache_by_repo : dict)
    (has_existing_cache : bool) :
  respects (files_agree_except paths)
    (process_repo E repo_url cache_by_repo has_existing_cache).
Proof.
  unfold process_repo.
  destruct (REPO_URL_RE_match repo_url) as [[owner repo]|]; [|frame].
  apply (respects_bind _ (files_agree_trans paths)); [apply fetch_repo_loop_frame|].
  intros [payload status].
  destruct ((status =? "success")%string && is_dict payload).
  - apply (respects_bind _ (files_agree_trans paths));
      [apply (respects_lift _ (files_agree_refl paths))|intros stars].
    apply (respects_bind _ (files_agree_trans paths));
      [apply extract_version_loop_frame|intros version].
    apply (respects_bind _ (files_agree_trans paths));
      [apply extract_logo_frame|intros logo].
    frame.
  - cbv zeta. frame.
Qed.

Lemma run_tasks_frame (repo_urls : list string) (cache_by_repo : dict)
    (has_existing_cache : bool) :
  respects (files_agree_except paths)
    (run_tasks E repo_urls cache_by_repo has_existing_cache).
Proof.
  induction repo_urls as [|url rest IH]; cbn [run_tasks].
  - frame.
  - apply (respects_bind _ (files_agree_trans paths));
      [apply respects_submit, process_repo_frame|intros outcome].
    apply (respects_bind _ (files_agree_trans paths)); [exact IH|intros futures].
    frame.
Qed.

Lemma get_repo_info_frame (original_plugins : dict) (existing_cache : json)
    (has_existing_cache : bool) :
  In "repo_info.json" paths ->
  respects (files_agree_except paths)
    (get_repo_info E original_plugins existing_cache has_existing_cache).
Proof.
  intros Hin. unfold get_repo_info. cbv zeta.
  apply (respects_bind _ (files_agree_trans paths));
    [apply (respects_lift _ (files_agree_refl paths))|intros cache_by_repo].
  apply (respects_bind _ (files_agree_trans paths));
    [apply (respects_lift _ (files_agree_refl paths))|intros _].
  apply (respects_bind _ (files_agree_trans paths)); [apply run_tasks_frame|intros futures].
  apply (respects_bind _ (files_agree_trans paths));
    [apply (respects_lift _ (files_agree_refl paths))|intros ri].
  apply (respects_bind _ (files_agree_trans paths)); [now apply save_json_frame|intros _].
  frame.
Qed.

Lemma fetch_original_plugin_data_frame :
  In "original_plugins.json" paths ->
  respects (files_agree_except paths) (fetch_original_plugin_data E).
Proof.
  intros Hin. unfold fetch_original_plugin_data.
  apply (respects_bind _ (files_agree_trans paths)); [apply urlopen_call_frame|intros r].
  destruct r as [status body| |]; [|frame|frame].
  destruct (negb (status =? 200)); [frame|].
  destruct (is_blank body); [frame|].
  destruct (String.length body <? 50)%nat; [frame|].
  destruct (json_loads E body) as [data|]; [|frame].
  destruct (is_empty_data data); [frame|].
  destruct data; frame.
Qed.

Lemma load_existing_cache_frame :
  In "existing_cache.json" paths ->
  respects (files_agree_except paths) (load_existing_cache).
Proof.
  intros Hin. unfold load_existing_cache.
  apply (respects_bind _ (files_agree_trans paths)); [apply path_exists_frame|intros present].
  destruct present; [|frame].
  apply (respects_bind _ (files_agree_trans paths)); [apply load_json_frame|intros cache].
  apply (respects_bind _ (files_agree_trans paths)); [now apply save_json_frame|intros _].
  frame.
Qed.

End FileFrames.

Section RunFacts.

Variable E : Env.

Lemma transform_plugin_data_frame (paths : list string) (original_plugins repo_info : dict)
    (existing_cache_raw : json) :
  In "temp_plugin_cache_original.json" paths ->
  In "plugin_cache_original.json" paths ->
  respects (files_agree_except paths)
    (transform_plugin_data original_plugins repo_info existing_cache_raw).
Proof.
  intros Htemp Hcatalog. unfold transform_plugin_data.
  apply (respects_bind _ (files_agree_trans paths));
    [apply (respects_lift _ (files_agree_refl paths))|intros result].
  apply (respects_bind _ (files_agree_trans paths)); [now apply write_json_frame|intros _].
  apply (respects_bind _ (files_agree_trans paths)); [now apply write_json_frame|intros _].
  apply (respects_bind _ (files_agree_trans paths));
    [apply (respects_lift _ (files_agree_refl paths))|intros _].
  apply (respects_ret _ (files_agree_refl paths)).
Qed.

(** With RepoInfo records only, the merge raises before it writes. *)
Lemma transform_plugin_data_raises (original_plugins repo_info : dict)
    (existing_cache_raw : json) (w w' : World) (e : exn) :
  repo_info_ok repo_info = true ->
  transform_plugin_data original_plugins repo_info existing_cache_raw w = (Err e, w') ->
  w' = w.
Proof.
  intros Hinfo. unfold transform_plugin_data, bind, lift.
  destruct (transform_loop _ _ _ _) as [out|x]; [|now intros [= _ <-]].
  cbv [write_json ret]. rewrite (summary_counts_ok _ Hinfo). discriminate.
Qed.

Lemma main_update_frame (paths : list string) :
  (forall p, In p update_files -> In p paths) ->
  respects (files_agree_except paths) (main_update E).
Proof.
  intros Hsub. unfold main_update.
  apply (respects_bind _ (files_agree_trans paths)).
  { apply fetch_original_plugin_data_frame. apply Hsub. simpl. tauto. }
  intros [should_update original_plugins].
  destruct should_update; [|apply (respects_ret _ (files_agree_refl paths))].
  apply (respects_bind _ (files_agree_trans paths)).
  { apply load_existing_cache_frame. apply Hsub. simpl. tauto. }
  intros [has_existing_cache existing_cache].
  apply (respects_bind _ (files_agree_trans paths)).
  { apply get_repo_info_frame. apply Hsub. simpl. tauto. }
  intros repo_info.
  apply (respects_bind _ (files_agree_trans paths)).
  { apply transform_plugin_data_frame; apply Hsub; simpl; tauto. }
  intros _. apply (respects_ret _ (files_agree_refl paths)).
Qed.

(** X4. The update is all or nothing for the persisted catalog: when the
    update block of [main] returns after a merge, [plugin_cache_original.json]
    holds a catalog of merged entries; when it skips the update or raises,
    wherever it raises, the file is as it was before the run. *)
Theorem update_is_all_or_nothing (w w' : World) (r : res bool) :
  main_update E w = (r, w') ->
  match r with
  | Ok true =>
      exists result,
        files w' "plugin_cache_original.json" = Some (FileJson (JObj result)) /\
        forallb (fun kv => is_merged_entry (snd kv)) result = true
  | _ => files w' "plugin_cache_original.json" = files w "plugin_cache_original.json"
  end.
Proof.
  set (early := ["original_plugins.json"; "existing_cache.json"; "repo_info.json"]).
  assert (Hcatalog : ~ In "plugin_cache_original.json" early).
  { simpl. intros [H|[H|[H|[]]]]; discriminate. }
  unfold main_update. unfold bind at 1.
  destruct (fetch_original_plugin_data E w) as [[[should_update original_plugins]|e] w1]
    eqn:Hfetch.
  2: { intros [= <- <-].
       exact (fetch_original_plugin_data_frame E early (or_introl eq_refl) _ _ _ Hfetch
                _ Hcatalog). }
  pose proof (fetch_original_plugin_data_frame E early (or_introl eq_refl) _ _ _ Hfetch
                _ Hcatalog) as F1.
  destruct should_update; [|intros [= <- <-]; exact F1].
  unfold bind at 1.
  destruct (load_existing_cache w1) as [[[has_existing_cache existing_cache]|e] w2]
    eqn:Hload.
  2: { intros [= <- <-]. rewrite <- F1.
       exact (load_existing_cache_frame early (or_intror (or_introl eq_refl)) _ _ _ Hload
                _ Hcatalog). }
  pose proof (load_existing_cache_frame early (or_intror (or_introl eq_refl)) _ _ _ Hload
                _ Hcatalog) as F2.
  unfold bind at 1.
  destruct (get_repo_info E original_plugins existing_cache has_existing_cache w2)
    as [[repo_info|e] w3] eqn:Hinfo.
  2: { intros [= <- <-]. rewrite <- F1, <- F2.
       exact (get_repo_info_frame E early _ _ _
                (or_intror (or_intror (or_introl eq_refl))) _ _ _ Hinfo _ Hcatalog). }
  pose proof (get_repo_info_frame E early _ _ _
                (or_intror (or_intror (or_introl eq_refl))) _ _ _ Hinfo _ Hcatalog) as F3.
  pose proof (get_repo_info_records E _ _ _ _ _ _ Hinfo) as Hrecords.
  unfold bind at 1.
  destruct (transform_plugin_data original_plugins repo_info existing_cache w3)
    as [[result|e] w4] eqn:Hmerge.
  - unfold ret. intros [= <- <-].
    apply transform_plugin_data_loop in Hmerge as [Hloop ->].
    exists result. split; [reflexivity|].
    exact (transform_loop_merged _ _ _ [] _ eq_refl Hloop).
  - intros [= <- <-].
    rewrite (transform_plugin_data_raises _ _ _ _ _ _ Hrecords Hmerge).
    now rewrite F3, F2, F1.
Qed.

Lemma remove_existing_run (paths : list string) :
  forall w, exists w',
    remove_existing paths w = (Ok tt, w') /\
    forall p, files w' p = if existsb (String.eqb p) paths then None else files w p.
Proof.
  induction paths as [|path rest IH]; intros w.
  - exists w. split; reflexivity.
  - cbn [remove_existing]. unfold bind at 1, path_exists.
    set (w1 := snd ((if match files w path with Some _ => true | None => false end
                     then os_remove path else ret tt) w)).
    assert (Hstep : (if match files w path with Some _ => true | None => false end
                     then os_remove path else ret tt) w = (Ok tt, w1) /\
                    forall p, files w1 p = if (p =? path)%string then None else files w p).
    { subst w1. destruct (files w path) eqn:Hpath; cbn [snd os_remove ret files].
      - split; [reflexivity|]. intros p. reflexivity.
      - split; [reflexivity|]. intros p.
        destruct (p =? path)%string eqn:Hp; [|reflexivity].
        apply String.eqb_eq in Hp. now subst p. }
    destruct Hstep as [Hrun Hfiles].
    destruct (IH w1) as (w' & Hrest & Hfiles').
    exists w'. split.
    + unfold bind. rewrite Hrun. exact Hrest.
    + intros p. rewrite Hfiles', Hfiles. cbn [existsb].
      destruct (p =? path)%string; cbn [orb]; [|reflexivity].
      now destruct (existsb (String.eqb p) rest).
Qed.

Lemma clean_up_run (w : World) :
  exists w',
    clean_up w = (Ok tt, w') /\
    forall p, files w' p = if is_temp_file p then None else files w p.
Proof.
  destruct (remove_existing_run temp_files w) as (w1 & Hrun & Hfiles).
  eexists. split.
  - unfold clean_up, bind. rewrite Hrun. reflexivity.
  - intros p. cbn [files]. rewrite Hfiles. unfold is_temp_file.
    destruct (existsb (String.eqb p) temp_files); cbn [orb]; [|reflexivity].
    now destruct (glob_temp_api_headers p).
Qed.

(** X5. Whatever the update block of [main] did, returning or raising,
    [clean_up] after it returns, leaves [plugin_cache_original.json] as the
    update left it, and of every other file makes what it was before the run,
    or nothing when it is one of the temporary files: the files the update
    wrote besides the catalog are gone. *)
Theorem run_leaves_only_the_catalog (w w1 : World) (r : res bool) :
  main_update E w = (r, w1) ->
  fst (clean_up w1) = Ok tt /\
  files (snd (clean_up w1)) "plugin_cache_original.json"
  = files w1 "plugin_cache_original.json" /\
  forall p, p <> "plugin_cache_original.json" ->
            files (snd (clean_up w1)) p = if is_temp_file p then None else files w p.
Proof.
  intros Hrun. destruct (clean_up_run w1) as (w2 & Hclean & Hfiles).
  rewrite Hclean. cbn [fst snd]. split; [reflexivity|]. split.
  - rewrite Hfiles. reflexivity.
  - intros p Hp. rewrite Hfiles.
    destruct (is_temp_file p) eqn:Htemp; [reflexivity|].
    apply (main_update_frame update_files (fun _ H => H) _ _ _ Hrun).
    unfold is_temp_file in Htemp. apply orb_false_iff in Htemp as [Htemp _].
    cbn [existsb temp_files] in Htemp.
    repeat (apply orb_false_iff in Htemp as [? Htemp]).
    simpl. intros [<-|[<-|[<-|[<-|[<-|[]]]]]]; (discriminate || now apply Hp).
Qed.

End RunFacts.

(** The sample run on a catalog file with a text [stars]: the enrichment
    raises, and the file is as before. *)
Lemma update_is_all_or_nothing_witness :
  fst (main_update sample_env text_stars_world) = Err ValueError /\
  files (snd (main_update sample_env text_stars_world)) "plugin_cache_original.json"
  = Some (FileJson text_stars_cache).
Proof.
  assert (Hrun : main_update sample_env text_stars_world =
                 (Err ValueError, snd (main_update sample_env text_stars_world)))
    by (vm_compute; reflexivity).
  split; [vm_compute; reflexivity|].
  exact (update_is_all_or_nothing sample_env text_stars_world _ _ Hrun).
Defined.

(** The sample run from the sample world, then [clean_up]: the catalog is
    there, the files written on the way are not. *)
Lemma run_leaves_only_the_catalog_witness :
  fst (main_update sample_env sample_world) = Ok true /\
  files (snd (main_update sample_env sample_world)) "repo_info.json" <> None /\
  files (snd (clean_up (snd (main_update sample_env sample_world)))) "repo_info.json" = None /\
  files (snd (clean_up (snd (main_update sample_env sample_world)))) "notes.txt" = None /\
  files (snd (clean_up (snd (main_update sample_env sample_world))))
    "plugin_cache_original.json"
  = files (snd (main_update sample_env sample_world)) "plugin_cache_original.json".
Proof.
  assert (Hrun : main_update sample_env sample_world =
                 (Ok true, snd (main_update sample_env sample_world)))
    by (vm_compute; reflexivity).
  destruct (run_leaves_only_the_catalog sample_env _ _ _ Hrun) as (_ & Hcatalog & Hothers).
  split; [vm_compute; reflexivity|]. split; [vm_compute; discriminate|].
  split; [|split; [|exact Hcatalog]].
  - rewrite Hothers by discriminate. reflexivity.
  - rewrite Hothers by discriminate. reflexivity.
Defined.

(** ** The enrichment: which repositories are asked, and how often *)

Lemma existsb_eqb_In (s : string) (l : list string) :
  existsb (String.eqb s) l = true <-> In s l.
Proof.
  rewrite existsb_exists. split.
  - intros (x & Hin & Heq). apply String.eqb_eq in Heq. now subst.
  - intros Hin. exists s. split; [exact Hin|apply String.eqb_refl].
Qed.

Lemma dict_has_keys (d : dict) (k : string) : dict_has d k = true <-> In k (map fst d).
Proof.
  unfold dict_has. induction d as [|[k0 v0] d IH]; simpl.
  - split; [discriminate|contradiction].
  - destruct (k0 =? k)%string eqn:Hk.
    + apply String.eqb_eq in Hk. subst. split; [now left|reflexivity].
    + rewrite IH. split; [now right|]. intros [->|H]; [|exact H].
      rewrite String.eqb_refl in Hk. discriminate.
Qed.

Lemma NoDup_snoc {A} (l : list A) (a : A) : NoDup l -> ~ In a l -> NoDup (l ++ [a]).
Proof.
  induction 1 as [|x l Hx Hl IH]; intros Ha; simpl.
  - constructor; [intros []|constructor].
  - constructor.
    + rewrite in_app_iff. intros [H|[H|[]]]; [now apply Hx|]. subst. apply Ha. now left.
    + apply IH. intros H. apply Ha. now right.
Qed.

(** The URLs [get_repo_info] collects: each non-empty string found under
    [repo] in an object, once. *)
Lemma collect_repo_urls_spec (plugins : list json) :
  forall repo_urls,
    NoDup repo_urls ->
    NoDup (collect_repo_urls plugins repo_urls) /\
    forall url,
      In url (collect_repo_urls plugins repo_urls) <->
      In url repo_urls \/
      (url <> "" /\ exists p, In (JObj p) plugins /\ dict_lookup p "repo" = Some (JStr url)).
Proof.
  induction plugins as [|plugin rest IH]; intros repo_urls Hnodup.
  - split; [exact Hnodup|]. intros url. simpl. split; [now left|].
    intros [H|(_ & p & [] & _)]. exact H.
  - cbn [collect_repo_urls].
    assert (Hskip :
              (forall url p, plugin = JObj p -> dict_lookup p "repo" = Some (JStr url) ->
                             url <> "" -> In url repo_urls) ->
              NoDup (collect_repo_urls rest repo_urls) /\
              forall url,
                In url (collect_repo_urls rest repo_urls) <->
                In url repo_urls \/
                (url <> "" /\
                 exists p, In (JObj p) (plugin :: rest) /\
                           dict_lookup p "repo" = Some (JStr url))).
    { intros Hhere. destruct (IH repo_urls Hnodup) as [Hnd Hmem]. split; [exact Hnd|].
      intros url. rewrite Hmem. split.
      - intros [H|(Hne & p & Hin & Hp)]; [now left|].
        right. split; [exact Hne|]. exists p. split; [now right|exact Hp].
      - intros [H|(Hne & p & [Hin|Hin] & Hp)]; [now left| |].
        + left. exact (Hhere url p Hin Hp Hne).
        + right. split; [exact Hne|]. now exists p. }
    destruct plugin as [| | | | | |p]; cbn [get_if_dict];
      try (apply Hskip; intros url p' [=]).
    unfold py_get, py_get_def.
    destruct (dict_lookup p "repo") as [[| | | |u| |]|] eqn:Hrepo;
      try (apply Hskip; intros url p' [= <-]; rewrite Hrepo; discriminate).
    destruct (u =? "")%string eqn:Hempty; cbn [negb andb].
    { apply String.eqb_eq in Hempty. subst u. apply Hskip.
      intros url p' [= <-]. rewrite Hrepo. intros [= <-] Hne. now elim Hne. }
    destruct (existsb (String.eqb u) repo_urls) eqn:Hseen; cbn [negb].
    { apply existsb_eqb_In in Hseen. apply Hskip.
      intros url p' [= <-]. rewrite Hrepo. now intros [= <-] _. }
    assert (Hnew : ~ In u repo_urls).
    { intros Hin. apply existsb_eqb_In in Hin. rewrite Hin in Hseen. discriminate. }
    destruct (IH (repo_urls ++ [u])%list (NoDup_snoc _ _ Hnodup Hnew)) as [Hnd Hmem].
    split; [exact Hnd|]. intros url. rewrite Hmem, in_app_iff. split.
    + intros [[H|[<-|[]]]|(Hne & p' & Hin & Hp)].
      * now left.
      * right. split; [now apply String.eqb_neq|]. exists p. split; [now left|exact Hrepo].
      * right. split; [exact Hne|]. exists p'. split; [now right|exact Hp].
    + intros [H|(Hne & p' & [Hin|Hin] & Hp)].
      * left. now left.
      * injection Hin as <-. rewrite Hrepo in Hp. injection Hp as <-.
        left. right. now left.
      * right. split; [exact Hne|]. now exists p'.
Qed.

Section RepoInfoKeys.

Variable E : Env.

(** The keys of the collected map: those it had, then the URLs of the
    futures, in the order of the futures. *)
Lemma collect_results_keys (futures : list future) :
  forall (acc repo_info : dict),
    Forall future_ok futures ->
    NoDup (map fst futures) ->
    (forall url, In url (map fst futures) -> dict_has acc url = false) ->
    collect_results futures acc = Ok repo_info ->
    map fst repo_info = (map fst acc ++ map fst futures)%list.
Proof.
  induction futures as [|[url [[repo_url info]|e]] rest IH];
    intros acc repo_info Hok Hnodup Hfresh; cbn [collect_results].
  - intros [= <-]. simpl. now rewrite app_nil_r.
  - inversion Hok as [|? ? Hfuture Hrest]; subst.
    unfold future_ok in Hfuture. cbn [fst snd] in Hfuture. destruct Hfuture as [-> _].
    cbn [map fst] in *. inversion Hnodup as [|? ? Hurl Hnodup']; subst.
    intros Hrun.
    assert (Hfresh' : forall u, In u (map fst rest) ->
                                dict_has (dict_set acc url info) u = false).
    { intros u Hu. rewrite dict_has_set.
      destruct (url =? u)%string eqn:Heq.
      - apply String.eqb_eq in Heq. subst u. contradiction.
      - simpl. apply Hfresh. now right. }
    rewrite (IH _ _ Hrest Hnodup' Hfresh' Hrun).
    rewrite (dict_set_fresh acc url info) by (apply Hfresh; now left).
    rewrite map_app. simpl. now rewrite <- app_assoc.
  - discriminate.
Qed.

(** The keys of the map [get_repo_info] returns are the URLs it collected,
    in the order in which their tasks complete. *)
Lemma get_repo_info_keys (original_plugins : dict) (existing_cache : json)
    (has_existing_cache : bool) (w w' : World) (repo_info : dict) :
  get_repo_info E original_plugins existing_cache has_existing_cache w = (Ok repo_info, w') ->
  exists futures,
    map fst futures = collect_repo_urls (map snd original_plugins) [] /\
    map fst repo_info = map fst (as_completed E futures) /\
    Permutation (map fst repo_info) (collect_repo_urls (map snd original_plugins) []).
Proof.
  intros Hrun.
  destruct (get_repo_info_inv E _ _ _ _ _ _ Hrun)
    as (cache_by_repo & futures & w1 & _ & _ & _ & Hurls & Hok & Hcollect & _).
  destruct (collect_repo_urls_spec (map snd original_plugins) [] (NoDup_nil _))
    as [Hnodup _].
  pose proof (as_completed_perm E futures) as Hperm.
  assert (Hkeys : map fst repo_info = map fst (as_completed E futures)).
  { apply (collect_results_keys (as_completed E futures) [] _); [| |reflexivity|exact Hcollect].
    - exact (Permutation_Forall (Permutation_sym Hperm) Hok).
    - apply (Permutation_NoDup (Permutation_map fst (Permutation_sym Hperm))).
      now rewrite Hurls. }
  exists futures. split; [exact Hurls|]. split; [exact Hkeys|].
  rewrite Hkeys, <- Hurls. now apply Permutation_map.
Qed.

(** X6. The map [get_repo_info] returns, and writes to [repo_info.json], has
    exactly one record for each distinct non-empty string that an object
    entry of the catalog has under [repo], and no other record; the records
    come in the order in which the tasks of the pool complete, which is some
    arrangement of the order in which the URLs first occur in the catalog. *)
Theorem repo_info_covers_catalog (original_plugins : dict) (existing_cache : json)
    (has_existing_cache : bool) (w w' : World) (repo_info : dict) :
  get_repo_info E original_plugins existing_cache has_existing_cache w = (Ok repo_info, w') ->
  (exists futures,
      map fst futures = collect_repo_urls (map snd original_plugins) [] /\
      map fst repo_info = map fst (as_completed E futures)) /\
  Permutation (map fst repo_info) (collect_repo_urls (map snd original_plugins) []) /\
  NoDup (map fst repo_info) /\
  (forall url,
      dict_has repo_info url = true <->
      url <> "" /\
      exists key plugin,
        In (key, JObj plugin) original_plugins /\
        dict_lookup plugin "repo" = Some (JStr url)) /\
  files w' "repo_info.json" = Some (FileJson (JObj repo_info)).
Proof.
  intros Hrun.
  destruct (get_repo_info_keys _ _ _ _ _ _ Hrun) as (futures & Hurls & Hkeys & Hperm).
  destruct (collect_repo_urls_spec (map snd original_plugins) [] (NoDup_nil _))
    as [Hnodup Hmem].
  split; [now exists futures|]. split; [exact Hperm|].
  split; [exact (Permutation_NoDup (Permutation_sym Hperm) Hnodup)|]. split.
  - intros url. rewrite dict_has_keys. split.
    + intros Hin. apply (Permutation_in _ Hperm) in Hin. apply Hmem in Hin.
      destruct Hin as [[]|(Hne & p & Hin & Hp)]. split; [exact Hne|].
      apply in_map_iff in Hin as ([key v] & Hv & Hin). simpl in Hv. subst v.
      now exists key, p.
    + intros (Hne & key & p & Hin & Hp).
      apply (Permutation_in _ (Permutation_sym Hperm)). apply Hmem. right.
      split; [exact Hne|]. exists p. split; [|exact Hp].
      apply in_map_iff. now exists (key, JObj p).
  - destruct (get_repo_info_inv E _ _ _ _ _ _ Hrun)
      as (_ & _ & w1 & _ & _ & _ & _ & _ & _ & _ & Hfiles).
    rewrite Hfiles. unfold fs_write. now rewrite String.eqb_refl.
Qed.

End RepoInfoKeys.

(** The sample catalog names four repositories; the value [7] under [p4]
    names none.  With the task of [acme/foo] completing last, its record
    comes last. *)
Lemma repo_info_covers_catalog_witness :
  exists repo_info,
    fst (get_repo_info late_foo_env sample_catalog (JObj []) false empty_world)
    = Ok repo_info /\
    map fst repo_info =
    ["https://github.com/acme/gone"; "https://github.com/acme/flaky";
     "https://github.com/acme/limited"; "https://github.com/acme/foo"] /\
    Permutation (map fst repo_info)
      ["https://github.com/acme/foo"; "https://github.com/acme/gone";
       "https://github.com/acme/flaky"; "https://github.com/acme/limited"].
Proof.
  set (run := get_repo_info late_foo_env sample_catalog (JObj []) false empty_world).
  set (found := match fst run with Ok repo_info => repo_info | Err _ => [] end).
  assert (Hrun : run = (Ok found, snd run)) by (vm_compute; reflexivity).
  exists found. split; [vm_compute; reflexivity|]. split; [vm_compute; reflexivity|].
  exact (proj1 (proj2 (repo_info_covers_catalog late_foo_env _ _ _ _ _ _ Hrun))).
Defined.

Section Budgets.

Variable E : Env.

Lemma scheduled_sleep_bounds (attempt : Z) (d : Q) :
  delays_ok E ->
  (spec_delay E attempt <= d <= spec_delay E attempt * (3 # 2))%Q ->
  (0 <= d <= MAX_DELAY E * (3 # 2))%Q.
Proof.
  intros (Hbase & Hmax & _) [Hlo Hhi].
  pose proof (spec_delay_nonneg E attempt Hbase Hmax) as Hdelay.
  pose proof (spec_delay_cap E attempt) as Hcap.
  set (s := spec_delay E attempt) in *. split; nra.
Qed.

(** The requests and the sleeps of the loop, returning or raising: [n]
    requests, a sleep before each of them but the very first, each sleep on
    the schedule of the attempt it precedes. *)
Lemma fetch_repo_loop_accounting (url : string) (remaining : nat) :
  delays_ok E ->
  forall (attempt : Z) (w w' : World) (r : res (json * string)),
    1 <= attempt ->
    fetch_repo_loop E url remaining attempt w = (r, w') ->
    exists n slept,
      (n <= remaining)%nat /\
      requests w' = (requests w ++ repeat url n)%list /\
      sleeps w' = (sleeps w ++ slept)%list /\
      List.length slept = (if 1 <? attempt then n else pred n) /\
      Forall (fun d => 0 <= d <= MAX_DELAY E * (3 # 2))%Q slept /\
      on_schedule E (Z.max attempt 2) slept.
Proof.
  intros Hdelays.
  induction remaining as [|remaining IH]; intros attempt w w' r Hattempt.
  - cbn [fetch_repo_loop]. unfold ret. intros [= _ <-]. exists 0%nat, [].
    split; [lia|]. cbn [repeat]. rewrite !app_nil_r.
    split; [reflexivity|]. split; [reflexivity|].
    split; [now destruct (1 <? attempt)|]. split; [constructor|exact I].
  - destruct (pause_cases E attempt w Hdelays)
      as [[Hfirst Hpause]|[[Hover Hpause]|(Hmid & d & Hd & Hpause)]].
    + (* the first attempt: no pause *)
      replace (1 <? attempt) with false by (symmetry; apply Z.ltb_ge; lia).
      rewrite (fetch_repo_loop_step E _ _ _ _ _ Hpause). cbv zeta.
      destruct (spec_outcome (decode_response E (urlopen E (requests w) url))) as [status|].
      * intros [= _ <-]. exists 1%nat, []. split; [lia|].
        cbn [with_request requests sleeps repeat]. rewrite app_nil_r.
        split; [reflexivity|]. split; [reflexivity|]. split; [reflexivity|].
        split; [constructor|exact I].
      * intros Hrun.
        destruct (IH (attempt + 1) _ _ _ ltac:(lia) Hrun)
          as (n & slept & Hn & Hreq & Hsleeps & Hlen & Hall & Hsched).
        replace (1 <? attempt + 1) with true in Hlen by (symmetry; apply Z.ltb_lt; lia).
        replace (Z.max (attempt + 1) 2) with (Z.max attempt 2) in Hsched by lia.
        exists (S n), slept. split; [lia|]. split; [|split; [|split; [|split]]].
        -- rewrite Hreq. cbn [with_request requests repeat]. now rewrite <- app_assoc.
        -- exact Hsleeps.
        -- exact Hlen.
        -- exact Hall.
        -- exact Hsched.
    + (* attempt 1026: the delay overflows *)
      rewrite (fetch_repo_loop_raises E _ _ _ _ _ _ Hpause). intros [= _ <-].
      exists 0%nat, []. split; [lia|]. cbn [repeat]. rewrite !app_nil_r.
      split; [reflexivity|]. split; [reflexivity|].
      split; [now destruct (1 <? attempt)|]. split; [constructor|exact I].
    + (* attempts 2 to 1025: one sleep *)
      replace (1 <? attempt) with true by (symmetry; apply Z.ltb_lt; lia).
      replace (Z.max attempt 2) with attempt by lia.
      pose proof (scheduled_sleep_bounds attempt d Hdelays Hd) as Hbound.
      rewrite (fetch_repo_loop_step E _ _ _ _ _ Hpause). cbv zeta.
      destruct (spec_outcome (decode_response E (urlopen E (requests w) url))) as [status|].
      * intros [= _ <-]. exists 1%nat, [d]. split; [lia|].
        cbn [with_request requests sleeps repeat].
        split; [reflexivity|]. split; [reflexivity|]. split; [reflexivity|].
        split; [constructor; [exact Hbound|constructor]|]. split; [exact Hd|exact I].
      * intros Hrun.
        destruct (IH (attempt + 1) _ _ _ ltac:(lia) Hrun)
          as (n & slept & Hn & Hreq & Hsleeps & Hlen & Hall & Hsched).
        replace (1 <? attempt + 1) with true in Hlen by (symmetry; apply Z.ltb_lt; lia).
        replace (Z.max (attempt + 1) 2) with (attempt + 1) in Hsched by lia.
        exists (S n), (d :: slept). split; [lia|]. split; [|split; [|split; [|split]]].
        -- rewrite Hreq. cbn [with_request requests repeat]. now rewrite <- app_assoc.
        -- rewrite Hsleeps. cbn [with_request sleeps]. now rewrite <- app_assoc.
        -- cbn [List.length]. now rewrite Hlen.
        -- constructor; assumption.
        -- split; [exact Hd|exact Hsched].
Qed.

(** X7. With sensible delays, [fetch_repo] sends at most [MAX_RETRIES]
    requests, all to the repository's API URL; it sleeps once between two
    consecutive requests and never before the first or after the last, and
    no sleep is longer than one and a half times [MAX_DELAY]. *)
Theorem fetch_repo_budget (owner repo : string) (w w' : World) (r : res (json * string)) :
  delays_ok E ->
  fetch_repo E owner repo w = (r, w') ->
  exists n slept,
    (n <= Z.to_nat (MAX_RETRIES E))%nat /\
    requests w' = (requests w ++ repeat (repo_api_url owner repo) n)%list /\
    sleeps w' = (sleeps w ++ slept)%list /\
    List.length slept = pred n /\
    Forall (fun d => 0 <= d <= MAX_DELAY E * (3 # 2))%Q slept.
Proof.
  intros Hdelays Hrun.
  destruct (fetch_repo_loop_accounting (repo_api_url owner repo) (Z.to_nat (MAX_RETRIES E))
              Hdelays 1 w w' r ltac:(lia) Hrun)
    as (n & slept & Hn & Hreq & Hsleeps & Hlen & Hall & _).
  now exists n, slept.
Qed.

(** X20. The backoff schedule of [fetch_repo], with sensible delays and
    whether it returns or raises: it sleeps before each request but the
    first, and the sleep before attempt [a], for [a = 2, 3, ...] in turn, is
    the delay [min(BASE_DELAY * 2^(a-2), MAX_DELAY)] of the specification plus
    a jitter of at most half of it; that delay without the jitter does not
    decrease from one attempt to a later one and never exceeds [MAX_DELAY]. *)
Theorem fetch_repo_backoff_schedule (owner repo : string) (w w' : World)
    (r : res (json * string)) :
  delays_ok E ->
  fetch_repo E owner repo w = (r, w') ->
  (exists n slept,
      requests w' = (requests w ++ repeat (repo_api_url owner repo) n)%list /\
      sleeps w' = (sleeps w ++ slept)%list /\
      List.length slept = pred n /\
      on_schedule E 2 slept) /\
  (forall a b, 2 <= a <= b ->
               (spec_delay E a <= spec_delay E b)%Q /\ (spec_delay E b <= MAX_DELAY E)%Q).
Proof.
  intros Hdelays Hrun. split.
  - destruct (fetch_repo_loop_accounting (repo_api_url owner repo)
                (Z.to_nat (MAX_RETRIES E)) Hdelays 1 w w' r ltac:(lia) Hrun)
      as (n & slept & _ & Hreq & Hsleeps & Hlen & _ & Hsched).
    now exists n, slept.
  - intros a b Hab. destruct Hdelays as (Hbase & _).
    split; [now apply spec_delay_mono|apply spec_delay_cap].
Qed.

(** Whatever the delays, the loop sends at most [remaining] requests. *)
Lemma fetch_repo_loop_requests (url : string) (remaining : nat) :
  forall (attempt : Z) (w w' : World) (r : res (json * string)),
    fetch_repo_loop E url remaining attempt w = (r, w') ->
    exists n, (n <= remaining)%nat /\ requests w' = (requests w ++ repeat url n)%list.
Proof.
  induction remaining as [|remaining IH]; intros attempt w w' r.
  - cbn [fetch_repo_loop]. unfold ret. intros [= _ <-]. exists 0%nat.
    split; [lia|]. cbn [repeat]. now rewrite app_nil_r.
  - destruct (pause E attempt w) as [[[]|e] w1] eqn:Hpause.
    + destruct (pause_frame E _ _ _ _ Hpause) as [Hreq1 _].
      rewrite (fetch_repo_loop_step E _ _ _ _ _ Hpause). cbv zeta.
      destruct (spec_outcome (decode_response E (urlopen E (requests w) url))) as [status|].
      * intros [= _ <-]. exists 1%nat. split; [lia|].
        cbn [with_request requests repeat]. now rewrite Hreq1.
      * intros Hrun. destruct (IH _ _ _ _ Hrun) as (n & Hn & Hreq).
        exists (S n). split; [lia|]. rewrite Hreq.
        cbn [with_request requests repeat]. now rewrite Hreq1, <- app_assoc.
    + destruct (pause_frame E _ _ _ _ Hpause) as [Hreq1 _].
      rewrite (fetch_repo_loop_raises E _ _ _ _ _ _ Hpause). intros [= _ <-].
      exists 0%nat. split; [lia|]. cbn [repeat]. now rewrite app_nil_r.
Qed.

End Budgets.

(** The sample network: [acme/flaky] is asked five times; with the defaults
    (2 s base, 30 s cap) and a jitter of a quarter, the four sleeps last 2.5,
    5, 10 and 20 seconds. *)
Lemma fetch_repo_backoff_schedule_witness :
  delays_ok sample_env /\
  (exists n slept,
      requests (snd (fetch_repo sample_env "acme" "flaky" empty_world)) =
      repeat "https://api.github.com/repos/acme/flaky" n /\
      sleeps (snd (fetch_repo sample_env "acme" "flaky" empty_world)) = slept /\
      List.length slept = pred n /\
      on_schedule sample_env 2 slept) /\
  Forall2 Qeq (sleeps (snd (fetch_repo sample_env "acme" "flaky" empty_world)))
    [5 # 2; 5; 10; 20]%Q /\
  (spec_delay sample_env 3 <= spec_delay sample_env 7)%Q /\
  (spec_delay sample_env 7 <= MAX_DELAY sample_env)%Q.
Proof.
  destruct (fetch_repo_backoff_schedule sample_env "acme" "flaky" empty_world _ _
              sample_delays_ok (surjective_pairing _)) as [Hsched Hmono].
  split; [exact sample_delays_ok|]. split; [exact Hsched|].
  split; [vm_compute; repeat constructor|].
  exact (Hmono 3 7 ltac:(lia)).
Defined.

(** The sample network: [acme/flaky] is asked five times, with four sleeps. *)
Lemma fetch_repo_budget_witness :
  delays_ok sample_env /\
  (exists n slept,
      (n <= 5)%nat /\
      requests (snd (fetch_repo sample_env "acme" "flaky" empty_world)) =
      repeat "https://api.github.com/repos/acme/flaky" n /\
      sleeps (snd (fetch_repo sample_env "acme" "flaky" empty_world)) = slept /\
      List.length slept = pred n /\
      Forall (fun d => 0 <= d <= 30 * (3 # 2))%Q slept) /\
  List.length (requests (snd (fetch_repo sample_env "acme" "flaky" empty_world))) = 5%nat /\
  List.length (sleeps (snd (fetch_repo sample_env "acme" "flaky" empty_world))) = 4%nat.
Proof.
  split; [exact sample_delays_ok|]. split; [|split; vm_compute; reflexivity].
  exact (fetch_repo_budget sample_env "acme" "flaky" empty_world _ _ sample_delays_ok
           (surjective_pairing _)).
Defined.

Section RequestBudget.

Variable E : Env.

Lemma same_requests_lift {A} (x : res A) :
  respects (fun w w' => requests w' = requests w) (lift x).
Proof. apply respects_lift. reflexivity. Qed.

Lemma same_requests_bind {A B} (m : M A) (k : A -> M B) :
  respects (fun w w' => requests w' = requests w) m ->
  (forall a, respects (fun w w' => requests w' = requests w) (k a)) ->
  respects (fun w w' => requests w' = requests w) (bind m k).
Proof. apply respects_bind. intros w1 w2 w3 H12 H23. now rewrite H23. Qed.

(** The fallback of [process_repo] sends nothing. *)
Lemma cached_branch_requests (repo_url status : string) (cache_by_repo : dict)
    (has_existing_cache : bool) :
  respects (fun w w' => requests w' = requests w)
    (cached_or_blank E repo_url status cache_by_repo has_existing_cache).
Proof.
  unfold cached_or_blank. cbv zeta.
  repeat first
    [ apply respects_ret; reflexivity
    | apply same_requests_lift
    | apply same_requests_bind; [|intro]
    | match goal with
      | |- respects _ (if ?b then _ else _) => destruct b
      end ].
Qed.

Lemma extract_version_loop_requests (owner repo : string) (metadata_files : list string) :
  forall (w w' : World) (r : res string),
    extract_version_loop E owner repo metadata_files w = (r, w') ->
    exists sent,
      requests w' = (requests w ++ sent)%list /\
      (List.length sent <= List.length metadata_files)%nat /\
      Forall (fun u => to_repos_api u = true) sent.
Proof.
  induction metadata_files as [|metadata_file rest IH]; intros w w' r.
  - cbn [extract_version_loop]. unfold ret. intros [= _ <-]. exists [].
    split; [now rewrite app_nil_r|]. split; [simpl; lia|constructor].
  - cbn [extract_version_loop]. unfold bind at 1. rewrite http_get_json_run.
    destruct (decode_response E _) as [payload status].
    assert (Hnext :
              extract_version_loop E owner repo rest
                (with_request (repo_api_url owner repo ++ "/contents/" ++ metadata_file) w)
              = (r, w') ->
              exists sent,
                requests w' = (requests w ++ sent)%list /\
                (List.length sent <= List.length (metadata_file :: rest))%nat /\
                Forall (fun u => to_repos_api u = true) sent).
    { intros Hrun. destruct (IH _ _ _ Hrun) as (sent & Hreq & Hlen & Hall).
      exists ((repo_api_url owner repo ++ "/contents/" ++ metadata_file) :: sent).
      split; [|split].
      - rewrite Hreq. cbn [with_request requests]. now rewrite <- app_assoc.
      - simpl. lia.
      - constructor; [reflexivity|exact Hall]. }
    destruct (negb (status =? 200) || negb (is_dict payload)); [exact Hnext|].
    destruct (get_if_dict payload "content" JNull); try exact Hnext.
    destruct (s =? "")%string; [exact Hnext|].
    destruct (search_version E s); [|exact Hnext].
    unfold ret. intros [= _ <-].
    exists [repo_api_url owner repo ++ "/contents/" ++ metadata_file].
    split; [reflexivity|]. split; [simpl; lia|]. constructor; [reflexivity|constructor].
Qed.

Lemma extract_logo_requests (owner repo : string) (default_branch : json)
    (w w' : World) (r : res string) :
  extract_logo E owner repo default_branch w = (r, w') ->
  requests w' = (requests w ++ [(repo_api_url owner repo ++ "/contents/logo.png")%string])%list.
Proof.
  unfold extract_logo, bind. rewrite http_get_json_run.
  destruct (decode_response E _) as [payload status].
  destruct (_ && _); unfold ret; now intros [= _ <-].
Qed.

(** One repository costs at most [MAX_RETRIES + 3] requests, all of them to
    the REST API of GitHub. *)
Lemma process_repo_requests (repo_url : string) (cache_by_repo : dict)
    (has_existing_cache : bool) (w w' : World) (r : res (string * json)) :
  process_repo E repo_url cache_by_repo has_existing_cache w = (r, w') ->
  exists sent,
    requests w' = (requests w ++ sent)%list /\
    (List.length sent <= Z.to_nat (MAX_RETRIES E) + 3)%nat /\
    Forall (fun u => to_repos_api u = true) sent.
Proof.
  unfold process_repo.
  destruct (REPO_URL_RE_match repo_url) as [[owner repo]|].
  2: { unfold ret. intros [= _ <-]. exists []. split; [now rewrite app_nil_r|].
       split; [simpl; lia|constructor]. }
  unfold bind at 1.
  destruct (fetch_repo E owner repo w) as [[[payload status]|e] w1] eqn:Hfetch.
  2: { intros [= _ <-].
       destruct (fetch_repo_loop_requests E _ _ _ _ _ _ Hfetch) as (n & Hn & Hreq).
       exists (repeat (repo_api_url owner repo) n). split; [exact Hreq|].
       split; [rewrite repeat_length; lia|]. apply Forall_forall.
       intros u Hu. apply repeat_spec in Hu. now subst u. }
  destruct (fetch_repo_loop_requests E _ _ _ _ _ _ Hfetch) as (n & Hn & Hreq).
  assert (Hfetched : Forall (fun u => to_repos_api u = true)
                       (repeat (repo_api_url owner repo) n)).
  { apply Forall_forall. intros u Hu. apply repeat_spec in Hu. now subst u. }
  destruct ((status =? "success")%string && is_dict payload).
  - unfold lift, bind at 1.
    destruct (py_int _) as [stars|e].
    2: { intros [= _ <-]. exists (repeat (repo_api_url owner repo) n).
         split; [exact Hreq|]. split; [rewrite repeat_length; lia|exact Hfetched]. }
    unfold bind at 1.
    destruct (extract_version E owner repo w1) as [[version|e] w2] eqn:Hversion.
    2: { intros [= _ <-].
         destruct (extract_version_loop_requests _ _ _ _ _ _ Hversion)
           as (sent & Hreq2 & Hlen2 & Hall2).
         exists (repeat (repo_api_url owner repo) n ++ sent)%list.
         split; [now rewrite Hreq2, Hreq, <- app_assoc|].
         split; [rewrite List.length_app, repeat_length; simpl in Hlen2; lia|].
         apply Forall_app. now split. }
    destruct (extract_version_loop_requests _ _ _ _ _ _ Hversion)
      as (sent & Hreq2 & Hlen2 & Hall2).
    unfold bind at 1.
    destruct (extract_logo E owner repo _ w2) as [[logo|e] w3] eqn:Hlogo;
      pose proof (extract_logo_requests _ _ _ _ _ _ Hlogo) as Hreq3;
      unfold ret; intros [= _ <-];
      exists (repeat (repo_api_url owner repo) n ++ sent
              ++ [(repo_api_url owner repo ++ "/contents/logo.png")%string])%list;
      (split; [now rewrite Hreq3, Hreq2, Hreq, <- !app_assoc|]);
      (split; [rewrite !List.length_app, repeat_length; simpl in *; lia|]);
      apply Forall_app; (split; [exact Hfetched|]);
      apply Forall_app; (split; [exact Hall2|]);
      (constructor; [reflexivity|constructor]).
  - intros Hrun.
    pose proof (cached_branch_requests repo_url status cache_by_repo has_existing_cache
                  _ _ _ Hrun) as Hsame.
    exists (repeat (repo_api_url owner repo) n). split; [now rewrite Hsame|].
    split; [rewrite repeat_length; lia|exact Hfetched].
Qed.

(** The pool runs every task, whether the ones before it returned or
    raised, and each task keeps to its budget. *)
Lemma run_tasks_requests (repo_urls : list string) (cache_by_repo : dict)
    (has_existing_cache : bool) :
  forall (w w' : World) (r : res (list future)),
    run_tasks E repo_urls cache_by_repo has_existing_cache w = (r, w') ->
    exists sent,
      requests w' = (requests w ++ sent)%list /\
      (List.length sent <= (Z.to_nat (MAX_RETRIES E) + 3) * List.length repo_urls)%nat /\
      Forall (fun u => to_repos_api u = true) sent.
Proof.
  induction repo_urls as [|url rest IH]; intros w w' r.
  - cbn [run_tasks]. unfold ret. intros [= _ <-]. exists [].
    split; [now rewrite app_nil_r|]. split; [simpl; lia|constructor].
  - cbn [run_tasks]. unfold bind at 1. rewrite submit_run.
    destruct (process_repo E url cache_by_repo has_existing_cache w) as [outcome w1]
      eqn:Hone. cbn [fst snd].
    destruct (process_repo_requests _ _ _ _ _ _ Hone) as (sent1 & Hreq1 & Hlen1 & Hall1).
    unfold bind.
    destruct (run_tasks E rest cache_by_repo has_existing_cache w1) as [[futures|e] w2]
      eqn:Hrest;
      destruct (IH _ _ _ Hrest) as (sent & Hreq & Hlen & Hall);
      unfold ret; intros [= _ <-];
      exists (sent1 ++ sent)%list;
      (split; [now rewrite Hreq, Hreq1, <- app_assoc|]);
      (split; [rewrite List.length_app; cbn [List.length]; nia|]);
      apply Forall_app; now split.
Qed.

(** X8. The enrichment has a request budget: whether [get_repo_info] returns
    or raises, and although the pool runs every task even after one of them
    has raised, it has sent at most [MAX_RETRIES + 3] requests for each
    distinct repository URL of the catalog (the retries, two metadata files
    and the logo), and every one of them went to the REST API of GitHub under
    [https://api.github.com/repos/]. *)
Theorem enrichment_request_budget (original_plugins : dict) (existing_cache : json)
    (has_existing_cache : bool) (w w' : World) (r : res dict) :
  get_repo_info E original_plugins existing_cache has_existing_cache w = (r, w') ->
  exists sent,
    requests w' = (requests w ++ sent)%list /\
    (List.length sent <=
     (Z.to_nat (MAX_RETRIES E) + 3)
     * List.length (collect_repo_urls (map snd original_plugins) []))%nat /\
    Forall (fun u => to_repos_api u = true) sent.
Proof.
  assert (Hnone : forall w0 : World,
             exists sent,
               requests w0 = (requests w0 ++ sent)%list /\
               (List.length sent <=
                (Z.to_nat (MAX_RETRIES E) + 3)
                * List.length (collect_repo_urls (map snd original_plugins) []))%nat /\
               Forall (fun u => to_repos_api u = true) sent).
  { intros w0. exists []. split; [now rewrite app_nil_r|]. split; [simpl; lia|constructor]. }
  unfold get_repo_info. cbv zeta. unfold bind at 1. unfold lift at 1.
  destruct (build_cache_by_repo (normalize_cache existing_cache)) as [cache_by_repo|e].
  2: { intros [= _ <-]. apply Hnone. }
  unfold bind at 1. unfold lift at 1.
  destruct (ThreadPoolExecutor E _) as [[]|e].
  2: { intros [= _ <-]. apply Hnone. }
  unfold bind at 1.
  destruct (run_tasks E (collect_repo_urls (map snd original_plugins) []) cache_by_repo
              has_existing_cache w) as [[futures|e] w1] eqn:Hall;
    destruct (run_tasks_requests _ _ _ _ _ _ Hall) as (sent & Hreq & Hlen & Hsent).
  2: { intros [= _ <-]. now exists sent. }
  unfold bind at 1. unfold lift at 1.
  destruct (collect_results (as_completed E futures) []) as [ri|e].
  2: { intros [= _ <-]. now exists sent. }
  unfold bind, save_json, write_json, ret.
  destruct (json_encodable (JObj ri)); intros [= _ <-]; now exists sent.
Qed.

End RequestBudget.

(** A network that answers every repository request with a
    [stargazers_count] of ["many"]: the task of each repository raises the
    [ValueError] of [int("many")], and the pool still runs them all. *)
Example pool_runs_every_task :
  fst (get_repo_info text_count_env sample_catalog (JObj []) false empty_world)
  = Err ValueError /\
  requests (snd (get_repo_info text_count_env sample_catalog (JObj []) false empty_world))
  = ["https://api.github.com/repos/acme/foo"; "https://api.github.com/repos/acme/gone";
     "https://api.github.com/repos/acme/flaky"; "https://api.github.com/repos/acme/limited"].
Proof. split; vm_compute; reflexivity. Qed.

(** The sample catalog: four repositories, twelve requests of the
    (5 + 3) * 4 allowed: five for [acme/foo] (two attempts, three files), one
    each for the two that are answered 404, five for [acme/flaky]. *)
Lemma enrichment_request_budget_witness :
  (exists sent,
      requests (snd (get_repo_info sample_env sample_catalog (JObj []) false empty_world))
      = sent /\
      (List.length sent <= (5 + 3) * 4)%nat /\
      Forall (fun u => to_repos_api u = true) sent) /\
  List.length
    (requests (snd (get_repo_info sample_env sample_catalog (JObj []) false empty_world)))
  = 12%nat.
Proof.
  split; [|vm_compute; reflexivity].
  exact (enrichment_request_budget sample_env sample_catalog (JObj []) false empty_world
           _ _ (surjective_pairing _)).
Defined.

(** ** The enrichment: what a RepoInfo record holds *)

Section RepoInfoRecords.

Variable E : Env.

(** What the fallback of [process_repo] returns for a fetch status: the blank
    record, or the cached one. *)
Lemma cached_branch_record (repo_url status : string) (cache_by_repo : dict)
    (has_existing_cache : bool) (w w' : World) (url : string) (info : json) :
  cached_or_blank E repo_url status cache_by_repo has_existing_cache w
  = (Ok (url, info), w') ->
  info = repo_info_record (JInt 0) (JStr "") (JStr "") (JStr "") (JStr status) \/
  (status_of info = "cached" /\
   has_existing_cache = true /\
   exists cached,
     dict_lookup cache_by_repo repo_url = Some (JObj cached) /\
     (py_eq_zero (py_get_def cached "stars" (JInt 0)) = false \/
      py_eq_str (py_get_def cached "updated_at" (JStr "")) "" = false) /\
     exists stars,
       py_int (py_get_def cached "stars" (JInt 0)) = Ok stars /\
       info = repo_info_record (JInt stars)
                (JStr (py_str E (py_get_def cached "updated_at" (JStr ""))))
                (JStr (py_str E (py_get_def cached "version" (JStr ""))))
                (JStr (py_str E (py_get_def cached "logo" (JStr ""))))
                (JStr "cached")).
Proof.
  unfold cached_or_blank. cbv zeta.
  destruct has_existing_cache; [|unfold ret; intros [= _ <- _]; now left].
  unfold py_get at 1, py_get_def at 1.
  destruct (py_truthy _) eqn:Htruthy; [|unfold ret; intros [= _ <- _]; now left].
  unfold py_get, py_get_def in *.
  destruct (dict_lookup cache_by_repo repo_url) as [[| | | | | |cached]|] eqn:Hcached;
    try (unfold lift, bind; cbn [attr_get]; discriminate).
  unfold lift, bind. cbn [attr_get]. cbv beta iota.
  destruct (negb (py_eq_zero (py_get_def cached "stars" (JInt 0)))
            || negb (py_eq_str (py_get_def cached "updated_at" (JStr "")) "")) eqn:Htest;
    [|unfold ret; intros [= _ <- _]; now left].
  destruct (py_int (py_get_def cached "stars" (JInt 0))) as [stars|e] eqn:Hstars;
    [|discriminate].
  unfold ret. intros [= _ <- _]. right.
  split; [reflexivity|]. split; [reflexivity|]. exists cached. split; [reflexivity|].
  split.
  - apply orb_true_iff in Htest as [H|H]; apply negb_true_iff in H; tauto.
  - exists stars. split; [exact Hstars|reflexivity].
Qed.

(** X9. A RepoInfo whose status is [cached] is never made up: [process_repo]
    returns one only when a cache snapshot exists and the by-repository index
    has, under the URL, a record with stars other than 0 or an [updated_at]
    other than the empty string; the RepoInfo then carries the integer stars
    and the [updated_at], [version] and [logo] of that record, as text. *)
Theorem cached_status_has_a_source (repo_url : string) (cache_by_repo : dict)
    (has_existing_cache : bool) (w w' : World) (url : string) (info : json) :
  process_repo E repo_url cache_by_repo has_existing_cache w = (Ok (url, info), w') ->
  status_of info = "cached" ->
  has_existing_cache = true /\
  exists cached stars,
    dict_lookup cache_by_repo repo_url = Some (JObj cached) /\
    (py_eq_zero (py_get_def cached "stars" (JInt 0)) = false \/
     py_eq_str (py_get_def cached "updated_at" (JStr "")) "" = false) /\
    py_int (py_get_def cached "stars" (JInt 0)) = Ok stars /\
    info = repo_info_record (JInt stars)
             (JStr (py_str E (py_get_def cached "updated_at" (JStr ""))))
             (JStr (py_str E (py_get_def cached "version" (JStr ""))))
             (JStr (py_str E (py_get_def cached "logo" (JStr ""))))
             (JStr "cached").
Proof.
  unfold process_repo.
  destruct (REPO_URL_RE_match repo_url) as [[owner repo]|];
    [|unfold ret; intros [= _ <- _]; discriminate].
  destruct (fetch_repo E owner repo w) as [[[payload status]|e] w1] eqn:Hfetch;
    [|unfold bind; rewrite Hfetch; discriminate].
  destruct (fetch_repo_status E _ _ _ _ _ _ Hfetch) as [Hstatus _].
  rewrite (bind_ok _ _ _ _ _ Hfetch).
  destruct ((status =? "success")%string && is_dict payload) eqn:Hsuccess.
  - apply andb_true_iff in Hsuccess as [Hsuccess _]. apply String.eqb_eq in Hsuccess.
    subst status. unfold lift, bind at 1.
    destruct (py_int _) as [stars|e]; [|discriminate].
    destruct (extract_version_loop_returns E owner repo ["metadata.yml"; "metadata.yaml"] w1)
      as (version & w2 & Hversion).
    unfold extract_version. rewrite (bind_ok _ _ _ _ _ Hversion).
    destruct (extract_logo_returns E owner repo
                (py_or (get_if_dict payload "default_branch" JNull) (JStr "main")) w2)
      as (logo & w3 & Hlogo).
    rewrite (bind_ok _ _ _ _ _ Hlogo). unfold ret. intros [= _ <- _]. discriminate.
  - intros Hrun Hcached.
    destruct (cached_branch_record _ _ _ _ _ _ _ _ Hrun)
      as [->|(_ & Hhas & cached & Hrecord & Htest & stars & Hstars & Hinfo)].
    + change (status = "cached") in Hcached. subst status.
      unfold fetch_statuses in Hstatus. simpl in Hstatus.
      repeat (destruct Hstatus as [Hstatus|Hstatus]; [discriminate|]). contradiction.
    + split; [exact Hhas|]. now exists cached, stars.
Qed.

(** X10. A fetch that did not succeed and found no usable cached record
    leaves a blank RepoInfo: when the status [process_repo] returns is neither
    [success] nor [cached], the record has stars 0 and an empty [updated_at],
    [version] and [logo]; nothing of the repository's answer is kept. *)
Theorem failed_fetch_record_is_blank (repo_url : string) (cache_by_repo : dict)
    (has_existing_cache : bool) (w w' : World) (url : string) (info : json) :
  process_repo E repo_url cache_by_repo has_existing_cache w = (Ok (url, info), w') ->
  status_of info <> "success" ->
  status_of info <> "cached" ->
  info = repo_info_record (JInt 0) (JStr "") (JStr "") (JStr "") (JStr (status_of info)).
Proof.
  unfold process_repo.
  destruct (REPO_URL_RE_match repo_url) as [[owner repo]|];
    [|unfold ret; intros [= _ <- _]; reflexivity].
  destruct (fetch_repo E owner repo w) as [[[payload status]|e] w1] eqn:Hfetch;
    [|unfold bind; rewrite Hfetch; discriminate].
  rewrite (bind_ok _ _ _ _ _ Hfetch).
  destruct ((status =? "success")%string && is_dict payload) eqn:Hsuccess.
  - apply andb_true_iff in Hsuccess as [Hsuccess _]. apply String.eqb_eq in Hsuccess.
    subst status. unfold lift, bind at 1.
    destruct (py_int _) as [stars|e]; [|discriminate].
    destruct (extract_version_loop_returns E owner repo ["metadata.yml"; "metadata.yaml"] w1)
      as (version & w2 & Hversion).
    unfold extract_version. rewrite (bind_ok _ _ _ _ _ Hversion).
    destruct (extract_logo_returns E owner repo
                (py_or (get_if_dict payload "default_branch" JNull) (JStr "main")) w2)
      as (logo & w3 & Hlogo).
    rewrite (bind_ok _ _ _ _ _ Hlogo). unfold ret. intros [= _ <- _] Hne. now elim Hne.
  - intros Hrun Hne Hnc.
    destruct (cached_branch_record _ _ _ _ _ _ _ _ Hrun) as [->|(Hcached & _)].
    + reflexivity.
    + contradiction.
Qed.

(** X11. Fresh data is never overridden: when the fetch of a well-formed
    repository URL ends with [success], what [process_repo] does is the same
    whatever the cache index holds and whether or not a cache snapshot
    exists; and whenever it returns, the RepoInfo has status [success], the
    stars [int(stargazers_count or 0)] and the [updated_at] of the answer. *)
Theorem fresh_data_ignores_cache (repo_url owner repo : string) (w w1 w' : World)
    (payload : json) (cache_by_repo : dict) (has_existing_cache : bool)
    (url : string) (info : json) :
  REPO_URL_RE_match repo_url = Some (owner, repo) ->
  fetch_repo E owner repo w = (Ok (payload, "success"), w1) ->
  process_repo E repo_url cache_by_repo has_existing_cache w =
  process_repo E repo_url [] false w /\
  (process_repo E repo_url cache_by_repo has_existing_cache w = (Ok (url, info), w') ->
   url = repo_url /\
   exists stars version logo,
     py_int (py_or (get_if_dict payload "stargazers_count" JNull) (JInt 0)) = Ok stars /\
     info = repo_info_record (JInt stars)
              (py_or (get_if_dict payload "updated_at" JNull) (JStr ""))
              (JStr version) (JStr logo) (JStr "success")).
Proof.
  intros Hmatch Hfetch.
  destruct (fetch_repo_status E _ _ _ _ _ _ Hfetch) as [_ Hdict].
  specialize (Hdict eq_refl).
  unfold process_repo. rewrite Hmatch, !(bind_ok _ _ _ _ _ Hfetch), Hdict.
  cbn [String.eqb Ascii.eqb Bool.eqb andb].
  split; [reflexivity|].
  unfold lift, bind at 1.
  destruct (py_int _) as [stars|e]; [|discriminate].
  destruct (extract_version_loop_returns E owner repo ["metadata.yml"; "metadata.yaml"] w1)
    as (version & w2 & Hversion).
  unfold extract_version. rewrite (bind_ok _ _ _ _ _ Hversion).
  destruct (extract_logo_returns E owner repo
              (py_or (get_if_dict payload "default_branch" JNull) (JStr "main")) w2)
    as (logo & w3 & Hlogo).
  rewrite (bind_ok _ _ _ _ _ Hlogo). unfold ret. intros [= <- <- _].
  split; [reflexivity|]. now exists stars, version, logo.
Qed.

End RepoInfoRecords.

(** The sample network: [acme/flaky] is never fetched; the record of the
    cache index is what the RepoInfo shows. *)
Lemma cached_status_has_a_source_witness :
  fst (process_repo sample_env "https://github.com/acme/flaky" sample_cache_by_repo true
         empty_world) =
  Ok ("https://github.com/acme/flaky",
      repo_info_record (JInt 10) (JStr "2023-05-05T00:00:00Z") (JStr "1.2.0") (JStr "")
        (JStr "cached")) /\
  exists cached stars,
    dict_lookup sample_cache_by_repo "https://github.com/acme/flaky" = Some (JObj cached) /\
    py_int (py_get_def cached "stars" (JInt 0)) = Ok stars /\
    stars = 10.
Proof.
  set (run := process_repo sample_env "https://github.com/acme/flaky" sample_cache_by_repo
                true empty_world).
  assert (Hrun : run =
                 (Ok ("https://github.com/acme/flaky",
                      repo_info_record (JInt 10) (JStr "2023-05-05T00:00:00Z")
                        (JStr "1.2.0") (JStr "") (JStr "cached")),
                  snd run)) by (vm_compute; reflexivity).
  split; [now rewrite Hrun|].
  destruct (cached_status_has_a_source sample_env _ _ _ _ _ _ _ Hrun eq_refl)
    as (_ & cached & stars & Hcached & _ & Hstars & Hinfo).
  exists cached, stars. split; [exact Hcached|]. split; [exact Hstars|].
  now injection Hinfo.
Defined.

(** The same repository without a cache: a blank record. *)
Lemma failed_fetch_record_is_blank_witness :
  exists info,
    fst (process_repo sample_env "https://github.com/acme/flaky" [] false empty_world) =
    Ok ("https://github.com/acme/flaky", info) /\
    status_of info <> "success" /\
    status_of info <> "cached" /\
    info = repo_info_record (JInt 0) (JStr "") (JStr "") (JStr "") (JStr "network_error").
Proof.
  set (run := process_repo sample_env "https://github.com/acme/flaky" [] false empty_world).
  set (info := match fst run with Ok (_, info) => info | Err _ => JNull end).
  assert (Hrun : run = (Ok ("https://github.com/acme/flaky", info), snd run))
    by (vm_compute; reflexivity).
  assert (Hstatus : status_of info = "network_error") by (vm_compute; reflexivity).
  assert (H1 : status_of info <> "success") by (rewrite Hstatus; discriminate).
  assert (H2 : status_of info <> "cached") by (rewrite Hstatus; discriminate).
  exists info. split; [now rewrite Hrun|]. split; [exact H1|]. split; [exact H2|].
  rewrite (failed_fetch_record_is_blank sample_env _ _ _ _ _ _ _ Hrun H1 H2) at 1.
  now rewrite Hstatus.
Defined.

(** The sample network: [acme/foo] answers; the cached record under its URL
    plays no part. *)
Lemma fresh_data_ignores_cache_witness :
  (REPO_URL_RE_match "https://github.com/acme/foo" = Some ("acme", "foo") /\
   fst (fetch_repo sample_env "acme" "foo" empty_world) = Ok (sample_repo_payload, "success")) /\
  process_repo sample_env "https://github.com/acme/foo"
    [("https://github.com/acme/foo", cache_record 7 (JStr "2020") (JStr "0.1") (JStr ""))]
    true empty_world =
  process_repo sample_env "https://github.com/acme/foo" [] false empty_world /\
  exists info version logo,
    fst (process_repo sample_env "https://github.com/acme/foo"
           [("https://github.com/acme/foo",
             cache_record 7 (JStr "2020") (JStr "0.1") (JStr ""))]
           true empty_world) = Ok ("https://github.com/acme/foo", info) /\
    info = repo_info_record (JInt 42) (JStr "2024-01-01T00:00:00Z")
             (JStr version) (JStr logo) (JStr "success").
Proof.
  assert (Hmatch : REPO_URL_RE_match "https://github.com/acme/foo" = Some ("acme", "foo"))
    by (vm_compute; reflexivity).
  set (run := fetch_repo sample_env "acme" "foo" empty_world).
  assert (Hfetch : run = (Ok (sample_repo_payload, "success"), snd run))
    by (vm_compute; reflexivity).
  set (cache := [("https://github.com/acme/foo",
                  cache_record 7 (JStr "2020") (JStr "0.1") (JStr ""))]).
  set (done := process_repo sample_env "https://github.com/acme/foo" cache true empty_world).
  set (info := match fst done with Ok (_, info) => info | Err _ => JNull end).
  assert (Hdone : done = (Ok ("https://github.com/acme/foo", info), snd done))
    by (vm_compute; reflexivity).
  destruct (fresh_data_ignores_cache sample_env _ _ _ _ _ (snd done) _ cache true
              "https://github.com/acme/foo" info Hmatch Hfetch) as [Hsame Hrecord].
  split; [split; [exact Hmatch|now rewrite Hfetch]|]. split; [exact Hsame|].
  destruct (Hrecord Hdone) as (_ & stars & version & logo & Hstars & Hinfo).
  exists info, version, logo. split; [now rewrite Hdone|].
  rewrite Hinfo. vm_compute in Hstars. injection Hstars as <-. reflexivity.
Defined.

(** ** The cache index *)

Lemma find_snoc {A} (f : A -> bool) (l : list A) (a : A) :
  find f (l ++ [a]) =
  match find f l with
  | Some x => Some x
  | None => if f a then Some a else None
  end.
Proof.
  induction l as [|x l IH]; simpl; [reflexivity|]. destruct (f x); [reflexivity|exact IH].
Qed.

(** What the loop leaves under a URL: the record of the last value with that
    URL, or what was there. *)
Lemma build_cache_by_repo_loop_lookup (values : list json) :
  forall (result out : dict) (url : string),
    build_cache_by_repo_loop values result = Ok out ->
    match (if (url =? "")%string then None else latest_with_repo values url) with
    | Some value =>
        exists v stars,
          value = JObj v /\
          py_int (py_or (py_get v "stars") (JInt 0)) = Ok stars /\
          dict_lookup out url =
          Some (cache_record stars
                  (py_or (py_get v "updated_at") (JStr ""))
                  (py_or (py_get v "version") (JStr ""))
                  (py_or (py_get v "logo") (JStr "")))
    | None => dict_lookup out url = dict_lookup result url
    end.
Proof.
  induction values as [|value rest IH]; intros result out url.
  - cbn [build_cache_by_repo_loop]. intros [= <-].
    unfold latest_with_repo. cbn [rev find]. now destruct (url =? "")%string.
  - cbn [build_cache_by_repo_loop]. unfold latest_with_repo. cbn [rev].
    rewrite find_snoc. fold (latest_with_repo rest url).
    assert (Hskip :
              (url <> "" -> has_repo url value = false) ->
              build_cache_by_repo_loop rest result = Ok out ->
              match
                (if (url =? "")%string then None
                 else match latest_with_repo rest url with
                      | Some x => Some x
                      | None => if has_repo url value then Some value else None
                      end)
              with
              | Some value0 =>
                  exists v stars,
                    value0 = JObj v /\
                    py_int (py_or (py_get v "stars") (JInt 0)) = Ok stars /\
                    dict_lookup out url =
                    Some (cache_record stars
                            (py_or (py_get v "updated_at") (JStr ""))
                            (py_or (py_get v "version") (JStr ""))
                            (py_or (py_get v "logo") (JStr "")))
              | None => dict_lookup out url = dict_lookup result url
              end).
    { intros Hno Hrun. specialize (IH result out url Hrun).
      destruct (url =? "")%string eqn:Hurl; [exact IH|].
      apply String.eqb_neq in Hurl. rewrite (Hno Hurl).
      destruct (latest_with_repo rest url); exact IH. }
    destruct value as [| | | | | |v]; try (apply Hskip; reflexivity).
    unfold has_repo in *. cbn [get_if_dict] in *.
    destruct (py_get v "repo") as [| | | |u| |] eqn:Hrepo; try (apply Hskip; reflexivity).
    cbn [py_eq_str] in *.
    destruct (u =? "")%string eqn:Hu.
    { apply Hskip. intros Hne. apply String.eqb_eq in Hu. subst u.
      apply String.eqb_neq. intros Heq. now elim Hne. }
    destruct (py_int (py_or (py_get v "stars") (JInt 0))) as [stars|e] eqn:Hstars;
      cbn [res_bind]; [|discriminate].
    intros Hrun. specialize (IH _ out url Hrun).
    destruct (url =? "")%string eqn:Hurl.
    + rewrite IH, dict_lookup_set.
      apply String.eqb_eq in Hurl. subst url. now rewrite Hu.
    + destruct (latest_with_repo rest url); [exact IH|].
      rewrite IH, dict_lookup_set.
      destruct (u =? url)%string; [|reflexivity].
      exists v, stars. split; [reflexivity|]. split; [exact Hstars|reflexivity].
Qed.

(** X12. [build_cache_by_repo] indexes the cache by repository URL: when it
    returns, the record under a URL comes from the last object entry of the
    cache whose [repo] is that URL, and holds its [stars] as an integer
    ([int(stars or 0)]) and its [updated_at], [version] and [logo], each
    replaced by the empty string when it is missing or empty; a URL has a
    record exactly when it is not empty and some object entry has it. *)
Theorem cache_index_holds_latest (cache_data : dict) (cache_by_repo : dict) (url : string) :
  build_cache_by_repo cache_data = Ok cache_by_repo ->
  match dict_lookup cache_by_repo url with
  | Some record =>
      url <> "" /\
      exists v stars,
        latest_with_repo (map snd cache_data) url = Some (JObj v) /\
        py_int (py_or (py_get v "stars") (JInt 0)) = Ok stars /\
        record = cache_record stars
                   (py_or (py_get v "updated_at") (JStr ""))
                   (py_or (py_get v "version") (JStr ""))
                   (py_or (py_get v "logo") (JStr ""))
  | None => url = "" \/ latest_with_repo (map snd cache_data) url = None
  end.
Proof.
  intros Hrun.
  pose proof (build_cache_by_repo_loop_lookup _ _ _ url Hrun) as Hlookup.
  destruct (url =? "")%string eqn:Hurl.
  - rewrite Hlookup. cbn [dict_lookup]. left. now apply String.eqb_eq.
  - apply String.eqb_neq in Hurl.
    destruct (latest_with_repo (map snd cache_data) url) as [value|].
    + destruct Hlookup as (v & stars & -> & Hstars & ->).
      split; [exact Hurl|]. now exists v, stars.
    + rewrite Hlookup. cbn [dict_lookup]. now right.
Qed.

(** A cache where two entries name the same repository: the later one is
    indexed. *)
Lemma cache_index_holds_latest_witness :
  build_cache_by_repo
    [("old", JObj [("repo", JStr "https://github.com/acme/foo"); ("stars", JInt 1)]);
     ("new", JObj [("repo", JStr "https://github.com/acme/foo"); ("stars", JInt 2);
                   ("version", JStr "2.0.0")])] =
  Ok [("https://github.com/acme/foo", cache_record 2 (JStr "") (JStr "2.0.0") (JStr ""))] /\
  exists v,
    latest_with_repo
      [JObj [("repo", JStr "https://github.com/acme/foo"); ("stars", JInt 1)];
       JObj [("repo", JStr "https://github.com/acme/foo"); ("stars", JInt 2);
             ("version", JStr "2.0.0")]]
      "https://github.com/acme/foo" = Some (JObj v) /\
    py_get v "version" = JStr "2.0.0".
Proof.
  assert (Hrun :
            build_cache_by_repo
              [("old", JObj [("repo", JStr "https://github.com/acme/foo"); ("stars", JInt 1)]);
               ("new", JObj [("repo", JStr "https://github.com/acme/foo"); ("stars", JInt 2);
                             ("version", JStr "2.0.0")])] =
            Ok [("https://github.com/acme/foo",
                 cache_record 2 (JStr "") (JStr "2.0.0") (JStr ""))])
    by (vm_compute; reflexivity).
  split; [exact Hrun|].
  pose proof (cache_index_holds_latest _ _ "https://github.com/acme/foo" Hrun) as Hlatest.
  cbn [dict_lookup String.eqb Ascii.eqb Bool.eqb andb] in Hlatest.
  destruct Hlatest as (_ & v & stars & Hv & _ & Hrecord).
  exists v. split; [exact Hv|].
  unfold cache_record in Hrecord. injection Hrecord as _ _ Hversion _.
  unfold py_or in Hversion. destruct (py_truthy (py_get v "version")); [|discriminate].
  now symmetry.
Defined.

(** ** [REPO_URL_RE] *)

Lemma strip_prefix_spec (prefix : list ascii) :
  forall cs rest, strip_prefix prefix cs = Some rest -> cs = (prefix ++ rest)%list.
Proof.
  induction prefix as [|p prefix IH]; intros cs rest; simpl.
  - now intros [= ->].
  - destruct cs as [|c cs]; [discriminate|].
    destruct (p =? c)%char eqn:Hpc; [|discriminate].
    apply Ascii.eqb_eq in Hpc. subst c. intros Hrest. now rewrite (IH _ _ Hrest).
Qed.

Lemma strip_prefix_app (prefix rest : list ascii) :
  strip_prefix prefix (prefix ++ rest) = Some rest.
Proof.
  induction prefix as [|p prefix IH]; simpl; [reflexivity|].
  now rewrite Ascii.eqb_refl.
Qed.

Lemma split_at_slash_spec (cs : list ascii) :
  forall before after,
    split_at_slash cs = Some (before, after) ->
    cs = (before ++ "/"%char :: after)%list /\ ~ In "/"%char before.
Proof.
  induction cs as [|c cs IH]; intros before after; cbn [split_at_slash]; [discriminate|].
  destruct (c =? "/")%char eqn:Hc.
  - apply Ascii.eqb_eq in Hc. subst c. intros [= <- <-]. split; [reflexivity|intros []].
  - destruct (split_at_slash cs) as [[b a]|]; [|discriminate].
    intros [= <- <-]. destruct (IH _ _ eq_refl) as [-> Hno]. split; [reflexivity|].
    intros [->|Hin]; [|now apply Hno]. now rewrite Ascii.eqb_refl in Hc.
Qed.

Lemma repo_scan_eq (taken rest : list ascii) :
  repo_scan taken rest =
  if match taken with [] => false | _ => is_url_tail rest end
  then Some (rev taken)
  else match rest with
       | [] => None
       | c :: rest' => if (c =? "/")%char then None else repo_scan (c :: taken) rest'
       end.
Proof. destruct rest; reflexivity. Qed.

Lemma repo_scan_spec (rest : list ascii) :
  forall taken repo,
    repo_scan taken rest = Some repo ->
    exists more tail,
      rest = (more ++ tail)%list /\
      repo = (rev taken ++ more)%list /\
      repo <> [] /\
      ~ In "/"%char more /\
      is_url_tail tail = true.
Proof.
  induction rest as [|c rest IH]; intros taken repo; rewrite repo_scan_eq.
  - destruct taken as [|t taken]; [discriminate|].
    destruct (is_url_tail []) eqn:Htail; [|discriminate].
    intros [= <-]. exists [], []. split; [reflexivity|]. split; [now rewrite app_nil_r|].
    split; [|split; [intros []|exact Htail]].
    simpl. intros H. now apply app_eq_nil in H as [_ [=]].
  - destruct (match taken with [] => false | _ => is_url_tail (c :: rest) end) eqn:Hstop.
    + destruct taken as [|t taken]; [discriminate|].
      intros [= <-]. exists [], (c :: rest). split; [reflexivity|].
      split; [now rewrite app_nil_r|]. split; [|split; [intros []|exact Hstop]].
      simpl. intros H. now apply app_eq_nil in H as [_ [=]].
    + destruct (c =? "/")%char eqn:Hc; [discriminate|].
      intros Hrun. destruct (IH _ _ Hrun) as (more & tail & -> & -> & Hne & Hno & Htail).
      exists (c :: more), tail. split; [reflexivity|].
      split; [simpl; now rewrite <- app_assoc|]. split; [exact Hne|].
      split; [|exact Htail].
      intros [->|Hin]; [|now apply Hno]. now rewrite Ascii.eqb_refl in Hc.
Qed.

Lemma string_of_list_ascii_app (a b : list ascii) :
  string_of_list_ascii (a ++ b) = (string_of_list_ascii a ++ string_of_list_ascii b)%string.
Proof. induction a as [|c a IH]; simpl; [reflexivity|]. now rewrite IH. Qed.

Lemma string_of_list_ascii_nonempty (cs : list ascii) :
  cs <> [] -> string_of_list_ascii cs <> "".
Proof. destruct cs; [intros H; now elim H|discriminate]. Qed.

(** X14. What [REPO_URL_RE] accepts: a URL that matches is
    [https://github.com/], an owner, a slash, a repository name and one of the
    tails the pattern allows after it (nothing, [.git], a slash, a final
    newline); owner and name are not empty and hold no slash. *)
Theorem repo_url_match_shape (repo_url owner repo : string) :
  REPO_URL_RE_match repo_url = Some (owner, repo) ->
  owner <> "" /\ repo <> "" /\
  ~ In "/"%char (list_ascii_of_string owner) /\
  ~ In "/"%char (list_ascii_of_string repo) /\
  exists tail,
    repo_url = "https://github.com/" ++ owner ++ "/" ++ repo ++ tail /\
    is_url_tail (list_ascii_of_string tail) = true.
Proof.
  unfold REPO_URL_RE_match.
  destruct (strip_prefix _ _) as [rest|] eqn:Hprefix; [|discriminate].
  apply strip_prefix_spec in Hprefix.
  destruct (split_at_slash rest) as [[before after]|] eqn:Hsplit; [|discriminate].
  apply split_at_slash_spec in Hsplit as [-> Hno_owner].
  destruct before as [|b before]; [discriminate|].
  assert (Howner : b :: before <> []) by discriminate.
  cbv beta iota. remember (b :: before) as owner_chars eqn:Hchars. clear Hchars.
  destruct (repo_scan [] after) as [name|] eqn:Hscan; [|discriminate].
  apply repo_scan_spec in Hscan as (more & tail & -> & -> & Hne & Hno_repo & Htail).
  intros [= <- <-]. simpl rev in *. rewrite app_nil_l in *.
  split; [now apply string_of_list_ascii_nonempty|].
  split; [now apply string_of_list_ascii_nonempty|].
  rewrite !list_ascii_of_string_of_list_ascii.
  split; [exact Hno_owner|]. split; [exact Hno_repo|].
  exists (string_of_list_ascii tail). rewrite list_ascii_of_string_of_list_ascii.
  split; [|exact Htail].
  rewrite <- (string_of_list_ascii_of_string repo_url), Hprefix.
  rewrite !string_of_list_ascii_app. cbn [string_of_list_ascii].
  rewrite !string_of_list_ascii_app. reflexivity.
Qed.

(** The clone URL of a repository. *)
Lemma repo_url_match_shape_witness :
  REPO_URL_RE_match "https://github.com/acme/foo.git" = Some ("acme", "foo") /\
  exists tail,
    "https://github.com/acme/foo.git" = "https://github.com/" ++ "acme" ++ "/" ++ "foo" ++ tail /\
    is_url_tail (list_ascii_of_string tail) = true.
Proof.
  assert (Hmatch : REPO_URL_RE_match "https://github.com/acme/foo.git" = Some ("acme", "foo"))
    by (vm_compute; reflexivity).
  split; [exact Hmatch|].
  exact (proj2 (proj2 (proj2 (proj2 (repo_url_match_shape _ _ _ Hmatch))))).
Defined.

Lemma list_ascii_of_string_app (a b : string) :
  list_ascii_of_string (a ++ b) = (list_ascii_of_string a ++ list_ascii_of_string b)%list.
Proof. induction a as [|c a IH]; simpl; [reflexivity|]. now rewrite IH. Qed.

Lemma split_at_slash_app (before after : list ascii) :
  forallb (fun c => negb (c =? "/")%char) before = true ->
  split_at_slash (before ++ "/"%char :: after) = Some (before, after).
Proof.
  induction before as [|c before IH]; cbn [forallb app split_at_slash].
  - now rewrite Ascii.eqb_refl.
  - intros H. apply andb_true_iff in H as [Hc Hrest]. apply negb_true_iff in Hc.
    now rewrite Hc, (IH Hrest).
Qed.

Lemma is_url_tail_In (cs : list ascii) : is_url_tail cs = true <-> In cs url_tails.
Proof.
  unfold is_url_tail. rewrite existsb_exists. split.
  - intros (t & Hin & Heq). unfold ascii_list_eqb in Heq. apply String.eqb_eq in Heq.
    apply (f_equal list_ascii_of_string) in Heq.
    rewrite !list_ascii_of_string_of_list_ascii in Heq. now subst.
  - intros Hin. exists cs. split; [exact Hin|]. unfold ascii_list_eqb. apply String.eqb_refl.
Qed.

Lemma app_inv_firstn {A} (q tail t : list A) :
  (q ++ tail)%list = t -> q = firstn (List.length t - List.length tail) t.
Proof.
  intros <-. rewrite List.length_app.
  replace (List.length q + List.length tail - List.length tail)%nat with (List.length q)
    by lia.
  rewrite firstn_app, firstn_all, Nat.sub_diag. cbn [firstn]. now rewrite app_nil_r.
Qed.

(** Before one of the four usual tails, only the empty run, a run with a
    newline, or [.git] leaves a tail the pattern accepts. *)
Lemma early_tail_cases (q tail : list ascii) :
  In tail [[]; list_ascii_of_string "/"; list_ascii_of_string ".git";
           list_ascii_of_string ".git/"] ->
  is_url_tail (q ++ tail) = true ->
  q = [] \/ forallb is_name_char q = false \/ q = list_ascii_of_string ".git".
Proof.
  intros Htail Hurl. apply is_url_tail_In in Hurl.
  vm_compute in Htail, Hurl.
  repeat match type of Htail with
         | _ \/ _ => destruct Htail as [Htail|Htail]
         | False => contradiction
         end;
  subst tail;
  repeat match type of Hurl with
         | _ \/ _ => destruct Hurl as [Hurl|Hurl]
         | False => contradiction
         end;
  symmetry in Hurl; pose proof (app_inv_firstn _ _ _ Hurl) as Hq; cbn in Hq; subst q;
  first [ discriminate Hurl
        | left; reflexivity
        | right; left; reflexivity
        | right; right; reflexivity ].
Qed.

Lemma repo_scan_complete (tail : list ascii) :
  is_url_tail tail = true ->
  forall q taken,
    forallb (fun c => negb (c =? "/")%char) q = true ->
    (forall q1 q2, q = (q1 ++ q2)%list -> q2 <> [] -> taken <> [] \/ q1 <> [] ->
                   is_url_tail (q2 ++ tail) = false) ->
    taken <> [] \/ q <> [] ->
    repo_scan taken (q ++ tail) = Some (rev taken ++ q)%list.
Proof.
  intros Htail. induction q as [|c q IH]; intros taken Hslash Hearly Hne;
    rewrite repo_scan_eq.
  - destruct taken as [|t taken]; [destruct Hne as [H|H]; now elim H|].
    cbn [app]. rewrite Htail. now rewrite app_nil_r.
  - assert (Hgo : match taken with [] => false | _ => is_url_tail ((c :: q) ++ tail) end
                  = false).
    { destruct taken as [|t taken]; [reflexivity|].
      apply (Hearly [] (c :: q)); [reflexivity|discriminate|left; discriminate]. }
    rewrite Hgo. cbn [forallb] in Hslash. apply andb_true_iff in Hslash as [Hc Hslash].
    apply negb_true_iff in Hc. cbn [app]. rewrite Hc.
    rewrite (IH (c :: taken) Hslash).
    + cbn [rev]. now rewrite <- app_assoc.
    + intros q1 q2 -> Hq2 _. apply (Hearly (c :: q1) q2); [reflexivity|exact Hq2|].
      right. discriminate.
    + left. discriminate.
Qed.

Lemma ends_with_app (suffix cs : list ascii) : ends_with suffix (cs ++ suffix) = true.
Proof. unfold ends_with. now rewrite rev_app_distr, strip_prefix_app. Qed.

(** X15. The usual spellings of a repository URL all resolve to the same
    owner and repository: for an owner without slash and a name without
    slash and newline that does not end in [.git], the page URL, the clone
    URL ([.git]) and both with a final slash match [REPO_URL_RE] with exactly
    that owner and that name. *)
Theorem url_spellings_match (owner repo repo_url : string) :
  is_owner_name owner = true ->
  is_plain_name repo = true ->
  In repo_url (url_spellings owner repo) ->
  REPO_URL_RE_match repo_url = Some (owner, repo).
Proof.
  intros Howner Hrepo Hin.
  unfold is_owner_name in Howner. cbv zeta in Howner.
  apply andb_true_iff in Howner as [Howner_ne Howner_slash].
  unfold is_plain_name in Hrepo. cbv zeta in Hrepo.
  apply andb_true_iff in Hrepo as [Hrepo Hgit].
  apply andb_true_iff in Hrepo as [Hrepo_ne Hrepo_chars].
  apply negb_true_iff in Hgit.
  assert (Hshape :
            exists tail,
              In tail [[]; list_ascii_of_string "/"; list_ascii_of_string ".git";
                       list_ascii_of_string ".git/"] /\
              list_ascii_of_string repo_url =
              (list_ascii_of_string "https://github.com/"
               ++ list_ascii_of_string owner
               ++ "/"%char :: list_ascii_of_string repo ++ tail)%list).
  { unfold url_spellings in Hin. cbv zeta in Hin.
    destruct Hin as [<-|[<-|[<-|[<-|[]]]]];
      [exists []|exists (list_ascii_of_string "/")|exists (list_ascii_of_string ".git")
      |exists (list_ascii_of_string ".git/")];
      (split; [simpl; tauto|]);
      rewrite !list_ascii_of_string_app;
      repeat first [rewrite <- app_assoc|progress cbn [app list_ascii_of_string]];
      rewrite ?app_nil_r; reflexivity. }
  destruct Hshape as (tail & Htail & Hchars).
  unfold REPO_URL_RE_match. rewrite Hchars, strip_prefix_app.
  rewrite (split_at_slash_app _ _ Howner_slash).
  destruct (list_ascii_of_string owner) as [|o owner_chars] eqn:Ho; [discriminate|].
  rewrite <- Ho.
  assert (Hscan : repo_scan [] (list_ascii_of_string repo ++ tail)
                  = Some (rev [] ++ list_ascii_of_string repo)%list).
  { apply repo_scan_complete.
    - apply is_url_tail_In.
      vm_compute in Htail. vm_compute.
      repeat (destruct Htail as [<-|Htail]; [tauto|]). contradiction.
    - rewrite forallb_forall in *. intros c Hc. specialize (Hrepo_chars c Hc).
      unfold is_name_char in Hrepo_chars. now apply andb_true_iff in Hrepo_chars as [H _].
    - intros q1 q2 Hsplit Hq2 [H|Hq1]; [now elim H|].
      destruct (is_url_tail (q2 ++ tail)) eqn:Hearly; [|reflexivity].
      destruct (early_tail_cases _ _ Htail Hearly) as [->|[Hbad| ->]].
      + now elim Hq2.
      + rewrite Hsplit, forallb_app, Hbad, andb_false_r in Hrepo_chars. discriminate.
      + rewrite Hsplit, ends_with_app in Hgit. discriminate.
    - right. destruct (list_ascii_of_string repo); [discriminate|discriminate]. }
  rewrite Hscan. cbn [rev app]. rewrite Ho, <- Ho.
  now rewrite !string_of_list_ascii_of_string.
Qed.

(** The four spellings of [acme/foo]. *)
Lemma url_spellings_match_witness :
  is_owner_name "acme" = true /\
  is_plain_name "foo" = true /\
  REPO_URL_RE_match "https://github.com/acme/foo" = Some ("acme", "foo") /\
  REPO_URL_RE_match "https://github.com/acme/foo/" = Some ("acme", "foo") /\
  REPO_URL_RE_match "https://github.com/acme/foo.git" = Some ("acme", "foo") /\
  REPO_URL_RE_match "https://github.com/acme/foo.git/" = Some ("acme", "foo").
Proof.
  assert (Howner : is_owner_name "acme" = true) by reflexivity.
  assert (Hrepo : is_plain_name "foo" = true) by reflexivity.
  split; [exact Howner|]. split; [exact Hrepo|].
  split; [|split; [|split]];
    apply (url_spellings_match "acme" "foo" _ Howner Hrepo); simpl; tauto.
Defined.

(** ** Whole runs *)

Section Runs.

Variable E : Env.

(** Every repository URL of the catalog has its record. *)
Lemma get_repo_info_has_url (original_plugins : dict) (existing_cache : json)
    (has_existing_cache : bool) (w w' : World) (repo_info : dict)
    (key : string) (plugin : dict) (url : string) :
  get_repo_info E original_plugins existing_cache has_existing_cache w = (Ok repo_info, w') ->
  In (key, JObj plugin) original_plugins ->
  dict_lookup plugin "repo" = Some (JStr url) ->
  url <> "" ->
  dict_has repo_info url = true.
Proof.
  intros Hrun Hin Hrepo Hne.
  destruct (get_repo_info_keys E _ _ _ _ _ _ Hrun) as (futures & _ & _ & Hperm).
  destruct (collect_repo_urls_spec (map snd original_plugins) [] (NoDup_nil _))
    as [Hnodup Hmem].
  rewrite dict_has_keys. apply (Permutation_in _ (Permutation_sym Hperm)).
  apply Hmem. right. split; [exact Hne|].
  exists plugin. split; [|exact Hrepo]. apply in_map_iff. now exists (key, JObj plugin).
Qed.

(** X16. A run without a readable catalog keeps what it could fetch, and
    nothing else: when [plugin_cache_original.json] does not exist, or exists
    but does not decode, and the update returns, every persisted entry that
    names a repository (a non-empty string under [repo]) has a RepoInfo in
    [repo_info.json] whose status is [success], and carries the stars of that
    RepoInfo. *)
Theorem first_run_keeps_fetched_only (w w1 w' : World) (original_plugins : dict) :
  files w "plugin_cache_original.json" = None \/
  files w "plugin_cache_original.json" = Some FileGarbage ->
  fetch_original_plugin_data E w = (Ok (true, original_plugins), w1) ->
  keys_distinct original_plugins = true ->
  catalog_ok original_plugins = true ->
  main_update E w = (Ok true, w') ->
  exists repo_info result,
    files w' "repo_info.json" = Some (FileJson (JObj repo_info)) /\
    files w' "plugin_cache_original.json" = Some (FileJson (JObj result)) /\
    forall key entry url,
      dict_lookup result key = Some (JObj entry) ->
      dict_lookup entry "repo" = Some (JStr url) ->
      url <> "" ->
      exists info,
        dict_lookup repo_info url = Some info /\
        status_of info = "success" /\
        dict_lookup entry "stars" = Some (get_if_dict info "stars" JNull).
Proof.
  intros Hnone Hfetch Hd Hcatalog. unfold main_update.
  rewrite (bind_ok _ _ _ _ _ Hfetch).
  assert (Hsame : files w1 "plugin_cache_original.json"
                  = files w "plugin_cache_original.json").
  { apply (fetch_original_plugin_data_frame E ["original_plugins.json"]
             (or_introl eq_refl) _ _ _ Hfetch).
    simpl. intros [H|[]]. discriminate. }
  assert (Hload : exists has_existing_cache w1',
             load_existing_cache w1 = (Ok (has_existing_cache, JObj []), w1')).
  { destruct Hnone as [Hfile|Hfile]; rewrite Hfile in Hsame;
      unfold load_existing_cache, bind, path_exists, load_json;
      rewrite Hsame; cbv beta iota; rewrite ?Hsame;
      cbv [ret save_json write_json json_encodable forallb];
      now eexists _, _. }
  destruct Hload as (has_existing_cache & w1' & Hload).
  rewrite (bind_ok _ _ _ _ _ Hload).
  destruct (get_repo_info E original_plugins (JObj []) has_existing_cache w1')
    as [[ri|e] w2] eqn:Hinfo;
    [|unfold bind; rewrite Hinfo; discriminate].
  rewrite (bind_ok _ _ _ _ _ Hinfo).
  pose proof (get_repo_info_records E _ _ _ _ _ _ Hinfo) as Hrecords.
  destruct (transform_plugin_data_entries original_plugins ri (JObj []) w2
              Hd Hcatalog Hrecords eq_refl) as (result & Hmerge & Hentries).
  rewrite (bind_ok _ _ _ _ _ Hmerge). unfold ret. intros [= <-].
  exists ri, result.
  destruct (get_repo_info_inv E _ _ _ _ _ _ Hinfo)
    as (idx & futures & w0 & _ & _ & _ & _ & _ & _ & _ & Hfiles).
  split; [cbn [after_transform files]; rewrite Hfiles; reflexivity|].
  split; [reflexivity|].
  intros key entry url Hkey Hrepo Hne.
  apply transform_plugin_data_loop in Hmerge as [Hloop _].
  pose proof (transform_loop_result_lookup _ _ _ _ Hd Hloop key) as Hlookup.
  rewrite Hkey in Hlookup.
  destruct (dict_lookup original_plugins key) as [v|] eqn:Horiginal; [|discriminate].
  destruct v as [| | | | | |plugin]; try discriminate.
  apply dict_lookup_in in Horiginal.
  specialize (Hentries key plugin Horiginal). cbv zeta in Hentries.
  rewrite Hkey in Hentries.
  destruct (spec_dropped (repo_info_for ri plugin) (normalize_cache (JObj [])) key)
    eqn:Hdropped; [discriminate|].
  injection Hentries as ->.
  rewrite new_plugin_repo in Hrepo. injection Hrepo as Hrepo.
  assert (Hplugin : dict_lookup plugin "repo" = Some (JStr url)).
  { unfold py_get, py_get_def in Hrepo.
    destruct (dict_lookup plugin "repo"); [now subst|discriminate]. }
  pose proof (get_repo_info_has_url _ _ _ _ _ _ _ _ _ Hinfo Horiginal Hplugin Hne) as Hhas.
  unfold dict_has in Hhas.
  destruct (dict_lookup ri url) as [info|] eqn:Hurl; [|discriminate].
  assert (Hfor : repo_info_for ri plugin = Some info).
  { unfold repo_info_for, py_get_def. now rewrite Hplugin. }
  rewrite Hfor in *. exists info. split; [reflexivity|].
  unfold spec_dropped in Hdropped. cbn [normalize_cache py_get py_get_def dict_lookup] in Hdropped.
  unfold has_cache_entry in Hdropped. cbn [dict_lookup negb] in Hdropped.
  rewrite andb_true_r in Hdropped.
  apply orb_false_iff in Hdropped as [_ Hsuccess]. apply negb_false_iff in Hsuccess.
  split; [now apply String.eqb_eq|].
  rewrite new_plugin_stars. unfold spec_stars. rewrite Hsuccess.
  pose proof (forallb_lookup is_repo_info _ _ _ Hrecords Hurl) as His.
  destruct info as [| | | | | |r]; try discriminate.
  cbn [get_if_dict is_repo_info] in *. unfold py_get, py_get_def.
  destruct (dict_lookup r "stars") as [[]|]; try discriminate. reflexivity.
Qed.

End Runs.

(** A plugin that a run has persisted is dropped by the next merge only for a
    repository reported deleted. *)
Lemma has_cache_entry_of_merged (original_plugins repo_info : dict)
    (existing_cache_raw : json) (w w' : World) (result : dict) (key : string) :
  transform_plugin_data original_plugins repo_info existing_cache_raw w = (Ok result, w') ->
  dict_has result key = true ->
  has_cache_entry result key = true.
Proof.
  intros Hrun Hkey. destruct (merged_catalog_is_cache _ _ _ _ _ _ Hrun) as [_ Husable].
  unfold dict_has in Hkey.
  destruct (dict_lookup result key) as [entry|] eqn:Hentry; [|discriminate].
  exact (Husable _ _ Hentry).
Qed.

(** X17. Outages do not shrink the catalog: a plugin that the previous run
    persisted (in a catalog with no plugin keyed [data]) and that is still an
    object entry of the upstream catalog is persisted again by the next
    merge, whatever the status of its repository (failed, rate limited,
    redirected, cached, not enriched at all), unless that status is
    [deleted]. *)
Theorem persisted_plugins_survive_outages
    (original0 repo_info0 : dict) (cache0 : json) (w0 w0' : World) (previous : dict)
    (original_plugins repo_info : dict) (w : World) (key : string) (plugin : dict) :
  transform_plugin_data original0 repo_info0 cache0 w0 = (Ok previous, w0') ->
  dict_has previous "data" = false ->
  dict_has previous key = true ->
  keys_distinct original_plugins = true ->
  catalog_ok original_plugins = true ->
  repo_info_ok repo_info = true ->
  In (key, JObj plugin) original_plugins ->
  exists result,
    transform_plugin_data original_plugins repo_info (JObj previous) w =
    (Ok result, after_transform result w) /\
    dict_has result key =
    match repo_info_for repo_info plugin with
    | Some info => negb (status_of info =? "deleted")%string
    | None => true
    end.
Proof.
  intros Hprevious Hdata Hkey Hd Hcatalog Hinfo Hin.
  destruct (merged_catalog_is_cache _ _ _ _ _ _ Hprevious) as [Hcache _].
  pose proof (has_cache_entry_of_merged _ _ _ _ _ _ _ Hprevious Hkey) as Husable.
  pose proof (normalize_cache_plain _ Hdata) as Hplain.
  rewrite <- Hplain in Hcache.
  destruct (transform_plugin_data_entries original_plugins repo_info (JObj previous) w
              Hd Hcatalog Hinfo Hcache) as (result & Hrun & Hentries).
  exists result. split; [exact Hrun|].
  specialize (Hentries key plugin Hin). cbv zeta in Hentries.
  unfold dict_has. rewrite Hentries, Hplain. unfold spec_dropped. rewrite Husable.
  destruct (repo_info_for repo_info plugin) as [info|]; [|reflexivity].
  cbn [negb]. rewrite andb_false_r, orb_false_r.
  now destruct (status_of info =? "deleted")%string.
Qed.

(** The sample run on an empty directory: the one plugin of the catalog is
    fetched and persisted with 42 stars. *)
Lemma first_run_keeps_fetched_only_witness :
  ((files empty_world "plugin_cache_original.json" = None \/
    files empty_world "plugin_cache_original.json" = Some FileGarbage) /\
   fst (fetch_original_plugin_data sample_env empty_world) = Ok (true, sample_fetched_catalog) /\
   keys_distinct sample_fetched_catalog = true /\
   catalog_ok sample_fetched_catalog = true /\
   fst (main_update sample_env empty_world) = Ok true) /\
  exists repo_info result,
    files (snd (main_update sample_env empty_world)) "repo_info.json" =
    Some (FileJson (JObj repo_info)) /\
    files (snd (main_update sample_env empty_world)) "plugin_cache_original.json" =
    Some (FileJson (JObj result)) /\
    dict_has result "astrbot_plugin_foo" = true.
Proof.
  set (fetched := fetch_original_plugin_data sample_env empty_world).
  set (run := main_update sample_env empty_world).
  assert (Hfetch : fetched = (Ok (true, sample_fetched_catalog), snd fetched))
    by (vm_compute; reflexivity).
  assert (Hrun : run = (Ok true, snd run)) by (vm_compute; reflexivity).
  split.
  - split; [now left|]. split; [now rewrite Hfetch|]. split; [reflexivity|].
    split; [reflexivity|now rewrite Hrun].
  - destruct (first_run_keeps_fetched_only sample_env empty_world _ _ _
                (or_introl eq_refl) Hfetch eq_refl eq_refl Hrun)
      as (repo_info & result & Hinfo & Hresult & _).
    exists repo_info, result. split; [exact Hinfo|]. split; [exact Hresult|].
    assert (Hfile : files (snd run) "plugin_cache_original.json" =
                    Some (FileJson
                            (JObj [("astrbot_plugin_foo",
                                    JObj [("repo", JStr "https://github.com/acme/foo");
                                          ("desc", JNull); ("author", JNull);
                                          ("tags", JArr []); ("stars", JInt 42);
                                          ("version", JStr "1.0.0");
                                          ("updated_at", JStr "2024-01-01T00:00:00Z")])])))
      by (vm_compute; reflexivity).
    rewrite Hresult in Hfile. injection Hfile as ->. reflexivity.
Defined.

(** The sample merge, then an outage: with every repository failing, what
    the first merge kept is kept. *)
Lemma persisted_plugins_survive_outages_witness :
  (transform_plugin_data sample_catalog sample_repo_info sample_cache empty_world =
   (Ok sample_merged, after_transform sample_merged empty_world) /\
   dict_has sample_merged "data" = false /\
   dict_has sample_merged "p3" = true /\
   keys_distinct sample_catalog = true /\
   catalog_ok sample_catalog = true /\
   repo_info_ok flaky_repo_info = true /\
   In ("p3", JObj sample_p3) sample_catalog) /\
  exists result,
    fst (transform_plugin_data sample_catalog flaky_repo_info (JObj sample_merged)
           empty_world) = Ok result /\
    dict_has result "p3" = true.
Proof.
  assert (Hprevious :
            transform_plugin_data sample_catalog sample_repo_info sample_cache empty_world =
            (Ok sample_merged, after_transform sample_merged empty_world))
    by (vm_compute; reflexivity).
  assert (Hin : In ("p3", JObj sample_p3) sample_catalog) by (simpl; tauto).
  split.
  - split; [exact Hprevious|]. repeat (split; [reflexivity|]). exact Hin.
  - destruct (persisted_plugins_survive_outages _ _ _ _ _ _ sample_catalog flaky_repo_info
                empty_world "p3" sample_p3 Hprevious eq_refl eq_refl eq_refl eq_refl
                eq_refl Hin) as (result & Hrun & Hkept).
    exists result. split; [now rewrite Hrun|]. rewrite Hkept. reflexivity.
Defined.

(** X18. Catalog values that are not objects never reach the persisted
    catalog: whatever a merge that returns was given, the key of a catalog
    value that is a string, a number, a list, a boolean or null is not a key
    of the result. *)
Theorem malformed_entries_are_dropped (original_plugins repo_info : dict)
    (existing_cache_raw : json) (w w' : World) (result : dict) (key : string) (v : json) :
  keys_distinct original_plugins = true ->
  In (key, v) original_plugins ->
  is_dict v = false ->
  transform_plugin_data original_plugins repo_info existing_cache_raw w = (Ok result, w') ->
  dict_has result key = false.
Proof.
  intros Hd Hin Hv Hrun. apply transform_plugin_data_loop in Hrun as [Hloop _].
  unfold dict_has.
  rewrite (transform_loop_result_lookup _ _ _ _ Hd Hloop), (in_dict_lookup _ _ _ Hd Hin).
  destruct v; try reflexivity. discriminate.
Qed.

(** The value [7] under [p4] of the sample catalog. *)
Lemma malformed_entries_are_dropped_witness :
  (keys_distinct sample_catalog = true /\
   In ("p4", JInt 7) sample_catalog /\
   is_dict (JInt 7) = false /\
   transform_plugin_data sample_catalog sample_repo_info sample_cache empty_world =
   (Ok sample_merged, after_transform sample_merged empty_world)) /\
  dict_has sample_merged "p4" = false.
Proof.
  assert (Hin : In ("p4", JInt 7) sample_catalog) by (simpl; tauto).
  assert (Hrun : transform_plugin_data sample_catalog sample_repo_info sample_cache empty_world =
                 (Ok sample_merged, after_transform sample_merged empty_world))
    by (vm_compute; reflexivity).
  split; [split; [reflexivity|split; [exact Hin|split; [reflexivity|exact Hrun]]]|].
  exact (malformed_entries_are_dropped sample_catalog _ _ _ _ _ "p4" (JInt 7)
           eq_refl Hin eq_refl Hrun).
Defined.

(** ** What the merge writes can be written *)

Lemma encodable_cons (k : string) (v : json) (d : dict) :
  json_encodable (JObj ((k, v) :: d)) =
  str_encodable k && json_encodable v && json_encodable (JObj d).
Proof. reflexivity. Qed.

Lemma encodable_lookup (d : dict) (k : string) (v : json) :
  json_encodable (JObj d) = true -> dict_lookup d k = Some v -> json_encodable v = true.
Proof.
  induction d as [|[k0 v0] d IH]; [discriminate 2|].
  rewrite encodable_cons. intros H. apply andb_true_iff in H as [H Hd].
  apply andb_true_iff in H as [Hk Hv]. cbn [dict_lookup].
  destruct (k0 =? k)%string; [now intros [= <-]|now apply IH].
Qed.

Lemma encodable_get_def (d : dict) (k : string) (default : json) :
  json_encodable (JObj d) = true -> json_encodable default = true ->
  json_encodable (py_get_def d k default) = true.
Proof.
  intros Hd Hdefault. unfold py_get_def.
  destruct (dict_lookup d k) as [v|] eqn:Hk; [exact (encodable_lookup _ _ _ Hd Hk)|exact Hdefault].
Qed.

Lemma encodable_get_if_dict (x : json) (k : string) (default : json) :
  json_encodable x = true -> json_encodable default = true ->
  json_encodable (get_if_dict x k default) = true.
Proof.
  intros Hx Hdefault. destruct x; try exact Hdefault.
  now apply encodable_get_def.
Qed.

Lemma encodable_or (a b : json) :
  json_encodable a = true -> json_encodable b = true -> json_encodable (py_or a b) = true.
Proof. intros Ha Hb. unfold py_or. now destruct (py_truthy a). Qed.

Lemma encodable_set (d : dict) (k : string) (v : json) :
  json_encodable (JObj d) = true -> str_encodable k = true -> json_encodable v = true ->
  json_encodable (JObj (dict_set d k v)) = true.
Proof.
  intros Hd Hk Hv. induction d as [|[k0 v0] d IH]; cbn [dict_set].
  - rewrite encodable_cons, Hk, Hv. reflexivity.
  - rewrite encodable_cons in Hd. apply andb_true_iff in Hd as [H0 Hd].
    apply andb_true_iff in H0 as [Hk0 Hv0].
    destruct (k0 =? k)%string; rewrite encodable_cons.
    + now rewrite Hk0, Hv, Hd.
    + now rewrite Hk0, Hv0, (IH Hd).
Qed.

Lemma encodable_pop (d : dict) (k : string) :
  json_encodable (JObj d) = true -> json_encodable (JObj (dict_pop d k)) = true.
Proof.
  induction d as [|[k0 v0] d IH]; [reflexivity|].
  rewrite encodable_cons. intros Hd. apply andb_true_iff in Hd as [H0 Hd].
  cbn [dict_pop]. destruct (k0 =? k)%string; [now apply IH|].
  rewrite encodable_cons, H0. now apply IH.
Qed.

Lemma encodable_normalize_cache (cache_raw : json) :
  json_encodable cache_raw = true -> json_encodable (JObj (normalize_cache cache_raw)) = true.
Proof.
  intros Hraw. destruct cache_raw as [| | | | | |d]; try reflexivity.
  unfold normalize_cache.
  pose proof (encodable_get_def d "data" JNull Hraw eq_refl) as Hdata.
  unfold py_get. destruct (py_get_def d "data" JNull); assumption.
Qed.

Lemma encodable_cache_entry (cache : dict) (key : string) :
  json_encodable (JObj cache) = true ->
  json_encodable (JObj (cache_entry_of cache key)) = true.
Proof.
  intros Hcache. unfold cache_entry_of.
  pose proof (encodable_get_def cache key (JObj []) Hcache eq_refl) as Hentry.
  destruct (py_get_def cache key (JObj [])); (reflexivity || assumption).
Qed.

Lemma encodable_new_plugin (plugin : dict) (stars : Z) (version updated logo : json) :
  json_encodable (JObj plugin) = true ->
  json_encodable version = true ->
  json_encodable updated = true ->
  json_encodable logo = true ->
  json_encodable (JObj (build_new_plugin plugin stars version updated logo)) = true.
Proof.
  intros Hplugin Hversion Hupdated Hlogo. unfold build_new_plugin. cbv zeta.
  repeat match goal with
         | |- context [if ?b then _ else _] => destruct b
         end;
    repeat first
      [ assumption
      | reflexivity
      | apply encodable_pop
      | apply encodable_set
      | apply encodable_get_def ].
Qed.

Lemma encodable_merge_entry (repo_entry : json) (cache_entry plugin new_plugin : dict) :
  json_encodable repo_entry = true ->
  json_encodable (JObj cache_entry) = true ->
  json_encodable (JObj plugin) = true ->
  merge_entry repo_entry cache_entry plugin = Ok (Some new_plugin) ->
  json_encodable (JObj new_plugin) = true.
Proof.
  intros Hrepo Hcache Hplugin. unfold merge_entry.
  destruct (_ && _); [discriminate|].
  destruct (if _ && _ then _ else _) as [stars|e]; cbn [res_bind]; [|discriminate].
  intros [= <-].
  apply encodable_new_plugin; [exact Hplugin| | |];
    repeat first
      [ reflexivity
      | assumption
      | apply encodable_or
      | apply encodable_get_if_dict
      | apply encodable_get_def ].
Qed.

Lemma encodable_transform_entry (repo_info cache : dict) (key : string) (plugin : json)
    (new_plugin : dict) :
  json_encodable (JObj repo_info) = true ->
  json_encodable (JObj cache) = true ->
  json_encodable plugin = true ->
  transform_entry repo_info cache key plugin = Ok (Some new_plugin) ->
  json_encodable (JObj new_plugin) = true.
Proof.
  intros Hinfo Hcache Hplugin. destruct plugin as [| | | | | |p]; try discriminate.
  unfold transform_entry.
  destruct (py_get_any repo_info (py_get_def p "repo" (JStr ""))) as [repo_entry|e]
    eqn:Hentry; cbn [res_bind]; [|discriminate].
  apply encodable_merge_entry; [|now apply encodable_cache_entry|exact Hplugin].
  unfold py_get_any in Hentry.
  destruct (py_get_def p "repo" (JStr "")); try discriminate;
    injection Hentry as <-; try reflexivity.
  now apply encodable_get_def.
Qed.

(** The strings of the merged catalog are those of the catalog, of the
    RepoInfo records and of the cache, and the literals of the merge. *)
Lemma transform_loop_encodable (repo_info cache : dict) (items : list (string * json)) :
  forall result out,
    json_encodable (JObj repo_info) = true ->
    json_encodable (JObj cache) = true ->
    json_encodable (JObj items) = true ->
    json_encodable (JObj result) = true ->
    transform_loop repo_info cache items result = Ok out ->
    json_encodable (JObj out) = true.
Proof.
  induction items as [|[key plugin] rest IH]; intros result out Hinfo Hcache Hitems Hresult.
  - cbn [transform_loop]. now intros [= <-].
  - rewrite encodable_cons in Hitems. apply andb_true_iff in Hitems as [Hitem Hrest].
    apply andb_true_iff in Hitem as [Hkey Hplugin].
    cbn [transform_loop].
    destruct (transform_entry repo_info cache key plugin) as [entry|e] eqn:Hentry;
      cbn [res_bind]; [|discriminate].
    apply (IH _ _ Hinfo Hcache Hrest).
    destruct entry as [new_plugin|]; [|exact Hresult].
    apply encodable_set; [exact Hresult|exact Hkey|].
    exact (encodable_transform_entry _ _ _ _ _ Hinfo Hcache Hplugin Hentry).
Qed.

Lemma load_existing_cache_encodable (w w' : World) (has_existing_cache : bool)
    (cache : json) :
  load_existing_cache w = (Ok (has_existing_cache, cache), w') ->
  json_encodable cache = true.
Proof.
  unfold load_existing_cache, bind, path_exists.
  destruct (files w "plugin_cache_original.json") as [f|]; cbv beta iota.
  - unfold load_json, save_json, write_json, ret.
    destruct (files w "plugin_cache_original.json") as [[v|]|]; cbv beta iota;
      match goal with
      | |- context [json_encodable ?c] => destruct (json_encodable c) eqn:Henc
      end; first [discriminate|now intros [= _ <- _]].
  - unfold ret. now intros [= _ <- _].
Qed.

Section WrittenCatalog.

Variable E : Env.

Lemma fetched_catalog_encodable (w w' : World) (catalog : dict) :
  fetch_original_plugin_data E w = (Ok (true, catalog), w') ->
  json_encodable (JObj catalog) = true.
Proof.
  unfold fetch_original_plugin_data, bind, urlopen_call, ret, lift.
  destruct (urlopen E (requests w) GITHUB_URL) as [status body|code body|];
    try discriminate.
  destruct (negb (status =? 200)); [discriminate|].
  destruct (is_blank body); [discriminate|].
  destruct (String.length body <? 50)%nat; [discriminate|].
  destruct (json_loads E body) as [data|]; [|destruct (loads_error E body); discriminate].
  destruct (is_empty_data data); [discriminate|].
  destruct data as [| | | | | |d]; try discriminate.
  unfold save_json, write_json.
  destruct (json_encodable (JObj d)) eqn:Henc; [|discriminate].
  now intros [= <- _].
Qed.

(** X22. The merge writes nothing that has not been written before: when the
    update block of [main] returns after a merge, the catalog, the RepoInfo
    map and the cache that were merged have each gone through [save_json]
    (lines 124, 326 and 133), and every key and every string of the catalog
    in [plugin_cache_original.json] and in its temporary copy can be encoded,
    so the two writes of the merge do not raise [UnicodeEncodeError]. *)
Theorem merge_writes_encodable (w w' : World) :
  main_update E w = (Ok true, w') ->
  exists result,
    files w' "plugin_cache_original.json" = Some (FileJson (JObj result)) /\
    files w' "temp_plugin_cache_original.json" = Some (FileJson (JObj result)) /\
    json_encodable (JObj result) = true.
Proof.
  unfold main_update. unfold bind at 1.
  destruct (fetch_original_plugin_data E w) as [[[should_update original_plugins]|e] w1]
    eqn:Hfetch; [|discriminate].
  destruct should_update; [|discriminate].
  pose proof (fetched_catalog_encodable _ _ _ Hfetch) as Hcatalog.
  unfold bind at 1.
  destruct (load_existing_cache w1) as [[[has_existing_cache existing_cache]|e] w2]
    eqn:Hload; [|discriminate].
  pose proof (load_existing_cache_encodable _ _ _ _ Hload) as Hcache.
  unfold bind at 1.
  destruct (get_repo_info E original_plugins existing_cache has_existing_cache w2)
    as [[repo_info|e] w3] eqn:Hinfo; [|discriminate].
  destruct (get_repo_info_inv E _ _ _ _ _ _ Hinfo)
    as (_ & _ & _ & _ & _ & _ & _ & _ & _ & Hrecords & _).
  unfold bind at 1.
  destruct (transform_plugin_data original_plugins repo_info existing_cache w3)
    as [[result|e] w4] eqn:Hmerge; [|discriminate].
  unfold ret. intros [= <-].
  apply transform_plugin_data_loop in Hmerge as [Hloop ->].
  exists result. split; [reflexivity|]. split; [reflexivity|].
  exact (transform_loop_encodable _ _ _ [] _ Hrecords
           (encodable_normalize_cache _ Hcache) Hcatalog eq_refl Hloop).
Qed.

End WrittenCatalog.

(** The sample run: the catalog it persists can be encoded. *)
Lemma merge_writes_encodable_witness :
  fst (main_update sample_env sample_world) = Ok true /\
  exists result,
    files (snd (main_update sample_env sample_world)) "plugin_cache_original.json" =
    Some (FileJson (JObj result)) /\
    json_encodable (JObj result) = true.
Proof.
  set (run := main_update sample_env sample_world).
  assert (Hrun : run = (Ok true, snd run)) by (vm_compute; reflexivity).
  split; [vm_compute; reflexivity|].
  destruct (merge_writes_encodable sample_env _ _ Hrun) as (result & Hfile & _ & Henc).
  exists result. split; [exact Hfile|exact Henc].
Defined.
